(** * jax3d.visu3d.array_dataclass: a shallow embedding

    The development follows [src/jax3d/visu3d/array_dataclass.py]: the
    dataclass whose fields are arrays sharing one batch shape
    ([DataclassArray]), its bound fields ([_ArrayField]), the index
    normalisation helpers and the free function [stack].

    Python exceptions are values of [exn]; a Python function that may raise
    returns a [result]. *)

From Stdlib Require Import String Ascii Bool Arith ZArith Lia.
From Stdlib Require Import List.
Import ListNotations.
Open Scope string_scope.
Open Scope list_scope.
Open Scope nat_scope.

Set Implicit Arguments.
Set Warnings "-register-all".

(** ** Shapes, backends, dtypes *)

(** [Shape]: a tuple of dimensions. *)
Definition Shape := list nat.

(** [enp.NpModule]: the numpy-like module owning an array. *)
Inductive NpModule := np | jnp | tnp.

Definition NpModule_eqb (a b : NpModule) : bool :=
  match a, b with
  | np, np | jnp, jnp | tnp, tnp => true
  | _, _ => false
  end.

(** [k.__name__] of the module, as used in the error message. *)
Definition NpModule_name (m : NpModule) : string :=
  match m with
  | np => "numpy"
  | jnp => "jax.numpy"
  | tnp => "tensorflow.experimental.numpy"
  end.

Definition Shape_eqb (a b : Shape) : bool :=
  if list_eq_dec Nat.eq_dec a b then true else false.

(** ** Exceptions *)

(** The Python exception classes the module raises. *)
Inductive exn_class :=
| ValueError | TypeError | IndexError | NotImplementedError | AttributeError.

(** One constructor per [raise] site (and per failing primitive), carrying
    what the message is formatted from. *)
Inductive exn :=
| NotFrozen
    (* '`v3d.DataclassArray` need to be @dataclasses.dataclass(frozen=True)' *)
| NoArrayField (qualname : string)
    (* '... should have at least one `v3d.array_field`' *)
| ConflictingNumpyTypes (xnps : list (string * list string))
| ConflictingBatchShapes (shapes : list (Shape * list string))
| ExpectedLastDimensions (inner : Shape) (name : string) (value_shape : Shape)
| FieldShouldBe (name : string)
    (* '{name} should be {dtype}. Got: {type(value)}' *)
| IterationOver0d
| LenOfUnsized (clsname : string) (shp : option Shape)
| TruthValueAmbiguous (clsname : string)
| SingleEllipsis
    (* "an index can only have a single ellipsis ('...')" *)
| TooManyIndices (shp : Shape) (valid_count : nat)
| ArrayTruthAmbiguous
    (* numpy: 'The truth value of an array with more than one element is
       ambiguous' *)
| NotInTuple
    (* 'tuple.index(x): x not in tuple' *)
| NoneHasNoLen
    (* "object of type 'NoneType' has no len()" *)
| NoneNotSubscriptable
| NotIterable
| ConflictingTypes (types : list (list string))
| PleaseOpenAnIssue
| NestedNotSupported
| ListIndexOutOfRange
| NoAttribute (name : string)
| UnpackError
    (* 'not enough values to unpack' / 'too many values to unpack' *)
| StackNotArray
    (* a backend [stack] over something that is not an array *)
| StackShapeMismatch
    (* numpy: 'all input arrays must have the same shape' *)
| MissingArgument (name : string)
| UnexpectedArgument (name : string).

Definition class_of (e : exn) : exn_class :=
  match e with
  | NotFrozen | NoArrayField _ | ConflictingNumpyTypes _
  | ConflictingBatchShapes _ | ExpectedLastDimensions _ _ _
  | TruthValueAmbiguous _ | ArrayTruthAmbiguous | NotInTuple
  | StackShapeMismatch | UnpackError | StackNotArray => ValueError
  | FieldShouldBe _ | IterationOver0d | LenOfUnsized _ _ | NoneHasNoLen
  | NoneNotSubscriptable | NotIterable | ConflictingTypes _ | MissingArgument _
  | UnexpectedArgument _ => TypeError
  | SingleEllipsis | TooManyIndices _ _ | ListIndexOutOfRange => IndexError
  | PleaseOpenAnIssue | NestedNotSupported => NotImplementedError
  | NoAttribute _ => AttributeError
  end.

Inductive result (A : Type) : Type :=
| Ok (a : A)
| Raise (e : exn).
Arguments Ok {A} a.
Arguments Raise {A} e.

Definition bind {A B} (r : result A) (k : A -> result B) : result B :=
  match r with
  | Ok a => k a
  | Raise e => Raise e
  end.

Declare Scope py_scope.
Delimit Scope py_scope with py.
Notation "x <- c1 ;; c2" := (bind c1 (fun x => c2))
  (at level 61, c1 at next level, right associativity) : py_scope.
Notation "' pat <- c1 ;; c2" := (bind c1 (fun x => match x with pat => c2 end))
  (at level 61, pat pattern, c1 at next level, right associativity) : py_scope.
Open Scope py_scope.

(** [[f(x) for x in l]] where [f] may raise: the first exception wins. *)
Fixpoint mapM {A B} (f : A -> result B) (l : list A) : result (list B) :=
  match l with
  | [] => Ok []
  | x :: l' => y <- f x ;; ys <- mapM f l' ;; Ok (y :: ys)
  end.

(** ** Index normalisation *)

(** [_IndiceItem]: what an index tuple may hold.  [IArray dims] is an array
    used as an index (a mask or a list of positions), of which only the
    dimensions matter here. *)
Inductive _IndiceItem :=
| IEllipsis
| INewaxis                                   (* None *)
| IInt (i : Z)
| ISlice (start stop step : option Z)
| IArray (dims : Shape).

Definition _Indices := list _IndiceItem.

(** [slice(None)] *)
Definition full_slice : _IndiceItem := ISlice None None None.

Definition is_ellipsis (k : _IndiceItem) : bool :=
  match k with IEllipsis => true | _ => false end.

Definition is_newaxis (k : _IndiceItem) : bool :=
  match k with INewaxis => true | _ => false end.

(** [len([k for k in indices if k is not np.newaxis and k is not Ellipsis])] *)
Definition _count_not_none (indices : _Indices) : nat :=
  length (filter (fun k => negb (is_newaxis k) && negb (is_ellipsis k)) indices).

(** [len([elem for elem in elems if elem is Ellipsis])] *)
Definition _count_ellipsis (elems : _Indices) : nat :=
  length (filter is_ellipsis elems).

(** Number of elements of an array of the given dimensions. *)
Definition prod_dims (s : Shape) : nat := fold_right Nat.mul 1 s.

(** An item that is an array of two elements or more: the items
    [tuple.index] cannot compare with [Ellipsis]. *)
Definition is_big_array (k : _IndiceItem) : bool :=
  match k with
  | IArray dims => 2 <=? prod_dims dims
  | _ => false
  end.

(** [bool(item == Ellipsis)], the test [tuple.index] makes on an item that
    is not the very object [Ellipsis].  Comparing an array is elementwise:
    the result is an array of [False], whose truth value numpy refuses
    when it has more than one element (and takes as [False] when it has
    one element or none). *)
Definition eq_Ellipsis (k : _IndiceItem) : result bool :=
  match k with
  | IEllipsis => Ok true
  | INewaxis | IInt _ | ISlice _ _ _ => Ok false
  | IArray _ => if is_big_array k then Raise ArrayTruthAmbiguous else Ok false
  end.

(** [indices.index(Ellipsis)] *)
Fixpoint tuple_index_Ellipsis (indices : _Indices) : result nat :=
  match indices with
  | [] => Raise NotInTuple
  | k :: rest =>
      b <- eq_Ellipsis k ;;
      if b then Ok 0 else i <- tuple_index_Ellipsis rest ;; Ok (S i)
  end.

(** [len(shape)], where [shape] may be the [None] of an instance without
    active field. *)
Definition len_shape (shape : option Shape) : result nat :=
  match shape with
  | Some s => Ok (length s)
  | None => Raise NoneHasNoLen
  end.

(** [_to_absolute_indices(indices, shape=shape)] *)
Definition _to_absolute_indices (indices : _Indices) (shape : option Shape)
  : result _Indices :=
  let ellipsis_count := _count_ellipsis indices in
  if 1 <? ellipsis_count then Raise SingleEllipsis else
  let valid_count := _count_not_none indices in
  rank <- len_shape shape ;;
  if rank <? valid_count
  then Raise (TooManyIndices (match shape with Some s => s | None => [] end)
                valid_count)
  else
  if ellipsis_count =? 0 then Ok indices else
  ellipsis_index <- tuple_index_Ellipsis indices ;;
  let start_elems := firstn ellipsis_index indices in
  let end_elems := skipn (ellipsis_index + 1) indices in
  let ellipsis_replacement := repeat full_slice (rank - valid_count) in
  Ok (start_elems ++ ellipsis_replacement ++ end_elems).

(** [_IndicesArg]: one item or a tuple of items; [np.index_exp[indices]]
    wraps a single item in a tuple. *)
Inductive _IndicesArg :=
| Item (k : _IndiceItem)
| Items (ks : _Indices).

Definition index_exp (indices : _IndicesArg) : _Indices :=
  match indices with
  | Item k => [k]
  | Items ks => ks
  end.

(** ** Arrays of a backend *)

(** [np.dtype], by its name ("float32", "int32", ...). *)
Definition np_dtype := string.

(** Any other Python object (the value of a field that is not an array
    field), by its [repr]. *)
Definition pyobj := string.

(** [py_utils.groupby(iterable, key=..., value=...)]: a [dict] from each
    key to the list of the values of the items with that key, in the order
    the keys first appear. *)
Section Groupby.
Variables (A K V : Type).
Variable K_eqb : K -> K -> bool.

Fixpoint groupby_add (k : K) (v : V) (d : list (K * list V))
  : list (K * list V) :=
  match d with
  | [] => [(k, [v])]
  | (k', vs) :: d' =>
      if K_eqb k' k then (k', vs ++ [v]) :: d'
      else (k', vs) :: groupby_add k v d'
  end.

(** Modelled from the spec: [py_utils.groupby], whose module is not
    among the sources (the spec shows its result as
    [{(3,): ['position'], (4,): ['scale']}]). *)
Definition groupby (l : list A) (key : A -> K) (value : A -> V)
  : list (K * list V) :=
  fold_left (fun d x => groupby_add (key x) (value x) d) l [].
End Groupby.

Section Model.

(** The elements of an array and their conversion to another dtype are
    the backend's; so is the dtype numpy gives to a stack of arrays of
    two dtypes. *)
Variable scalar : Type.
Variable astype : np_dtype -> np_dtype -> scalar -> scalar.
Variable result_type : np_dtype -> np_dtype -> np_dtype.

(** An array of one of the backends: its flat row-major data and its
    shape.  Plain Python data (numbers, nested lists) stands as the [np]
    array numpy builds from it: [lazy.get_xnp(value, strict=False)] gives
    [np] for it. *)
Record ndarray := {
  arr_xnp : NpModule;
  arr_dtype : np_dtype;
  arr_shape : Shape;
  arr_data : list scalar
}.

(** [xnp.asarray(a, dtype=dt)] *)
Definition asarray (xnp : NpModule) (a : ndarray) (dt : np_dtype) : ndarray :=
  {| arr_xnp := xnp;
     arr_dtype := dt;
     arr_shape := arr_shape a;
     arr_data := if String.eqb (arr_dtype a) dt then arr_data a
                 else map (astype (arr_dtype a) dt) (arr_data a) |}.

(** ** Field metadata and classes *)

(** The dtype of a field once [_ArrayFieldMetadata.__post_init__] has
    normalised it: an [np.dtype], or a [DataclassArray] subclass (by its
    qualified name). *)
Inductive DTypeArg :=
| DtArray (d : np_dtype)
| DtDataclass (cls : string).

Record _ArrayFieldMetadata := {
  inner_shape : Shape;
  dtype : DTypeArg
}.

(** [_ArrayFieldMetadata.is_dataclass] *)
Definition is_dataclass (m : _ArrayFieldMetadata) : bool :=
  match dtype m with DtDataclass _ => true | DtArray _ => false end.

(** A [DataclassArray] subclass: its name, the names of the classes of
    its [__mro__] (itself included), whether it is a frozen dataclass,
    and [dataclasses.fields(cls)] split into the fields that carry the
    ['v3d_field'] metadata and the others.  The array fields and
    [other_fields] are parameters of the generated [__init__], declared
    without default.  [uninit_fields] are the other fields declared with
    [init=False], each with its default: the generated [__init__] has no
    parameter of that name, and the default is what [getattr] reads on
    every instance. *)
Record dataclass_type := {
  qualname : string;
  mro : list string;
  frozen : bool;
  array_fields : list (string * _ArrayFieldMetadata);
  other_fields : list string;
  uninit_fields : list (string * pyobj)
}.

(** ** Instances *)

(** [_ArrayField]: a field of one instance.  [f_value] is
    [getattr(host, name)]; [f_xnp] is unset ([None]) for a missing
    value. *)
Record _ArrayField_ (V : Type) := {
  f_meta : _ArrayFieldMetadata;
  f_name : string;
  f_value : V;
  f_xnp : option NpModule
}.

(** An instance: its class, its bound fields (the cached
    [_all_array_fields], in declaration order), the values of its other
    fields, and the cached [_shape] and [_xnp]. *)
Record DataclassArray_ (V : Type) := {
  cls : dataclass_type;
  _all_array_fields : list (_ArrayField_ V);
  other_values : list (string * pyobj);
  _shape : option Shape;
  _xnp : NpModule
}.

(** [DcOrArray]: what an array field may hold: [None], the bare
    [object()] sentinel, an array, or a nested [DataclassArray]. *)
Inductive DcOrArray :=
| VNone
| VObject
| VArray (a : ndarray)
| VDc (d : DataclassArray_ DcOrArray).

Definition _ArrayField := _ArrayField_ DcOrArray.
Definition DataclassArray := DataclassArray_ DcOrArray.

(** [_ArrayField.is_value_missing].  The [_array_fields] of a nested
    instance are its bound fields whose value is not missing, so [not
    value._array_fields] says that all of them are missing. *)
Fixpoint is_value_missing_of (v : DcOrArray) : bool :=
  match v with
  | VNone => true
  | VObject => true
  | VDc d => forallb (fun f => is_value_missing_of (f_value f))
               (_all_array_fields d)
  | VArray _ => false
  end.

Definition is_value_missing (f : _ArrayField) : bool :=
  is_value_missing_of (f_value f).

(** [not f.is_value_missing] *)
Definition is_active (f : _ArrayField) : bool := negb (is_value_missing f).

(** [DataclassArray._array_fields]: the active fields. *)
Definition _array_fields (d : DataclassArray) : list _ArrayField :=
  filter is_active (_all_array_fields d).

(** [DataclassArray.shape] and [DataclassArray.xnp] *)
Definition shape (d : DataclassArray) : option Shape := _shape d.
Definition xnp (d : DataclassArray) : NpModule := _xnp d.

(** ** Binding a field: [_ArrayField.__post_init__] *)

(** [value.shape]: the shape of an array, the batch shape of a nested
    instance (which is [None] when it has no active field). *)
Definition value_shape (v : DcOrArray) : result (option Shape) :=
  match v with
  | VArray a => Ok (Some (arr_shape a))
  | VDc d => Ok (shape d)
  | VNone | VObject => Raise (NoAttribute "shape")
  end.

(** [_ArrayField.host_shape]: the slice [shape[:-len(inner_shape)]] keeps
    the first [len(shape) - len(inner_shape)] dimensions (none when there
    are too few). *)
Definition host_shape (f : _ArrayField) : result Shape :=
  vs <- value_shape (f_value f) ;;
  match vs with
  | None => Raise NoneNotSubscriptable
  | Some s =>
      match inner_shape (f_meta f) with
      | [] => Ok s
      | _ :: _ => Ok (firstn (length s - length (inner_shape (f_meta f))) s)
      end
  end.

Definition set_value_xnp (f : _ArrayField) (v : DcOrArray) (x : NpModule)
  : _ArrayField :=
  {| f_meta := f_meta f; f_name := f_name f; f_value := v; f_xnp := Some x |}.

(** [_ArrayField._init_array], where [dt] is [self.dtype].  The converted
    array is written back on the host.  (A missing value does not reach
    this method.) *)
Definition _init_array (f : _ArrayField) (dt : np_dtype) : result _ArrayField :=
  match f_value f with
  | VDc _ => Raise (FieldShouldBe (f_name f))
  | VArray a =>
      let xnp := arr_xnp a in
      Ok (set_value_xnp f (VArray (asarray xnp a dt)) xnp)
  | VNone | VObject => Raise (FieldShouldBe (f_name f))
  end.

(** [isinstance(value, dtype)] for a [DataclassArray] subclass [dtype] *)
Definition isinstance (v : DcOrArray) (c : string) : bool :=
  match v with
  | VDc d => existsb (String.eqb c) (mro (cls d))
  | _ => false
  end.

(** [_ArrayField._init_dataclass], where [c] is [self.dtype] *)
Definition _init_dataclass (f : _ArrayField) (c : string) : result _ArrayField :=
  match f_value f with
  | VDc d =>
      if isinstance (f_value f) c then Ok (set_value_xnp f (f_value f) (xnp d))
      else Raise (FieldShouldBe (f_name f))
  | _ => Raise (FieldShouldBe (f_name f))
  end.

(** [_ArrayField.__post_init__] *)
Definition _ArrayField__post_init__ (f : _ArrayField) : result _ArrayField :=
  if is_value_missing f then Ok f else
  f' <- match dtype (f_meta f) with
        | DtDataclass c => _init_dataclass f c
        | DtArray dt => _init_array f dt
        end ;;
  hs <- host_shape f' ;;
  vs <- value_shape (f_value f') ;;
  if match vs with
     | Some s => Shape_eqb (hs ++ inner_shape (f_meta f')) s
     | None => false
     end
  then Ok f'
  else Raise (ExpectedLastDimensions (inner_shape (f_meta f')) (f_name f')
                (match vs with Some s => s | None => [] end)).

(** ** Construction: the generated [__init__] and [__post_init__] *)

Fixpoint lookup (V : Type) (name : string) (kw : list (string * V)) : option V :=
  match kw with
  | [] => None
  | (n, v) :: kw' => if String.eqb n name then Some v else lookup name kw'
  end.

(** Binding keyword arguments: a keyword that names no field is a
    [TypeError], and so is a field left without a value. *)
Definition check_unexpected (V : Type) (declared : list string)
  (kwargs : list (string * V)) : result unit :=
  match filter (fun n => negb (existsb (String.eqb n) declared))
          (map fst kwargs) with
  | n :: _ => Raise (UnexpectedArgument n)
  | [] => Ok tt
  end.

Definition bind_kwarg (V : Type) (kwargs : list (string * V)) (n : string)
  : result V :=
  match lookup n kwargs with
  | Some v => Ok v
  | None => Raise (MissingArgument n)
  end.

(** [(x,) = xs] *)
Definition unpack1 (A : Type) (xs : list A) : result A :=
  match xs with
  | [x] => Ok x
  | _ => Raise UnpackError
  end.

(** [f.xnp], an attribute that is set on active fields only *)
Definition get_f_xnp (f : _ArrayField) : result NpModule :=
  match f_xnp f with
  | Some x => Ok x
  | None => Raise (NoAttribute "xnp")
  end.

(** [DataclassArray.__post_init__], on the instance [__init__] has filled.
    [fields] are the fields as given to the constructor; the first access
    to [_all_array_fields] binds them, in declaration order. *)
Definition __post_init__ (c : dataclass_type) (fields : list _ArrayField)
  (others : list (string * pyobj)) : result DataclassArray :=
  if negb (frozen c) then Raise NotFrozen else
  all <- mapM _ArrayField__post_init__ fields ;;
  match all with
  | [] => Raise (NoArrayField (qualname c))
  | _ :: _ =>
      let active := filter is_active all in
      xnp_keys <- mapM (fun f => x <- get_f_xnp f ;; Ok (x, f_name f)) active ;;
      let xnps := groupby NpModule_eqb xnp_keys fst snd in
      if 1 <? length xnps
      then Raise (ConflictingNumpyTypes
                    (map (fun kv => (NpModule_name (fst kv), snd kv)) xnps))
      else
      shape_keys <- mapM (fun f => s <- host_shape f ;; Ok (s, f_name f)) active ;;
      let shapes := groupby Shape_eqb shape_keys fst snd in
      if 1 <? length shapes then Raise (ConflictingBatchShapes shapes) else
      let xnps' := match xnps with
                   | [] => [np]
                   | _ => map fst xnps
                   end in
      let shapes' := match xnps with
                     | [] => [None]
                     | _ => map (fun kv => Some (fst kv)) shapes
                     end in
      xnp <- unpack1 xnps' ;;
      shape <- unpack1 shapes' ;;
      Ok {| cls := c; _all_array_fields := all; other_values := others;
            _shape := shape; _xnp := xnp |}
  end.

(** The fields as the generated [__init__] stores them, each with the
    keyword argument of its name. *)
Definition init_fields (c : dataclass_type)
  (array_kwargs : list (string * DcOrArray)) : result (list _ArrayField) :=
  mapM (fun nm =>
          v <- bind_kwarg array_kwargs (fst nm) ;;
          Ok {| f_meta := snd nm; f_name := fst nm; f_value := v;
                f_xnp := None |}) (array_fields c).

Definition init_others (c : dataclass_type)
  (other_kwargs : list (string * pyobj)) : result (list (string * pyobj)) :=
  mapM (fun n => o <- bind_kwarg other_kwargs n ;; Ok (n, o)) (other_fields c).

(** [cls(a=..., b=..., ...)]: the generated [__init__] stores each keyword
    argument on the instance and calls [__post_init__].  The keyword
    arguments of the array fields and those of the other fields are given
    apart. *)
Definition new (c : dataclass_type) (array_kwargs : list (string * DcOrArray))
  (other_kwargs : list (string * pyobj)) : result DataclassArray :=
  _ <- check_unexpected (map fst (array_fields c)) array_kwargs ;;
  _ <- check_unexpected (other_fields c) other_kwargs ;;
  fields <- init_fields c array_kwargs ;;
  others <- init_others c other_kwargs ;;
  __post_init__ c fields others.

(** ** Array functions of an instance *)

(** The attributes of the module [np_utils]: those every module has,
    and the names the body of [np_utils.py] binds (its imports and its
    two functions). *)
Definition np_utils_dir : list string :=
  ["__name__"; "__doc__"; "__package__"; "__loader__"; "__spec__";
   "__file__"; "__cached__"; "__builtins__";
   "annotations"; "enp"; "FloatArray"; "normalize"; "append_row"].

(** [np_utils.<name>]: the attribute of that name, or the
    [AttributeError] of a module that has none. *)
Definition np_utils_getattr (name : string) : result string :=
  if existsb (String.eqb name) np_utils_dir then Ok name
  else Raise (NoAttribute name).

(** What calling an attribute of [np_utils] on a shape returns. *)
Variable np_utils_call : string -> option Shape -> result nat.

(** [DataclassArray.size]: [np_utils.size_of(self._shape)]. *)
Definition size (d : DataclassArray) : result nat :=
  size_of <- np_utils_getattr "size_of" ;;
  np_utils_call size_of (_shape d).

(** The truth value of [self.shape]: a non-empty tuple. *)
Definition truthy_shape (s : option Shape) : bool :=
  match s with
  | Some (_ :: _) => true
  | _ => false
  end.

(** [DataclassArray.__len__] *)
Definition __len__ (d : DataclassArray) : result nat :=
  match shape d with
  | Some (n :: _) => Ok n
  | _ => Raise (LenOfUnsized (qualname (cls d)) (shape d))
  end.

(** [DataclassArray.__bool__] *)
Definition __bool__ (d : DataclassArray) : result bool :=
  if truthy_shape (shape d) then
    n <- __len__ d ;;
    if n =? 0 then Raise (TruthValueAmbiguous (qualname (cls d))) else Ok true
  else Ok true.

(** The first two statements of [DataclassArray.__getitem__]: the index
    tuple that is then applied to the value of every active field (by the
    backend's own indexing). *)
Definition getitem_indices (d : DataclassArray) (indices : _IndicesArg)
  : result _Indices :=
  _to_absolute_indices (index_exp indices) (shape d).

(** [replace = edc.dataclass_utils.replace]: a new instance of the same
    class, built by the constructor from the fields of [d] and the
    changes. *)
Definition replace (d : DataclassArray) (changes : list (string * DcOrArray))
  : result DataclassArray :=
  new (cls d)
    (changes ++
     map (fun f => (f_name f, f_value f))
       (filter (fun f => negb (existsb (String.eqb (f_name f)) (map fst changes)))
          (_all_array_fields d)))
    (other_values d).

(** [DataclassArray._map_field] *)
Definition _map_field (d : DataclassArray)
  (fn : _ArrayField -> result DcOrArray)
  (nest_fn : option (_ArrayField -> result DcOrArray))
  : result DataclassArray :=
  let _apply_field_dn (f : _ArrayField) :=
    if is_dataclass (f_meta f) then
      match nest_fn with
      | None => Raise NestedNotSupported
      | Some nest => nest f
      end
    else fn f in
  new_values <- mapM (fun f => v <- _apply_field_dn f ;; Ok (f_name f, v))
                  (_array_fields d) ;;
  replace d new_values.

(** ** The tree protocol *)

Record _TreeMetadata := {
  array_field_names : list string;
  non_array_field_kwargs : list (string * pyobj)
}.

(** [DataclassArray.tree_flatten].  The comprehension over
    [dataclasses.fields(self)] reads every field that is no array field,
    those declared with [init=False] included: there is no test of
    [f.init]. *)
Definition tree_flatten (d : DataclassArray) : list DcOrArray * _TreeMetadata :=
  let array_field_values := map (@f_value _) (_all_array_fields d) in
  let metadata :=
    {| array_field_names := map (@f_name _) (_all_array_fields d);
       non_array_field_kwargs := other_values d ++ uninit_fields (cls d) |} in
  (array_field_values, metadata).

(** [DataclassArray.tree_unflatten], a class method: every entry of the
    metadata is a keyword argument of the constructor. *)
Definition tree_unflatten (c : dataclass_type) (metadata : _TreeMetadata)
  (array_field_values : list DcOrArray) : result DataclassArray :=
  let array_field_kwargs :=
    combine (array_field_names metadata) array_field_values in
  new c array_field_kwargs (non_array_field_kwargs metadata).

(** ** Iteration over the outermost dimension *)

(** [l] cut into [n] consecutive pieces of [k] elements. *)
Fixpoint chunks (A : Type) (k n : nat) (l : list A) : list (list A) :=
  match n with
  | 0 => []
  | S n' => firstn k l :: chunks k n' (skipn k l)
  end.

(** Iterating over an array gives its sub-arrays along the first axis
    (for a 1-d numpy array they are numpy scalars, which stand here as 0-d
    arrays); a 0-d array cannot be iterated. *)
Definition iter_ndarray (a : ndarray) : result (list ndarray) :=
  match arr_shape a with
  | [] => Raise IterationOver0d
  | n :: s =>
      Ok (map (fun piece => {| arr_xnp := arr_xnp a; arr_dtype := arr_dtype a;
                               arr_shape := s; arr_data := piece |})
            (chunks (prod_dims s) n (arr_data a)))
  end.

(** [zip( *iterables)]: the tuples of the i-th items, as long as every
    iterable has one; nothing when there is no iterable. *)
Fixpoint zip_star (A : Type) (ls : list (list A)) : list (list A) :=
  match ls with
  | [] => []
  | l :: ls' =>
      match ls' with
      | [] => map (fun x => [x]) l
      | _ :: _ => map (fun p => fst p :: snd p) (combine l (zip_star ls'))
      end
  end.

(** [[f(x) for x in l if p(x)]] *)
Fixpoint mapM_filter (A B : Type) (p : A -> bool) (f : A -> result B)
  (l : list A) : result (list B) :=
  match l with
  | [] => Ok []
  | x :: l' =>
      if p x then y <- f x ;; ys <- mapM_filter p f l' ;; Ok (y :: ys)
      else mapM_filter p f l'
  end.

(** [list(iter(v))] for the value of a field: the items of an array, or
    those of [DataclassArray.__iter__] for a nested instance. *)
Fixpoint iter_value (v : DcOrArray) : result (list DcOrArray) :=
  match v with
  | VArray a => items <- iter_ndarray a ;; Ok (map VArray items)
  | VDc d =>
      if negb (truthy_shape (shape d)) then Raise IterationOver0d else
      let field_names := map (@f_name _) (_array_fields d) in
      field_values <- mapM_filter is_active (fun f => iter_value (f_value f))
                        (_all_array_fields d) ;;
      items <- mapM (fun vals => replace d (combine field_names vals))
                 (zip_star field_values) ;;
      Ok (map VDc items)
  | VNone | VObject => Raise NotIterable
  end.

(** [list(DataclassArray.__iter__(d))] *)
Definition __iter__ (d : DataclassArray) : result (list DataclassArray) :=
  if negb (truthy_shape (shape d)) then Raise IterationOver0d else
  let field_names := map (@f_name _) (_array_fields d) in
  field_values <- mapM (fun f => iter_value (f_value f)) (_array_fields d) ;;
  mapM (fun vals => replace d (combine field_names vals))
    (zip_star field_values).

(** ** Stacking *)

(** The objects that meet as keys of the [types] dict of [stack]: the
    classes of the inputs, and the [False] that is looked up in it. *)
Inductive pykey :=
| KType (name : string)
| KBool (b : bool).

(** [==] on these: a class is equal to itself only. *)
Definition pykey_eqb (a b : pykey) : bool :=
  match a, b with
  | KType n, KType m => String.eqb n m
  | KBool x, KBool y => Bool.eqb x y
  | _, _ => false
  end.

(** [type(x).__name__] *)
Definition type_name (v : DcOrArray) : string :=
  match v with
  | VNone => "NoneType"
  | VObject => "object"
  | VArray _ => "ndarray"
  | VDc d => qualname (cls d)
  end.

(** [key in d] for a dict *)
Definition dict_contains (K V : Type) (eqb : K -> K -> bool) (k : K)
  (d : list (K * V)) : bool :=
  existsb (fun kv => eqb (fst kv) k) d.

(** [getattr(arr, name)] for the name of an array field *)
Definition getattr (name : string) (arr : DcOrArray) : result DcOrArray :=
  match arr with
  | VDc d =>
      match find (fun f => String.eqb (f_name f) name) (_all_array_fields d) with
      | Some f => Ok (f_value f)
      | None => Raise (NoAttribute name)
      end
  | _ => Raise (NoAttribute name)
  end.

Definition as_ndarray (v : DcOrArray) : result ndarray :=
  match v with
  | VArray a => Ok a
  | _ => Raise StackNotArray
  end.

(** [xnp.stack(values, axis=0)]: the arrays must have one shape; the
    result has one more leading dimension, and the dtype the arrays share
    (or the one numpy promotes them to). *)
Definition xnp_stack (xnp : NpModule) (values : list DcOrArray)
  : result DcOrArray :=
  arrs <- mapM as_ndarray values ;;
  match arrs with
  | [] => Raise StackShapeMismatch  (* 'need at least one array to stack' *)
  | a :: rest =>
      if forallb (fun b => Shape_eqb (arr_shape b) (arr_shape a)) rest then
        let dt := fold_left (fun d b => if String.eqb d (arr_dtype b) then d
                                        else result_type d (arr_dtype b))
                    rest (arr_dtype a) in
        Ok (VArray {| arr_xnp := xnp; arr_dtype := dt;
                      arr_shape := length arrs :: arr_shape a;
                      arr_data := concat (map (fun b => arr_data (asarray xnp b dt))
                                            arrs) |})
      else Raise StackShapeMismatch
  end.

(** [stack(arrays, axis=axis)] for [arrays = [first_arr] + rest].  The
    call of [_map_field] on [first_arr] is written out, so that the
    recursion of [nest_fn] is seen to be on the values of the fields of
    [first_arr] ([stack_from_map_field] below gives it back); in
    [[getattr(arr, f.name) for arr in arrays]] the attribute of
    [first_arr] is [f.value]. *)
Fixpoint stack_from (first_arr : DcOrArray) (rest : list DcOrArray) (axis : Z)
  {struct first_arr} : result DcOrArray :=
  let arrays := first_arr :: rest in
  let types := groupby pykey_eqb arrays (fun x => KType (type_name x)) type_name in
  if dict_contains pykey_eqb (KBool false) types
  then Raise (ConflictingTypes (map snd types)) else
  match first_arr with
  | VDc d =>
      let xnp := xnp d in
      if negb (axis =? 0)%Z then Raise PleaseOpenAnIssue else
      new_values <-
        mapM_filter is_active
          (fun f =>
             others <- mapM (getattr (f_name f)) rest ;;
             v <- (if is_dataclass (f_meta f)
                   then stack_from (f_value f) others 0%Z
                   else xnp_stack xnp (f_value f :: others)) ;;
             Ok (f_name f, v))
          (_all_array_fields d) ;;
      merged_arr <- replace d new_values ;;
      Ok (VDc merged_arr)
  | _ => Raise (NoAttribute "xnp")
  end.

(** [stack(arrays, axis=axis)] *)
Definition stack (arrays : list DcOrArray) (axis : Z) : result DcOrArray :=
  match arrays with
  | [] => Raise ListIndexOutOfRange
  | first_arr :: rest => stack_from first_arr rest axis
  end.

End Model.

(** ** Auxiliary definitions for the proofs *)

Section Auxiliary.

Variable scalar : Type.
Variable astype : np_dtype -> np_dtype -> scalar -> scalar.

(** A field as the constructor receives it: no backend bound yet. *)
Definition unbound (f : _ArrayField scalar) : _ArrayField scalar :=
  {| f_meta := f_meta f; f_name := f_name f; f_value := f_value f;
     f_xnp := None |}.

(** The field [f] holding [v] instead of its value. *)
Definition with_value (v : DcOrArray scalar) (f : _ArrayField scalar)
  : _ArrayField scalar :=
  {| f_meta := f_meta f; f_name := f_name f; f_value := v; f_xnp := f_xnp f |}.

(** The field [f] with [None] for the [object()] sentinel. *)
Definition object_as_none (f : _ArrayField scalar) : _ArrayField scalar :=
  match f_value f with
  | VObject _ => with_value (VNone scalar) f
  | _ => f
  end.

(** The instance [d] with [g] applied to each of its fields. *)
Definition map_fields (g : _ArrayField scalar -> _ArrayField scalar)
  (d : DataclassArray scalar) : DataclassArray scalar :=
  {| cls := cls d; _all_array_fields := map g (_all_array_fields d);
     other_values := other_values d; _shape := _shape d; _xnp := _xnp d |}.

(** A class namespace holds each field name once. *)
Definition wf_class (c : dataclass_type) : Prop :=
  NoDup (map fst (array_fields c)).

(** What holds of every record the constructor has returned: its class is
    frozen, its fields are those of its class, each as binding leaves it,
    and [__post_init__] on them gives the record. *)
Definition constructed (d : DataclassArray scalar) : Prop :=
  frozen (cls d) = true /\
  array_fields (cls d) =
    map (fun f => (f_name f, f_meta f)) (_all_array_fields d) /\
  (forall f, In f (_all_array_fields d) ->
             _ArrayField__post_init__ astype (unbound f) = Ok f) /\
  __post_init__ astype (cls d) (map unbound (_all_array_fields d))
    (other_values d) = Ok d /\
  check_unexpected (other_fields (cls d)) (other_values d) = Ok tt /\
  init_others (cls d) (other_values d) = Ok (other_values d).

(** A value as the program can hold it: the data of an array fill its
    shape; a nested record is constructed, of a class that declares each
    field name once, and so on for the values of its fields. *)
Fixpoint wf_value (v : DcOrArray scalar) : Prop :=
  match v with
  | VNone _ | VObject _ => True
  | VArray a => length (arr_data a) = prod_dims (arr_shape a)
  | VDc d =>
      constructed d /\ wf_class (cls d) /\
      fold_right (fun f P => wf_value (f_value f) /\ P) True
        (_all_array_fields d)
  end.

(** The [i]-th piece of [k] elements of [l]. *)
Definition chunk (A : Type) (k i : nat) (l : list A) : list A :=
  firstn k (skipn (i * k) l).

(** The [i]-th item of a value along its first axis: the sub-array, or
    the record of the [i]-th items of the active fields. *)
Fixpoint piece (i : nat) (v : DcOrArray scalar) : DcOrArray scalar :=
  match v with
  | VArray a =>
      VArray {| arr_xnp := arr_xnp a; arr_dtype := arr_dtype a;
                arr_shape := tl (arr_shape a);
                arr_data := chunk (prod_dims (tl (arr_shape a))) i
                              (arr_data a) |}
  | VDc d =>
      VDc {| cls := cls d;
             _all_array_fields :=
               map (fun f => if is_active f
                             then with_value (piece i (f_value f)) f
                             else f) (_all_array_fields d);
             other_values := other_values d;
             _shape := option_map (@tl nat) (_shape d);
             _xnp := _xnp d |}
  | _ => v
  end.

Definition piece_field (i : nat) (f : _ArrayField scalar) : _ArrayField scalar :=
  if is_active f then with_value (piece i (f_value f)) f else f.

Definition piece_dc (i : nat) (d : DataclassArray scalar) : DataclassArray scalar :=
  {| cls := cls d;
     _all_array_fields := map (piece_field i) (_all_array_fields d);
     other_values := other_values d;
     _shape := option_map (@tl nat) (_shape d);
     _xnp := _xnp d |}.

End Auxiliary.

(** ** Exceptions a computation may raise *)

(** [r] raises nothing but exceptions that satisfy [P]. *)
Definition raises_only (A : Type) (P : exn -> Prop) (r : result A) : Prop :=
  forall e, r = Raise e -> P e.

(** Every exception but the [TypeError] that [stack] prepares for inputs
    of several types. *)
Definition not_conflicting_types (e : exn) : Prop :=
  match e with
  | ConflictingTypes _ => False
  | _ => True
  end.

(** * Further operations

    [reshape], [flatten], [map_field] and the conversions [as_xnp],
    [as_np], [as_jax], [as_tf] of [DataclassArray], and [append_row] of
    [src/jax3d/visu3d/np_utils.py]. *)

(** ** Their exceptions *)

(** A dimension of the shape given to [reshape]: a size, or the [-1]
    that the backend infers. *)
Inductive dim :=
| Dim (n : nat)
| Infer.

(** The exceptions of these operations: those of [exn], and one
    constructor for each further [raise] site and failing primitive. *)
Inductive exn_more :=
| Earlier (e : exn)
| ReshapePattern
    (* [reshape] of a [str]: a bare [raise NotImplementedError] *)
| OneUnknownDimension
    (* numpy: 'can only specify one unknown dimension' *)
| CannotReshape (size : nat) (newshape : list dim)
    (* numpy: 'cannot reshape array of size {size} into shape {newshape}' *)
| ListAssignmentOutOfRange
    (* 'list assignment index out of range' *)
| TupleIndexOutOfRange
    (* 'tuple index out of range' *)
| AssertionFailed
    (* the [assert] of [append_row] *)
| AppendRowOfRow
    (* [append_row] of a rank-1 value: [raise NotImplementedError()] *)
| AppendRowRank (value_shape : Shape)
    (* '`append_row` does not support appending rank > 1. Got {shape}.' *)
| NotAnArrayType
    (* jax: 'Value ... is not a valid JAX array type' *)
| CannotBroadcast (shape newshape : Shape).
    (* numpy: 'operands could not be broadcast together with remapped
       shapes' *)

(** The class of those that the module itself raises, or that Python
    raises for it; the class of a failure of the backend is the
    backend's. *)
Definition class_of_more (e : exn_more) : option exn_class :=
  match e with
  | Earlier e => Some (class_of e)
  | ReshapePattern | AppendRowOfRow => Some NotImplementedError
  | ListAssignmentOutOfRange | TupleIndexOutOfRange => Some IndexError
  | AppendRowRank _ => Some ValueError
  | OneUnknownDimension | CannotReshape _ _ | AssertionFailed
  | NotAnArrayType | CannotBroadcast _ _ => None
  end.

Inductive outcome (A : Type) : Type :=
| Returns (a : A)
| Raises (e : exn_more).
Arguments Returns {A} a.
Arguments Raises {A} e.

(** A computation of the operations above, among these. *)
Definition earlier {A} (r : result A) : outcome A :=
  match r with
  | Ok a => Returns a
  | Raise e => Raises (Earlier e)
  end.

Definition and_then {A B} (r : outcome A) (k : A -> outcome B) : outcome B :=
  match r with
  | Returns a => k a
  | Raises e => Raises e
  end.

Notation "x <~ c1 ;; c2" := (and_then c1 (fun x => c2))
  (at level 61, c1 at next level, right associativity) : py_scope.

(** [[f(x) for x in l]] and [[f(x) for x in l if p(x)]], for these
    computations *)
Fixpoint gather (A B : Type) (f : A -> outcome B) (l : list A)
  : outcome (list B) :=
  match l with
  | [] => Returns []
  | x :: l' => y <~ f x ;; ys <~ gather f l' ;; Returns (y :: ys)
  end.

Fixpoint collect (A B : Type) (p : A -> bool) (f : A -> outcome B)
  (l : list A) : outcome (list B) :=
  match l with
  | [] => Returns []
  | x :: l' =>
      if p x then y <~ f x ;; ys <~ collect p f l' ;; Returns (y :: ys)
      else collect p f l'
  end.

(** ** Reshaping an array *)

Definition is_infer (k : dim) : bool :=
  match k with Infer => true | Dim _ => false end.

(** The product of the dimensions that are given. *)
Definition known_size (newshape : list dim) : nat :=
  fold_right (fun k p => match k with Dim n => n * p | Infer => p end) 1
    newshape.

(** The shape numpy reshapes an array of [size] elements to: without
    [-1], the shape given when it has [size] elements; with one [-1], the
    shape given with the quotient in its place, when the product of the
    other dimensions is not 0 and divides [size]. *)
Definition resolve_shape (size : nat) (newshape : list dim)
  : outcome Shape :=
  let known := known_size newshape in
  match length (filter is_infer newshape) with
  | 0 =>
      if size =? known
      then Returns (map (fun k => match k with Dim n => n | Infer => 0 end)
                      newshape)
      else Raises (CannotReshape size newshape)
  | 1 =>
      if (known =? 0) || negb (size mod known =? 0)
      then Raises (CannotReshape size newshape)
      else Returns (map (fun k => match k with
                                  | Dim n => n
                                  | Infer => size / known
                                  end) newshape)
  | _ => Raises OneUnknownDimension
  end.

(** ** Python indices *)

(** The position that the index [i] has in a sequence of [n] items, if
    any: a negative index counts from the end. *)
Definition py_index (n : nat) (i : Z) : option nat :=
  if (0 <=? i)%Z
  then (if (i <? Z.of_nat n)%Z then Some (Z.to_nat i) else None)
  else (if (- Z.of_nat n <=? i)%Z then Some (Z.to_nat (Z.of_nat n + i))
        else None).

Section Further.

Variable scalar : Type.
Variable astype : np_dtype -> np_dtype -> scalar -> scalar.
Variable result_type : np_dtype -> np_dtype -> np_dtype.

(** [xnp.asarray(value)], without dtype, is the backend's: what it makes
    of an array of another backend, and of any other object. *)
Variable xnp_asarray : NpModule -> DcOrArray scalar -> outcome (DcOrArray scalar).

(** [a.reshape(newshape)]: the same elements, in the same row-major
    order, under the new shape. *)
Definition ndarray_reshape (a : ndarray scalar) (newshape : list dim)
  : outcome (ndarray scalar) :=
  s <~ resolve_shape (prod_dims (arr_shape a)) newshape ;;
  Returns {| arr_xnp := arr_xnp a; arr_dtype := arr_dtype a; arr_shape := s;
             arr_data := arr_data a |}.

(** ** [_map_field], for functions that raise these exceptions *)

(** [DataclassArray._map_field], as above. *)
Definition _map_field_more (d : DataclassArray scalar)
  (fn : _ArrayField scalar -> outcome (DcOrArray scalar))
  (nest_fn : option (_ArrayField scalar -> outcome (DcOrArray scalar)))
  : outcome (DataclassArray scalar) :=
  let _apply_field_dn (f : _ArrayField scalar) :=
    if is_dataclass (f_meta f) then
      match nest_fn with
      | None => Raises (Earlier NestedNotSupported)
      | Some nest => nest f
      end
    else fn f in
  new_values <~ gather (fun f => v <~ _apply_field_dn f ;;
                                 Returns (f_name f, v))
                  (_array_fields d) ;;
  earlier (replace astype d new_values).

(** ** [reshape] and [flatten] *)

(** The [shape] given to [reshape]: a pattern, or a tuple. *)
Inductive shape_arg :=
| ShapePattern (pattern : string)
| ShapeDims (dims : list dim).

(** [shape + f.inner_shape] *)
Definition with_inner (dims : list dim) (m : _ArrayFieldMetadata) : list dim :=
  dims ++ map Dim (inner_shape m).

(** [value.reshape(newshape)] for the value of a field: the method of the
    array, or [DataclassArray.reshape] with a tuple for a nested
    instance, whose call of [_map_field] is written out
    ([reshape_value_VDc] below gives it back). *)
Fixpoint reshape_value (newshape : list dim) (v : DcOrArray scalar)
  : outcome (DcOrArray scalar) :=
  match v with
  | VArray a => a' <~ ndarray_reshape a newshape ;; Returns (VArray a')
  | VDc d =>
      new_values <~
        collect (@is_active scalar)
          (fun f =>
             v' <~ reshape_value (with_inner newshape (f_meta f)) (f_value f) ;;
             Returns (f_name f, v'))
          (_all_array_fields d) ;;
      r <~ earlier (replace astype d new_values) ;;
      Returns (VDc r)
  | VNone _ | VObject _ => Raises (Earlier (NoAttribute "reshape"))
  end.

(** [DataclassArray.reshape] *)
Definition reshape (d : DataclassArray scalar) (shape : shape_arg)
  : outcome (DataclassArray scalar) :=
  match shape with
  | ShapePattern _ => Raises ReshapePattern
  | ShapeDims dims =>
      let _reshape (f : _ArrayField scalar) :=
        reshape_value (with_inner dims (f_meta f)) (f_value f) in
      _map_field_more d _reshape (Some _reshape)
  end.

(** [DataclassArray.flatten] *)
Definition flatten (d : DataclassArray scalar)
  : outcome (DataclassArray scalar) :=
  reshape d (ShapeDims [Infer]).

(** ** [broadcast_to] *)

(** numpy's broadcasting of an array of shape [s] to the shape [u]: [u]
    has as many dimensions or more, and each dimension of [s], from the
    last one on, is the one of [u] or 1.  [padded s u] is [s] with the
    dimensions 1 that numpy puts before it. *)
Definition padded (s u : Shape) : Shape :=
  repeat 1 (length u - length s) ++ s.

Definition compatible (s u : Shape) : bool :=
  forallb (fun p => (fst p =? snd p) || (fst p =? 1)) (combine s u).

Definition broadcastable (s u : Shape) : bool :=
  (length s <=? length u) && compatible (padded s u) u.

(** The elements, in row-major order, of the array of shape [u] that an
    array of shape [s] (of as many dimensions) with the elements [data]
    broadcasts to: along a dimension they share, the sub-arrays one after
    the other; along a dimension 1 of [s], the one sub-array as many
    times as [u] says. *)
Fixpoint broadcast_data (s u : Shape) (data : list scalar) : list scalar :=
  match s, u with
  | ds :: s', du :: u' =>
      let k := prod_dims s' in
      if ds =? du
      then concat (map (fun i => broadcast_data s' u' (chunk k i data))
                     (seq 0 du))
      else concat (repeat (broadcast_data s' u' (firstn k data)) du)
  | _, _ => data
  end.

(** [xnp.broadcast_to(value, newshape)]: an array of [xnp].  (It is
    given the value of an active field declared with a dtype, an array;
    an object that is no array is refused as by jax.) *)
Definition xnp_broadcast_to (xnp : NpModule) (value : DcOrArray scalar)
  (newshape : Shape) : outcome (DcOrArray scalar) :=
  match value with
  | VArray a =>
      if broadcastable (arr_shape a) newshape
      then Returns
             (VArray {| arr_xnp := xnp; arr_dtype := arr_dtype a;
                        arr_shape := newshape;
                        arr_data :=
                          broadcast_data (padded (arr_shape a) newshape)
                            newshape (arr_data a) |})
      else Raises (CannotBroadcast (arr_shape a) newshape)
  | _ => Raises NotAnArrayType
  end.

(** [value.broadcast_to(shape)] for the value of a field declared with a
    class, the call of [_map_field] written out as for [reshape_value];
    an array has no such method. *)
Fixpoint broadcast_to_value (shape : Shape) (v : DcOrArray scalar)
  : outcome (DcOrArray scalar) :=
  match v with
  | VDc d =>
      new_values <~
        collect (@is_active scalar)
          (fun f =>
             v' <~ (if is_dataclass (f_meta f)
                    then broadcast_to_value (shape ++ inner_shape (f_meta f))
                           (f_value f)
                    else xnp_broadcast_to (xnp d) (f_value f)
                           (shape ++ inner_shape (f_meta f))) ;;
             Returns (f_name f, v'))
          (_all_array_fields d) ;;
      r <~ earlier (replace astype d new_values) ;;
      Returns (VDc r)
  | _ => Raises (Earlier (NoAttribute "broadcast_to"))
  end.

(** [DataclassArray.broadcast_to] *)
Definition broadcast_to (d : DataclassArray scalar) (shape : Shape)
  : outcome (DataclassArray scalar) :=
  _map_field_more d
    (fun f => xnp_broadcast_to (xnp d) (f_value f)
                (shape ++ inner_shape (f_meta f)))
    (Some (fun f => broadcast_to_value (shape ++ inner_shape (f_meta f))
                      (f_value f))).

(** ** [map_field] and the conversions *)

(** [value.map_field(fn)] for the value of a field declared with a
    class, the call of [_map_field] written out as for [reshape_value]. *)
Fixpoint map_field_value (fn : DcOrArray scalar -> outcome (DcOrArray scalar))
  (v : DcOrArray scalar) : outcome (DcOrArray scalar) :=
  match v with
  | VDc d =>
      new_values <~
        collect (@is_active scalar)
          (fun f =>
             v' <~ (if is_dataclass (f_meta f)
                    then map_field_value fn (f_value f)
                    else fn (f_value f)) ;;
             Returns (f_name f, v'))
          (_all_array_fields d) ;;
      r <~ earlier (replace astype d new_values) ;;
      Returns (VDc r)
  | _ => Raises (Earlier (NoAttribute "map_field"))
  end.

(** [DataclassArray.map_field] *)
Definition map_field (d : DataclassArray scalar)
  (fn : DcOrArray scalar -> outcome (DcOrArray scalar))
  : outcome (DataclassArray scalar) :=
  _map_field_more d (fun f => fn (f_value f))
    (Some (fun f => map_field_value fn (f_value f))).

(** [DataclassArray.as_xnp], [as_np], [as_jax] and [as_tf] *)
Definition as_xnp (d : DataclassArray scalar) (xnp : NpModule)
  : outcome (DataclassArray scalar) :=
  map_field d (xnp_asarray xnp).

Definition as_np (d : DataclassArray scalar) := as_xnp d np.
Definition as_jax (d : DataclassArray scalar) := as_xnp d jnp.
Definition as_tf (d : DataclassArray scalar) := as_xnp d tnp.

(** ** [np_utils.append_row] *)

(** [shape[axis] = 1]: the list with [v] at the position [i]. *)
Fixpoint set_item (A : Type) (i : nat) (v : A) (l : list A) : list A :=
  match l, i with
  | [], _ => []
  | _ :: l', 0 => v :: l'
  | x :: l', S i' => x :: set_item i' v l'
  end.

(** [xnp.broadcast_to(value, shape)] for a [value] without dimension:
    the array of that shape whose elements are all the one of [value]. *)
Definition broadcast_scalar (value : ndarray scalar) (shape : Shape)
  : ndarray scalar :=
  {| arr_xnp := arr_xnp value; arr_dtype := arr_dtype value;
     arr_shape := shape;
     arr_data := concat (repeat (arr_data value) (prod_dims shape)) |}.

(** [xnp.append(x, value, axis=a)], that is
    [concatenate((x, value), axis=a)], for arrays that agree on every
    dimension but [a], as they do in [append_row]: for each index of the
    dimensions before [a], the elements of [x] and then those of [value],
    in the dtype of both (or the one numpy promotes them to). *)
Definition xnp_append (x value : ndarray scalar) (a : nat) : ndarray scalar :=
  let dt := if String.eqb (arr_dtype x) (arr_dtype value) then arr_dtype x
            else result_type (arr_dtype x) (arr_dtype value) in
  let block_x := prod_dims (skipn a (arr_shape x)) in
  let block_v := prod_dims (skipn a (arr_shape value)) in
  {| arr_xnp := arr_xnp x;
     arr_dtype := dt;
     arr_shape := set_item a (nth a (arr_shape x) 0 + nth a (arr_shape value) 0)
                    (arr_shape x);
     arr_data :=
       concat (map (fun o =>
                      chunk block_x o (arr_data (asarray astype (arr_xnp x) x dt))
                      ++ chunk block_v o
                           (arr_data (asarray astype (arr_xnp x) value dt)))
                 (seq 0 (prod_dims (firstn a (arr_shape x))))) |}.

(** [np_utils.append_row(x, value, axis=axis)].  [enp.get_np_module(x)]
    is the backend of [x]; an object that is no array has no [ndim]. *)
Definition append_row (x : ndarray scalar) (value : DcOrArray scalar)
  (axis : Z) : outcome (ndarray scalar) :=
  let xnp := arr_xnp x in
  value <~ xnp_asarray xnp value ;;
  match value with
  | VArray value =>
      match arr_shape value with
      | [] =>
          match py_index (length (arr_shape x)) axis with
          | None => Raises ListAssignmentOutOfRange
          | Some a =>
              let shape := set_item a 1 (arr_shape x) in
              let value := broadcast_scalar value shape in
              Returns (xnp_append x value a)
          end
      | [n] =>
          match py_index (length (arr_shape x)) axis with
          | None => Raises TupleIndexOutOfRange
          | Some a =>
              if nth a (arr_shape x) 0 =? n then Raises AppendRowOfRow
              else Raises AssertionFailed
          end
      | _ :: _ :: _ => Raises (AppendRowRank (arr_shape value))
      end
  | _ => Raises (Earlier (NoAttribute "ndim"))
  end.

End Further.

(** ** Auxiliary definitions for the proofs about them *)

Section FurtherAuxiliary.

Variable scalar : Type.
Variable astype : np_dtype -> np_dtype -> scalar -> scalar.

(** [xnp.asarray(a)] on an array, in the proofs. *)
Variable to_backend : NpModule -> ndarray scalar -> ndarray scalar.

(** The array [a] under the shape [t]. *)
Definition with_shape (t : Shape) (a : ndarray scalar) : ndarray scalar :=
  {| arr_xnp := arr_xnp a; arr_dtype := arr_dtype a; arr_shape := t;
     arr_data := arr_data a |}.

(** The value [v] under the shape [t]: the array under that shape, or
    the record whose active fields are under [t] followed by their inner
    shapes. *)
Fixpoint reshaped (t : Shape) (v : DcOrArray scalar) : DcOrArray scalar :=
  match v with
  | VArray a => VArray (with_shape t a)
  | VDc d =>
      VDc {| cls := cls d;
             _all_array_fields :=
               map (fun f => if is_active f
                             then with_value
                                    (reshaped (t ++ inner_shape (f_meta f))
                                       (f_value f)) f
                             else f) (_all_array_fields d);
             other_values := other_values d;
             _shape := Some t;
             _xnp := _xnp d |}
  | _ => v
  end.

Definition reshaped_field (t : Shape) (f : _ArrayField scalar)
  : _ArrayField scalar :=
  if is_active f
  then with_value (reshaped (t ++ inner_shape (f_meta f)) (f_value f)) f
  else f.

Definition reshaped_dc (t : Shape) (d : DataclassArray scalar)
  : DataclassArray scalar :=
  {| cls := cls d;
     _all_array_fields := map (reshaped_field t) (_all_array_fields d);
     other_values := other_values d;
     _shape := Some t;
     _xnp := _xnp d |}.

(** [ok] holds of the dimensions that follow the batch shape in every
    array that [v] holds, at any depth, where [inner] are those that
    follow it in [v] itself. *)
Fixpoint trailing_dims (ok : Shape -> Prop) (inner : Shape)
  (v : DcOrArray scalar) : Prop :=
  match v with
  | VArray _ => ok inner
  | VDc d =>
      fold_right
        (fun f P =>
           (is_active f = true ->
            trailing_dims ok (inner ++ inner_shape (f_meta f)) (f_value f)) /\ P)
        True (_all_array_fields d)
  | _ => True
  end.

(** No array of the record, at any depth, has a dimension 0 after the
    batch shape. *)
Definition inner_sizes_nonzero (d : DataclassArray scalar) : Prop :=
  trailing_dims (fun inner => prod_dims inner <> 0) [] (VDc d).

(** The value [v] broadcast to [t]: the array broadcast to that shape, or
    the record whose active fields are broadcast to [t] followed by their
    inner shapes. *)
Fixpoint broadcasted (t : Shape) (v : DcOrArray scalar) : DcOrArray scalar :=
  match v with
  | VArray a =>
      VArray {| arr_xnp := arr_xnp a; arr_dtype := arr_dtype a;
                arr_shape := t;
                arr_data := broadcast_data (padded (arr_shape a) t) t
                              (arr_data a) |}
  | VDc d =>
      VDc {| cls := cls d;
             _all_array_fields :=
               map (fun f => if is_active f
                             then with_value
                                    (broadcasted (t ++ inner_shape (f_meta f))
                                       (f_value f)) f
                             else f) (_all_array_fields d);
             other_values := other_values d;
             _shape := Some t;
             _xnp := _xnp d |}
  | _ => v
  end.

Definition broadcasted_field (t : Shape) (f : _ArrayField scalar)
  : _ArrayField scalar :=
  if is_active f
  then with_value (broadcasted (t ++ inner_shape (f_meta f)) (f_value f)) f
  else f.

Definition broadcasted_dc (t : Shape) (d : DataclassArray scalar)
  : DataclassArray scalar :=
  {| cls := cls d;
     _all_array_fields := map (broadcasted_field t) (_all_array_fields d);
     other_values := other_values d;
     _shape := Some t;
     _xnp := _xnp d |}.

(** The value [v] in the backend [x]: the array converted by the backend
    and then to its own dtype, or the record of the active fields in
    [x]. *)
Fixpoint converted (x : NpModule) (v : DcOrArray scalar) : DcOrArray scalar :=
  match v with
  | VArray a => VArray (asarray astype x (to_backend x a) (arr_dtype a))
  | VDc d =>
      VDc {| cls := cls d;
             _all_array_fields :=
               map (fun f => if is_active f
                             then set_value_xnp f (converted x (f_value f)) x
                             else f) (_all_array_fields d);
             other_values := other_values d;
             _shape := _shape d;
             _xnp := x |}
  | _ => v
  end.

Definition converted_field (x : NpModule) (f : _ArrayField scalar)
  : _ArrayField scalar :=
  if is_active f then set_value_xnp f (converted x (f_value f)) x else f.

Definition converted_dc (x : NpModule) (d : DataclassArray scalar)
  : DataclassArray scalar :=
  {| cls := cls d;
     _all_array_fields := map (converted_field x) (_all_array_fields d);
     other_values := other_values d;
     _shape := _shape d;
     _xnp := x |}.

End FurtherAuxiliary.

(** ** Auxiliary definition for the proofs about [stack] *)

Section StackAuxiliary.

Variable scalar : Type.

(** [w] can be stacked on [v]: on an array, an array of the same shape;
    on a record, an object that has, under the name of each active field
    of the record, a value that can be stacked on the value of that
    field. *)
Fixpoint stackable_on (v w : DcOrArray scalar) : Prop :=
  match v with
  | VArray a =>
      match w with
      | VArray b => arr_shape b = arr_shape a
      | _ => False
      end
  | VDc d =>
      fold_right
        (fun f P =>
           (is_active f = true ->
            exists w', getattr (f_name f) w = Ok w' /\
                       stackable_on (f_value f) w') /\ P)
        True (_all_array_fields d)
  | _ => True
  end.

End StackAuxiliary.

(** ** Instances for the examples *)

(** A backend for the examples: integers as elements, kept by every
    conversion. *)
Definition ex_astype (from to : np_dtype) (z : Z) : Z := z.
Definition ex_result_type (a b : np_dtype) : np_dtype := a.

Definition float32_array (x : NpModule) (s : Shape) (data : list Z)
  : DcOrArray Z :=
  VArray {| arr_xnp := x; arr_dtype := "float32"; arr_shape := s;
            arr_data := data |}.

Definition pos_meta : _ArrayFieldMetadata :=
  {| inner_shape := [2]; dtype := DtArray "float32" |}.
Definition scale_meta : _ArrayFieldMetadata :=
  {| inner_shape := []; dtype := DtArray "float32" |}.

(** The [Square] of the docstring of [DataclassArray]. *)
Definition Square : dataclass_type :=
  {| qualname := "Square"; mro := ["Square"; "DataclassArray"; "object"];
     frozen := true;
     array_fields := [("pos", pos_meta); ("scale", scale_meta)];
     other_fields := []; uninit_fields := [] |}.

Definition square_of (pos scale : DcOrArray Z) (xpos xscale : option NpModule)
  (s : option Shape) (x : NpModule) : DataclassArray Z :=
  {| cls := Square;
     _all_array_fields :=
       [ {| f_meta := pos_meta; f_name := "pos"; f_value := pos;
            f_xnp := xpos |};
         {| f_meta := scale_meta; f_name := "scale"; f_value := scale;
            f_xnp := xscale |} ];
     other_values := []; _shape := s; _xnp := x |}.

(** [Square(pos=[[1, 2], [3, 4], [5, 6]], scale=[7, 8, 9])] *)
Definition square3_kwargs : list (string * DcOrArray Z) :=
  [("pos", float32_array np [3; 2] [1; 2; 3; 4; 5; 6]%Z);
   ("scale", float32_array np [3] [7; 8; 9]%Z)].

Definition square3 : DataclassArray Z :=
  square_of (float32_array np [3; 2] [1; 2; 3; 4; 5; 6]%Z)
    (float32_array np [3] [7; 8; 9]%Z) (Some np) (Some np) (Some [3]) np.

(** [Square(pos=None, scale=None)] *)
Definition square_none : DataclassArray Z :=
  square_of (VNone Z) (VNone Z) None None None np.

(** [Square(pos=np.zeros((0, 2)), scale=np.zeros((0,)))] *)
Definition square_empty : DataclassArray Z :=
  square_of (float32_array np [0; 2] []) (float32_array np [0] [])
    (Some np) (Some np) (Some [0]) np.

(** A class with a field that is no parameter of [__init__]:
    [version: int = dataclasses.field(default=1, init=False)]. *)
Definition Versioned : dataclass_type :=
  {| qualname := "Versioned";
     mro := ["Versioned"; "DataclassArray"; "object"];
     frozen := true;
     array_fields := [("pos", pos_meta)];
     other_fields := []; uninit_fields := [("version", "1")] |}.

Definition versioned3_kwargs : list (string * DcOrArray Z) :=
  [("pos", float32_array np [3; 2] [1; 2; 3; 4; 5; 6]%Z)].

Definition versioned3 : DataclassArray Z :=
  {| cls := Versioned;
     _all_array_fields :=
       [ {| f_meta := pos_meta; f_name := "pos";
            f_value := float32_array np [3; 2] [1; 2; 3; 4; 5; 6]%Z;
            f_xnp := Some np |} ];
     other_values := []; _shape := Some [3]; _xnp := np |}.

(** [pos] of shape [(3, 2)] in numpy, [scale] of shape [(4,)] in jax. *)
Definition square_mixed_kwargs : list (string * DcOrArray Z) :=
  [("pos", float32_array np [3; 2] [1; 2; 3; 4; 5; 6]%Z);
   ("scale", float32_array jnp [4] [7; 8; 9; 10]%Z)].

(** The same two values as the fields the generated [__init__] stores. *)
Definition square_mixed_fields : list (_ArrayField Z) :=
  [ {| f_meta := pos_meta; f_name := "pos";
       f_value := float32_array np [3; 2] [1; 2; 3; 4; 5; 6]%Z;
       f_xnp := None |};
    {| f_meta := scale_meta; f_name := "scale";
       f_value := float32_array jnp [4] [7; 8; 9; 10]%Z; f_xnp := None |} ].

(** [pos] of shape [(3, 2)], [scale] of shape [(4,)], both in numpy. *)
Definition square_shapes_fields : list (_ArrayField Z) :=
  [ {| f_meta := pos_meta; f_name := "pos";
       f_value := float32_array np [3; 2] [1; 2; 3; 4; 5; 6]%Z;
       f_xnp := None |};
    {| f_meta := scale_meta; f_name := "scale";
       f_value := float32_array np [4] [7; 8; 9; 10]%Z; f_xnp := None |} ].

(** A record nested in another: a camera for each ray of a batch of two
    rays (in jax), its optional field left out. *)
Definition px_meta : _ArrayFieldMetadata :=
  {| inner_shape := [2]; dtype := DtArray "float32" |}.
Definition opt_meta : _ArrayFieldMetadata :=
  {| inner_shape := []; dtype := DtArray "int32" |}.
Definition dir_meta : _ArrayFieldMetadata :=
  {| inner_shape := [3]; dtype := DtArray "float32" |}.
Definition cam_meta : _ArrayFieldMetadata :=
  {| inner_shape := []; dtype := DtDataclass "Cam" |}.

Definition Cam : dataclass_type :=
  {| qualname := "Cam"; mro := ["Cam"; "DataclassArray"; "object"];
     frozen := true;
     array_fields := [("px", px_meta); ("opt", opt_meta)];
     other_fields := ["tag"]; uninit_fields := [] |}.

Definition Ray : dataclass_type :=
  {| qualname := "Ray"; mro := ["Ray"; "DataclassArray"; "object"];
     frozen := true;
     array_fields := [("dir", dir_meta); ("cam", cam_meta)];
     other_fields := []; uninit_fields := [] |}.

Definition cam2_kwargs : list (string * DcOrArray Z) :=
  [("px", float32_array jnp [2; 2] [1; 2; 3; 4]%Z); ("opt", VNone Z)].

Definition cam2 : DataclassArray Z :=
  {| cls := Cam;
     _all_array_fields :=
       [ {| f_meta := px_meta; f_name := "px";
            f_value := float32_array jnp [2; 2] [1; 2; 3; 4]%Z;
            f_xnp := Some jnp |};
         {| f_meta := opt_meta; f_name := "opt"; f_value := VNone Z;
            f_xnp := None |} ];
     other_values := [("tag", "'a'")]; _shape := Some [2]; _xnp := jnp |}.

Definition ray2_kwargs : list (string * DcOrArray Z) :=
  [("dir", float32_array jnp [2; 3] [1; 2; 3; 4; 5; 6]%Z); ("cam", VDc cam2)].

Definition ray2 : DataclassArray Z :=
  {| cls := Ray;
     _all_array_fields :=
       [ {| f_meta := dir_meta; f_name := "dir";
            f_value := float32_array jnp [2; 3] [1; 2; 3; 4; 5; 6]%Z;
            f_xnp := Some jnp |};
         {| f_meta := cam_meta; f_name := "cam"; f_value := VDc cam2;
            f_xnp := Some jnp |} ];
     other_values := []; _shape := Some [2]; _xnp := jnp |}.

(** Two classes with a field [x] each. *)
Definition class_A : dataclass_type :=
  {| qualname := "A"; mro := ["A"; "DataclassArray"; "object"];
     frozen := true; array_fields := [("x", scale_meta)];
     other_fields := []; uninit_fields := [] |}.
Definition class_B : dataclass_type :=
  {| qualname := "B"; mro := ["B"; "DataclassArray"; "object"];
     frozen := true; array_fields := [("x", scale_meta)];
     other_fields := []; uninit_fields := [] |}.

Definition instance_x (c : dataclass_type) (s : Shape) (data : list Z)
  : DataclassArray Z :=
  {| cls := c;
     _all_array_fields :=
       [ {| f_meta := scale_meta; f_name := "x";
            f_value := float32_array np s data; f_xnp := Some np |} ];
     other_values := []; _shape := Some s; _xnp := np |}.

(** [Square(pos=[1, 2], scale=None)] and [Square(pos=[3, 4], scale=5)] *)
Definition square_unscaled_kwargs : list (string * DcOrArray Z) :=
  [("pos", float32_array np [2] [1; 2]%Z); ("scale", VNone Z)].

Definition square_unscaled : DataclassArray Z :=
  square_of (float32_array np [2] [1; 2]%Z) (VNone Z) (Some np) None
    (Some []) np.

Definition square_scaled : DataclassArray Z :=
  square_of (float32_array np [2] [3; 4]%Z) (float32_array np [] [5%Z])
    (Some np) (Some np) (Some []) np.

(** A backend for the examples: [asarray] moves an array to the module
    asked for, and refuses any other object as jax does. *)
Definition ex_to_backend (x : NpModule) (a : ndarray Z) : ndarray Z :=
  {| arr_xnp := x; arr_dtype := arr_dtype a; arr_shape := arr_shape a;
     arr_data := arr_data a |}.

Definition ex_xnp_asarray (x : NpModule) (v : DcOrArray Z)
  : outcome (DcOrArray Z) :=
  match v with
  | VArray a => Returns (VArray (ex_to_backend x a))
  | _ => Raises NotAnArrayType
  end.

(** A [Square] of batch shape [(2, 2)]. *)
Definition square_grid_kwargs : list (string * DcOrArray Z) :=
  [("pos", float32_array np [2; 2; 2] [1; 2; 3; 4; 5; 6; 7; 8]%Z);
   ("scale", float32_array np [2; 2] [9; 10; 11; 12]%Z)].

Definition square_grid : DataclassArray Z :=
  square_of (float32_array np [2; 2; 2] [1; 2; 3; 4; 5; 6; 7; 8]%Z)
    (float32_array np [2; 2] [9; 10; 11; 12]%Z) (Some np) (Some np)
    (Some [2; 2]) np.

(** * Properties *)

Unset Implicit Arguments.

Section IndexNormalisation.

Lemma count_ellipsis_app (a b : _Indices) :
  _count_ellipsis (a ++ b) = _count_ellipsis a + _count_ellipsis b.
Proof.
  unfold _count_ellipsis. now rewrite filter_app, length_app.
Qed.

Lemma eq_Ellipsis_small (k : _IndiceItem) :
  is_big_array k = false -> eq_Ellipsis k = Ok (is_ellipsis k).
Proof.
  destruct k; simpl; try reflexivity.
  intros ->. reflexivity.
Qed.

(** With no such array before the marker, [indices.index(Ellipsis)] is the
    length of the prefix. *)
Lemma tuple_index_Ellipsis_prefix (before after : _Indices) :
  forallb (fun k => negb (is_big_array k)) before = true ->
  _count_ellipsis before = 0 ->
  tuple_index_Ellipsis (before ++ IEllipsis :: after) = Ok (length before).
Proof.
  induction before as [|k before IH]; simpl; intros Hsmall Hnone.
  - reflexivity.
  - apply andb_prop in Hsmall as [Hk Hsmall].
    apply negb_true_iff in Hk.
    rewrite (eq_Ellipsis_small _ Hk). simpl.
    unfold _count_ellipsis in Hnone. simpl in Hnone.
    destruct (is_ellipsis k) eqn:Ek; [discriminate|].
    rewrite IH; auto.
Qed.

(** The normalisation, for an index with one marker that [tuple.index]
    can reach. *)
Lemma to_absolute_indices_one_marker (before after : _Indices) (s : Shape) :
  forallb (fun k => negb (is_big_array k)) before = true ->
  _count_ellipsis before = 0 ->
  _count_ellipsis after = 0 ->
  _count_not_none (before ++ IEllipsis :: after) <= length s ->
  _to_absolute_indices (before ++ IEllipsis :: after) (Some s) =
    Ok (before
        ++ repeat full_slice
             (length s - _count_not_none (before ++ IEllipsis :: after))
        ++ after).
Proof.
  intros Hsmall Hb Ha Hvalid.
  assert (Hone : _count_ellipsis (before ++ IEllipsis :: after) = 1).
  { rewrite count_ellipsis_app. unfold _count_ellipsis at 2. simpl.
    fold (_count_ellipsis after). lia. }
  unfold _to_absolute_indices. rewrite Hone. simpl.
  apply Nat.ltb_ge in Hvalid. rewrite Hvalid.
  rewrite tuple_index_Ellipsis_prefix by assumption. simpl.
  rewrite firstn_app, firstn_all, Nat.sub_diag. simpl. rewrite app_nil_r.
  rewrite skipn_app.
  replace (length before + 1 - length before) with 1 by lia.
  rewrite skipn_all2 by lia. reflexivity.
Qed.

(** Without marker, a tuple with a valid count comes back unchanged. *)
Lemma to_absolute_indices_no_marker (indices : _Indices) (s : Shape) :
  _count_ellipsis indices = 0 ->
  _count_not_none indices <= length s ->
  _to_absolute_indices indices (Some s) = Ok indices.
Proof.
  intros H0 Hvalid. unfold _to_absolute_indices. rewrite H0. simpl.
  destruct (Nat.ltb_spec (length s) (_count_not_none indices)); [lia|].
  reflexivity.
Qed.

(** C5: an index tuple with exactly one ellipsis and a valid consuming
    count, on which the normalisation does not replace the marker: the
    array of two positions that stands before the marker is compared with
    [Ellipsis] by [indices.index(Ellipsis)], and numpy refuses the truth
    value of the comparison.  The tuple is [(np.array([0, 1]), ...)], the
    batch shape [(2, 3)]. *)
Theorem to_absolute_indices_array_before_marker :
  _count_ellipsis [IArray [2]; IEllipsis] = 1 /\
  _count_not_none [IArray [2]; IEllipsis] <= length [2; 3] /\
  _to_absolute_indices [IArray [2]; IEllipsis] (Some [2; 3])
    = Raise ArrayTruthAmbiguous /\
  _to_absolute_indices [IArray [2]; IEllipsis] (Some [2; 3])
    <> Ok ([IArray [2]] ++ repeat full_slice (2 - 1) ++ []).
Proof.
  split; [reflexivity|].
  split; [unfold _count_not_none; simpl; lia|].
  split; [reflexivity|].
  discriminate.
Qed.

End IndexNormalisation.

(** ** Comprehensions and [groupby] *)

Section Comprehensions.

Variables (A B : Type).

Lemma mapM_Ok_Forall2 (f : A -> result B) (l : list A) (l' : list B) :
  mapM f l = Ok l' <-> Forall2 (fun x y => f x = Ok y) l l'.
Proof.
  revert l'. induction l as [|x l IH]; intros l'; simpl.
  - split.
    + intros H. injection H as <-. constructor.
    + intros H. inversion H. reflexivity.
  - split.
    + destruct (f x) as [y|e] eqn:Hfx; simpl; [|discriminate].
      destruct (mapM f l) as [ys|e] eqn:Hl; simpl; [|discriminate].
      intros H. injection H as <-. constructor; [assumption|].
      now apply IH.
    + intros H. inversion H as [|x0 y l0 ys Hfx Hrest]; subst.
      rewrite Hfx. simpl. apply IH in Hrest. rewrite Hrest. reflexivity.
Qed.

Lemma Forall2_In_l (R : A -> B -> Prop) (l : list A) (l' : list B) (x : A) :
  Forall2 R l l' -> In x l -> exists y, In y l' /\ R x y.
Proof.
  induction 1 as [|a b l l' Hab _ IH]; intros Hin; [destruct Hin|].
  destruct Hin as [->|Hin].
  - exists b. split; [now left|assumption].
  - destruct (IH Hin) as [y [Hy HR]]. exists y. split; [now right|assumption].
Qed.

Lemma mapM_Ok_length (f : A -> result B) (l : list A) (l' : list B) :
  mapM f l = Ok l' -> length l' = length l.
Proof.
  intros H. apply mapM_Ok_Forall2 in H. symmetry.
  eapply Forall2_length; eassumption.
Qed.

Lemma mapM_pure (g : A -> B) (l : list A) :
  mapM (fun x => Ok (g x)) l = Ok (map g l).
Proof.
  induction l as [|x l IH]; simpl; [reflexivity|]. now rewrite IH.
Qed.

Lemma mapM_ext_in (f g : A -> result B) (l : list A) :
  (forall x, In x l -> f x = g x) -> mapM f l = mapM g l.
Proof.
  induction l as [|x l IH]; simpl; intros H; [reflexivity|].
  rewrite (H x) by now left. rewrite IH; [reflexivity|].
  intros y Hy. apply H. now right.
Qed.

Lemma mapM_filter_spec (p : A -> bool) (f : A -> result B) (l : list A) :
  mapM_filter p f l = mapM f (filter p l).
Proof.
  induction l as [|x l IH]; simpl; [reflexivity|].
  destruct (p x); simpl; now rewrite IH.
Qed.

End Comprehensions.

Lemma mapM_map (A B C : Type) (g : A -> B) (f : B -> result C) (l : list A) :
  mapM f (map g l) = mapM (fun x => f (g x)) l.
Proof.
  induction l as [|x l IH]; simpl; [reflexivity|]. now rewrite IH.
Qed.

Section GroupbyFacts.

Variables (A K V : Type).
Variable K_eqb : K -> K -> bool.
Hypothesis K_eqb_eq : forall a b, K_eqb a b = true <-> a = b.
Variable key : A -> K.
Variable value : A -> V.

Let add_all (l : list A) (d : list (K * list V)) : list (K * list V) :=
  fold_left (fun d x => groupby_add K_eqb (key x) (value x) d) l d.

Lemma groupby_add_keys (k : K) (v : V) (d : list (K * list V)) :
  map fst (groupby_add K_eqb k v d) =
    if existsb (fun k' => K_eqb k' k) (map fst d) then map fst d
    else map fst d ++ [k].
Proof.
  induction d as [|[k' vs] d IH]; simpl; [reflexivity|].
  destruct (K_eqb k' k); simpl; [reflexivity|].
  rewrite IH. now destruct (existsb _ _).
Qed.

Lemma existsb_eqb_In (k : K) (ks : list K) :
  existsb (fun k' => K_eqb k' k) ks = true <-> In k ks.
Proof.
  rewrite existsb_exists. split.
  - intros [k' [Hin Heq]]. apply K_eqb_eq in Heq. now subst.
  - intros Hin. exists k. split; [assumption|]. now apply K_eqb_eq.
Qed.

Lemma groupby_add_keys_incl (k k0 : K) (v : V) (d : list (K * list V)) :
  In k0 (map fst (groupby_add K_eqb k v d)) <-> k0 = k \/ In k0 (map fst d).
Proof.
  rewrite groupby_add_keys.
  destruct (existsb _ _) eqn:He.
  - apply existsb_eqb_In in He. split; [now right|].
    intros [->|H]; assumption.
  - rewrite in_app_iff. simpl. split.
    + intros [H|[<-|[]]]; [now right|now left].
    + intros [->|H]; [right; now left|now left].
Qed.

Lemma add_all_keys (l : list A) (d : list (K * list V)) (k : K) :
  In k (map fst (add_all l d)) <->
  In k (map fst d) \/ exists x, In x l /\ key x = k.
Proof.
  revert d. induction l as [|x l IH]; intros d; simpl.
  - split; [now left|]. intros [H|[x [[] _]]]. assumption.
  - rewrite IH, groupby_add_keys_incl. split.
    + intros [[->|H]|[y [Hy Hk]]]; eauto.
    + intros [H|[y [[->|Hy] Hk]]]; eauto.
Qed.

Lemma groupby_add_NoDup (k : K) (v : V) (d : list (K * list V)) :
  NoDup (map fst d) -> NoDup (map fst (groupby_add K_eqb k v d)).
Proof.
  intros Hd. rewrite groupby_add_keys.
  destruct (existsb _ _) eqn:He; [assumption|].
  apply NoDup_app; [assumption|repeat constructor; intros []|].
  intros k0 Hin [<-|[]].
  apply existsb_eqb_In in Hin. congruence.
Qed.

Lemma add_all_NoDup (l : list A) (d : list (K * list V)) :
  NoDup (map fst d) -> NoDup (map fst (add_all l d)).
Proof.
  revert d. induction l as [|x l IH]; intros d Hd; simpl; [assumption|].
  apply IH. now apply groupby_add_NoDup.
Qed.

(** Every key of an item is a key of the dict. *)
Lemma groupby_key_In (l : list A) (x : A) :
  In x l -> In (key x) (map fst (groupby K_eqb l key value)).
Proof.
  intros Hx. apply (add_all_keys l [] (key x)). right. eauto.
Qed.

Lemma groupby_NoDup (l : list A) : NoDup (map fst (groupby K_eqb l key value)).
Proof. apply add_all_NoDup. constructor. Qed.

(** Two items with different keys make a dict of two keys at least. *)
Lemma groupby_two_keys (l : list A) (x y : A) :
  In x l -> In y l -> key x <> key y ->
  2 <= length (groupby K_eqb l key value).
Proof.
  intros Hx Hy Hne.
  apply groupby_key_In in Hx, Hy.
  rewrite <- (length_map fst).
  destruct (map fst (groupby K_eqb l key value)) as [|a [|b ks]]; simpl in *.
  - contradiction.
  - destruct Hx as [Hx|[]], Hy as [Hy|[]]. congruence.
  - lia.
Qed.

(** In a dict of one key at most, all the items have the same key. *)
Lemma groupby_one_key (l : list A) (x y : A) :
  length (groupby K_eqb l key value) <= 1 ->
  In x l -> In y l -> key x = key y.
Proof.
  intros Hlen Hx Hy.
  destruct (K_eqb (key x) (key y)) eqn:E; [now apply K_eqb_eq|].
  assert (key x <> key y) as Hne.
  { intros H. apply K_eqb_eq in H. congruence. }
  pose proof (groupby_two_keys l x y Hx Hy Hne). lia.
Qed.

Lemma add_all_same_key (l : list A) (k : K) (vs : list V) :
  (forall x, In x l -> key x = k) ->
  add_all l [(k, vs)] = [(k, vs ++ map value l)].
Proof.
  revert vs. induction l as [|x l IH]; intros vs Hk; simpl.
  - now rewrite app_nil_r.
  - rewrite (Hk x) by now left.
    assert (K_eqb k k = true) as -> by now apply K_eqb_eq.
    rewrite IH by (intros y Hy; apply Hk; now right).
    now rewrite <- app_assoc.
Qed.

(** The items of one key make a dict of that key alone. *)
Lemma groupby_same_key (l : list A) (k : K) :
  l <> [] -> (forall x, In x l -> key x = k) ->
  groupby K_eqb l key value = [(k, map value l)].
Proof.
  destruct l as [|x l]; [congruence|]. intros _ Hk.
  unfold groupby. simpl. rewrite (Hk x) by now left.
  apply (add_all_same_key l k [value x]).
  intros y Hy. apply Hk. now right.
Qed.

Lemma groupby_nil_inv (l : list A) : groupby K_eqb l key value = [] -> l = [].
Proof.
  intros H. destruct l as [|x l]; [reflexivity|].
  pose proof (groupby_key_In (x :: l) x (or_introl eq_refl)) as Hin.
  rewrite H in Hin. destruct Hin.
Qed.

Lemma groupby_add_value (k : K) (v : V) (d : list (K * list V)) :
  exists vs, In (k, vs) (groupby_add K_eqb k v d) /\ In v vs.
Proof.
  induction d as [|[k' vs] d IH]; simpl.
  - exists [v]. split; now left.
  - destruct (K_eqb k' k) eqn:E.
    + apply K_eqb_eq in E. subst. exists (vs ++ [v]). split; [now left|].
      apply in_app_iff. right. now left.
    + destruct IH as [vs' [Hin Hv]]. exists vs'. split; [now right|assumption].
Qed.

Lemma groupby_add_keeps (k k0 : K) (v v0 : V) (d : list (K * list V)) :
  (exists vs, In (k0, vs) d /\ In v0 vs) ->
  exists vs, In (k0, vs) (groupby_add K_eqb k v d) /\ In v0 vs.
Proof.
  intros [vs0 [Hin Hv]].
  induction d as [|[k' vs] d IH]; simpl; [destruct Hin|].
  destruct Hin as [Heq|Hin].
  - injection Heq as -> ->.
    destruct (K_eqb k0 k).
    + exists (vs0 ++ [v]). split; [now left|]. apply in_app_iff. now left.
    + exists vs0. split; [now left|assumption].
  - destruct (K_eqb k' k).
    + exists vs0. split; [now right|assumption].
    + destruct (IH Hin) as [vs' [Hin' Hv']]. exists vs'.
      split; [now right|assumption].
Qed.

Lemma add_all_keeps (l : list A) (d : list (K * list V)) (k0 : K) (v0 : V) :
  (exists vs, In (k0, vs) d /\ In v0 vs) ->
  exists vs, In (k0, vs) (add_all l d) /\ In v0 vs.
Proof.
  revert d. induction l as [|x l IH]; intros d H; simpl; [assumption|].
  apply IH. now apply groupby_add_keeps.
Qed.

(** The dict lists the value of every item under the key of the item. *)
Lemma groupby_lists (l : list A) (x : A) :
  In x l ->
  exists vs, In (key x, vs) (groupby K_eqb l key value) /\ In (value x) vs.
Proof.
  unfold groupby. generalize (@nil (K * list V)).
  induction l as [|y l IH]; intros d Hx; simpl; [destruct Hx|].
  destruct Hx as [->|Hx].
  - apply (add_all_keeps l). apply groupby_add_value.
  - now apply IH.
Qed.

End GroupbyFacts.

Lemma NpModule_eqb_eq (a b : NpModule) : NpModule_eqb a b = true <-> a = b.
Proof. destruct a, b; simpl; split; congruence. Qed.

Lemma Shape_eqb_eq (a b : Shape) : Shape_eqb a b = true <-> a = b.
Proof.
  unfold Shape_eqb. destruct (list_eq_dec Nat.eq_dec a b); split; congruence.
Qed.

Section Properties.

Variable scalar : Type.
Variable astype : np_dtype -> np_dtype -> scalar -> scalar.
Variable result_type : np_dtype -> np_dtype -> np_dtype.

Local Abbreviation DataclassArray := (DataclassArray scalar).
Local Abbreviation DcOrArray := (DcOrArray scalar).
Local Abbreviation _ArrayField := (_ArrayField scalar).
Local Abbreviation bind_field := (_ArrayField__post_init__ astype).
Local Abbreviation __post_init__ := (__post_init__ astype).
Local Abbreviation new := (new astype).
Local Abbreviation replace := (replace astype).
Local Abbreviation tree_unflatten := (tree_unflatten astype).
Local Abbreviation iter_value := (iter_value astype).
Local Abbreviation __iter__ := (__iter__ astype).
Local Abbreviation xnp_stack := (xnp_stack astype result_type).
Local Abbreviation stack_from := (stack_from astype result_type).
Local Abbreviation stack := (stack astype result_type).
Local Abbreviation _map_field := (_map_field astype).
Local Abbreviation constructed := (constructed astype).
Local Abbreviation wf_value := (wf_value astype).

(** ** Size, length, truth value *)

(** C4 (as the code has it): [size] returns for no record.  The module
    [np_utils] has the functions [normalize] and [append_row] and no
    attribute [size_of]: whatever the record, and whatever calling an
    attribute of the module does, [record.size] raises the
    [AttributeError] of that name. *)
Theorem size_raises_AttributeError
  (np_utils_call : string -> option Shape -> result nat) (d : DataclassArray) :
  size np_utils_call d = Raise (NoAttribute "size_of") /\
  class_of (NoAttribute "size_of") = AttributeError /\
  np_utils_getattr "normalize" = Ok "normalize" /\
  np_utils_getattr "append_row" = Ok "append_row".
Proof. repeat split. Qed.

(** C9: the truth value of a record raises (a [ValueError]) exactly when
    its batch shape is not empty and starts with the dimension 0; for all
    the other records, unbatched ones and ones without shape included, it
    is [True]. *)
Theorem bool_raises_iff_empty_batch (d : DataclassArray) :
  ((exists e, __bool__ d = Raise e) <-> (exists s, shape d = Some (0 :: s))) /\
  (forall e, __bool__ d = Raise e -> class_of e = ValueError) /\
  ((exists e, __bool__ d = Raise e) \/ __bool__ d = Ok true).
Proof.
  unfold __bool__, __len__.
  destruct (shape d) as [[|n s]|] eqn:Hs; simpl.
  - split; [|split].
    + split; intros [x Hx]; discriminate.
    + intros e He; discriminate.
    + now right.
  - destruct n as [|n]; simpl.
    + split; [|split].
      * split; intros _; eauto.
      * intros e He. injection He as <-. reflexivity.
      * left; eauto.
    + split; [|split].
      * split; intros [x Hx]; discriminate.
      * intros e He; discriminate.
      * now right.
  - split; [|split].
    + split; intros [x Hx]; discriminate.
    + intros e He; discriminate.
    + now right.
Qed.

(** ** Errors of indexing *)

(** C6 (as the code has it): indexing a record raises an [IndexError]
    when the index holds two ellipses or more; it raises an [IndexError]
    too when the items that consume a dimension are more than the rank of
    the batch shape, and that error reports the batch shape and their
    count when the index holds one ellipsis at most (the ellipses are
    counted first). *)
Theorem getitem_index_errors (d : DataclassArray) (indices : _IndicesArg) :
  let ellipsis_count := _count_ellipsis (index_exp indices) in
  let valid_count := _count_not_none (index_exp indices) in
  (2 <= ellipsis_count ->
   getitem_indices d indices = Raise SingleEllipsis /\
   class_of SingleEllipsis = IndexError) /\
  (forall s, shape d = Some s -> length s < valid_count ->
   exists e, getitem_indices d indices = Raise e /\
             class_of e = IndexError /\
             (ellipsis_count <= 1 -> e = TooManyIndices s valid_count)).
Proof.
  intros ec vc. unfold getitem_indices, _to_absolute_indices.
  fold ec. fold vc. split.
  - intros H2. apply Nat.ltb_lt in H2. rewrite H2. split; reflexivity.
  - intros s Hs Hlt. rewrite Hs. simpl.
    destruct (Nat.ltb_spec 1 ec) as [H1|H1].
    + exists SingleEllipsis. repeat split. lia.
    + apply Nat.ltb_lt in Hlt. rewrite Hlt.
      exists (TooManyIndices s vc). repeat split.
Qed.


(** ** Binding a field *)

Lemma asarray_idem (x : NpModule) (a : ndarray scalar) (dt : np_dtype) :
  asarray astype x (asarray astype x a dt) dt = asarray astype x a dt.
Proof.
  unfold asarray. simpl. now rewrite String.eqb_refl.
Qed.

Lemma bind_missing (f : _ArrayField) :
  is_value_missing f = true -> bind_field f = Ok f.
Proof.
  intros H. unfold _ArrayField__post_init__. now rewrite H.
Qed.

(** What binding an active field gives. *)
Lemma bind_active (f f' : _ArrayField) :
  bind_field f = Ok f' -> is_value_missing f = false ->
  f_name f' = f_name f /\ f_meta f' = f_meta f /\
  is_value_missing f' = false /\
  (exists x hs,
     f_xnp f' = Some x /\ host_shape f' = Ok hs /\
     value_shape (f_value f') = Ok (Some (hs ++ inner_shape (f_meta f))) /\
     match dtype (f_meta f) with
     | DtArray dt =>
         exists a, f_value f = VArray a /\ x = arr_xnp a /\
                   f_value f' = VArray (asarray astype x a dt)
     | DtDataclass c =>
         exists d, f_value f = VDc d /\ x = _xnp d /\ f_value f' = VDc d /\
                   isinstance (VDc d) c = true
     end).
Proof.
  unfold _ArrayField__post_init__. intros H Hact. rewrite Hact in H.
  destruct (dtype (f_meta f)) as [dt|c] eqn:Hdt.
  - unfold _init_array in H.
    destruct (f_value f) as [| |a|d] eqn:Hv; simpl in H; try discriminate.
    destruct (host_shape _) as [hs|] eqn:Hhs; simpl in H; [|discriminate].
    destruct (Shape_eqb _ _) eqn:Heq; [|discriminate].
    injection H as <-. simpl. apply Shape_eqb_eq in Heq.
    repeat split. exists (arr_xnp a), hs. repeat split; try assumption.
    + simpl. now rewrite Heq.
    + exists a. repeat split.
  - unfold _init_dataclass in H.
    destruct (f_value f) as [| |a|d] eqn:Hv; simpl in H; try discriminate.
    destruct (existsb _ _) eqn:Hinst; simpl in H; [|discriminate].
    destruct (host_shape _) as [hs|] eqn:Hhs; simpl in H; [|discriminate].
    destruct (shape d) as [sd|] eqn:Hsd; [|discriminate].
    destruct (Shape_eqb _ _) eqn:Heq; [|discriminate].
    injection H as <-. simpl. apply Shape_eqb_eq in Heq.
    split; [reflexivity|]. split; [reflexivity|]. split.
    + unfold is_value_missing in *. simpl. now rewrite Hv in Hact.
    + exists (xnp d), hs. repeat split; try assumption.
      * simpl. rewrite Hsd. now rewrite Heq.
      * exists d. repeat split. assumption.
Qed.

Lemma bind_keeps (f f' : _ArrayField) :
  bind_field f = Ok f' ->
  f_name f' = f_name f /\ f_meta f' = f_meta f /\
  is_value_missing f' = is_value_missing f.
Proof.
  intros H. destruct (is_value_missing f) eqn:Hm.
  - rewrite bind_missing in H by assumption. injection H as <-. auto.
  - destruct (bind_active _ _ H Hm) as (? & ? & ? & _). auto.
Qed.

(** Binding again what binding gave changes nothing. *)
Lemma bind_idem (f f' : _ArrayField) :
  bind_field f = Ok f' -> f_xnp f = None -> bind_field (unbound f') = Ok f'.
Proof.
  intros H Hx. destruct (is_value_missing f) eqn:Hm.
  - rewrite bind_missing in H by assumption. injection H as <-.
    rewrite bind_missing by assumption.
    destruct f; simpl in *; subst; reflexivity.
  - destruct (bind_active _ _ H Hm)
      as (Hn & Hmeta & Hact & x & hs & Hfx & Hhs & Hvs & Hd).
    unfold _ArrayField__post_init__.
    assert (is_value_missing (unbound f') = false) as -> by exact Hact.
    simpl. rewrite Hmeta.
    destruct (dtype (f_meta f)) as [dt|c].
    + destruct Hd as (a & Hv & -> & Hv').
      unfold _init_array. simpl. rewrite Hv'. simpl.
      rewrite asarray_idem.
      assert (set_value_xnp (unbound f') (VArray (asarray astype (arr_xnp a) a dt))
                (arr_xnp a) = f') as ->.
      { destruct f'; simpl in *; subst; reflexivity. }
      rewrite Hv' in Hvs. simpl in Hvs. injection Hvs as Hvs.
      rewrite Hhs. simpl. rewrite Hvs, Hmeta.
      assert (Shape_eqb (hs ++ inner_shape (f_meta f))
                (hs ++ inner_shape (f_meta f)) = true) as ->
          by now apply Shape_eqb_eq.
      reflexivity.
    + destruct Hd as (d & Hv & -> & Hv' & Hinst).
      unfold _init_dataclass. simpl. rewrite Hv'. rewrite Hinst.
      assert (set_value_xnp (unbound f') (VDc d) (xnp d) = f') as ->.
      { destruct f'; simpl in *; subst; reflexivity. }
      simpl. rewrite Hhs. simpl. rewrite Hvs. simpl. rewrite Hmeta.
      assert (Shape_eqb (hs ++ inner_shape (f_meta f))
                (hs ++ inner_shape (f_meta f)) = true) as ->
          by now apply Shape_eqb_eq.
      reflexivity.
Qed.


(** ** [__post_init__] *)

(** The instance [__post_init__] leaves when the active fields agree. *)
Lemma post_init_active (c : dataclass_type) (fields all : list _ArrayField)
  (others : list (string * pyobj)) (x : NpModule) (s : Shape) :
  frozen c = true ->
  mapM bind_field fields = Ok all ->
  filter (@is_active scalar) all <> [] ->
  (forall f, In f (filter (@is_active scalar) all) ->
             f_xnp f = Some x /\ host_shape f = Ok s) ->
  __post_init__ c fields others =
    Ok {| cls := c; _all_array_fields := all; other_values := others;
          _shape := Some s; _xnp := x |}.
Proof.
  intros Hfrozen Hbind Hne Hall.
  unfold __post_init__. rewrite Hfrozen, Hbind. simpl.
  destruct all as [|f0 all0] eqn:Eall; [now destruct Hne|].
  rewrite <- Eall in *. clear Eall.
  set (active := filter (@is_active scalar) all) in *.
  rewrite (mapM_ext_in _ _ _ (fun f => Ok (x, f_name f)) active).
  2:{ intros f Hf. unfold get_f_xnp. destruct (Hall f Hf) as [-> _]. reflexivity. }
  rewrite mapM_pure. simpl.
  rewrite (groupby_same_key _ _ _ _ NpModule_eqb_eq fst snd _ x).
  2:{ destruct active; [congruence|discriminate]. }
  2:{ intros p Hp. apply in_map_iff in Hp as [f [<- _]]. reflexivity. }
  simpl.
  rewrite (mapM_ext_in _ _ _ (fun f => Ok (s, f_name f)) active).
  2:{ intros f Hf. destruct (Hall f Hf) as [_ ->]. reflexivity. }
  rewrite mapM_pure. simpl.
  rewrite (groupby_same_key _ _ _ _ Shape_eqb_eq fst snd _ s).
  2:{ destruct active; [congruence|discriminate]. }
  2:{ intros p Hp. apply in_map_iff in Hp as [f [<- _]]. reflexivity. }
  reflexivity.
Qed.

(** The instance [__post_init__] leaves when no field is active. *)
Lemma post_init_no_active (c : dataclass_type) (fields all : list _ArrayField)
  (others : list (string * pyobj)) :
  frozen c = true ->
  mapM bind_field fields = Ok all ->
  all <> [] ->
  filter (@is_active scalar) all = [] ->
  __post_init__ c fields others =
    Ok {| cls := c; _all_array_fields := all; other_values := others;
          _shape := None; _xnp := np |}.
Proof.
  intros Hfrozen Hbind Hne Hnone.
  unfold __post_init__. rewrite Hfrozen, Hbind. simpl.
  destruct all as [|f0 all0] eqn:Eall; [now destruct Hne|].
  rewrite Hnone. reflexivity.
Qed.

(** What a successful [__post_init__] says of the instance. *)
Lemma post_init_inv (c : dataclass_type) (fields : list _ArrayField)
  (others : list (string * pyobj)) (d : DataclassArray) :
  __post_init__ c fields others = Ok d ->
  frozen c = true /\
  mapM bind_field fields = Ok (_all_array_fields d) /\
  _all_array_fields d <> [] /\
  cls d = c /\ other_values d = others /\
  ((_array_fields d = [] /\ _shape d = None /\ _xnp d = np) \/
   (_array_fields d <> [] /\
    exists s, _shape d = Some s /\
      forall f, In f (_array_fields d) ->
                f_xnp f = Some (_xnp d) /\ host_shape f = Ok s)).
Proof.
  unfold __post_init__. intros H.
  destruct (frozen c); [|discriminate]. simpl in H.
  destruct (mapM bind_field fields) as [all|] eqn:Hbind; [|discriminate].
  simpl in H.
  destruct all as [|f0 all0] eqn:Eall; [discriminate|].
  rewrite <- Eall in *.
  assert (all <> []) as Hne by (rewrite Eall; discriminate). clear Eall.
  set (active := filter (@is_active scalar) all) in *.
  destruct (mapM _ active) as [xk|] eqn:Hxk; [|discriminate]. simpl in H.
  set (xnps := groupby NpModule_eqb xk fst snd) in *.
  destruct (Nat.ltb_spec 1 (length xnps)) as [|Hx1]; [discriminate|].
  destruct (mapM _ active) as [sk|] eqn:Hsk in H; [|discriminate]. simpl in H.
  set (shapes := groupby Shape_eqb sk fst snd) in *.
  destruct (Nat.ltb_spec 1 (length shapes)) as [|Hs1]; [discriminate|].
  apply mapM_Ok_Forall2 in Hxk, Hsk.
  destruct xnps as [|[x names] [|? ?]] eqn:Exnps; simpl in Hx1; [| |lia].
  - (* no active field *)
    simpl in H. injection H as <-. simpl.
    apply groupby_nil_inv in Exnps; [|exact NpModule_eqb_eq]. subst xk.
    inversion Hxk as [Hact|]. unfold _array_fields. simpl.
    repeat split; try assumption. left. fold active. rewrite <- Hact. auto.
  - (* one backend *)
    simpl in H.
    destruct shapes as [|[s snames] [|? ?]] eqn:Eshapes; simpl in Hs1, H;
      [discriminate| |lia].
    injection H as <-. simpl. unfold _array_fields. simpl. fold active.
    repeat split; try assumption. right. split.
    + intros Hact. rewrite Hact in Hxk. inversion Hxk. subst xk. discriminate.
    + exists s. split; [reflexivity|]. intros f Hf.
      split.
      * destruct (Forall2_In_l _ _ _ _ _ _ Hxk Hf) as [p [Hp Hget]].
        unfold get_f_xnp in Hget. destruct (f_xnp f) as [xf|]; [|discriminate].
        simpl in Hget. injection Hget as <-.
        pose proof (groupby_key_In _ _ _ _ NpModule_eqb_eq fst snd xk _ Hp) as Hk.
        fold xnps in Hk. rewrite Exnps in Hk. simpl in Hk.
        destruct Hk as [->|[]]. reflexivity.
      * destruct (Forall2_In_l _ _ _ _ _ _ Hsk Hf) as [p [Hp Hget]].
        destruct (host_shape f) as [sf|]; [|discriminate].
        simpl in Hget. injection Hget as <-.
        pose proof (groupby_key_In _ _ _ _ Shape_eqb_eq fst snd sk _ Hp) as Hk.
        fold shapes in Hk. rewrite Eshapes in Hk. simpl in Hk.
        destruct Hk as [->|[]]. reflexivity.
Qed.


Lemma post_init_depends_on_bound (c : dataclass_type)
  (fields fields' all : list _ArrayField) (others : list (string * pyobj)) :
  mapM bind_field fields = Ok all ->
  mapM bind_field fields' = Ok all ->
  __post_init__ c fields' others = __post_init__ c fields others.
Proof.
  intros H H'. unfold __post_init__. now rewrite H, H'.
Qed.

(** A bound field that is active has a backend and a host shape. *)
Lemma active_bound (fields all : list _ArrayField) (f : _ArrayField) :
  mapM bind_field fields = Ok all ->
  In f (filter (@is_active scalar) all) ->
  exists x hs, f_xnp f = Some x /\ host_shape f = Ok hs.
Proof.
  intros Hbind Hf. apply filter_In in Hf as [Hin Hact].
  apply mapM_Ok_Forall2 in Hbind.
  apply Forall2_flip in Hbind.
  destruct (Forall2_In_l _ _ _ _ _ _ Hbind Hin) as [f0 [_ Hf0]].
  simpl in Hf0. unfold is_active in Hact. apply negb_true_iff in Hact.
  destruct (bind_keeps _ _ Hf0) as (_ & _ & Hm). rewrite Hact in Hm.
  destruct (bind_active _ _ Hf0 (eq_sym Hm))
    as (_ & _ & _ & x & hs & Hx & Hhs & _).
  eauto.
Qed.

Lemma mapM_total (A B : Type) (f : A -> result B) (l : list A) :
  (forall x, In x l -> exists y, f x = Ok y) -> exists l', mapM f l = Ok l'.
Proof.
  induction l as [|x l IH]; intros H; simpl; [eauto|].
  destruct (H x (or_introl eq_refl)) as [y ->].
  destruct IH as [l' ->]; [intros z Hz; apply H; now right|].
  simpl. eauto.
Qed.

(** C1 (as the code has it): the batch shape of a constructed record is
    the host shape of each of its active fields; and a construction (of a
    frozen class, whose fields bind) in which two active fields have two
    host shapes fails with a [ValueError].  Which one is decided by the
    backends, which are checked first: when the active fields are not all
    of one backend it is the error that lists every active field under
    the name of its backend (and holds no shape); when they are, it is the
    error that lists the fields under their host shapes. *)
Theorem shape_is_host_shape_of_active_fields :
  (forall c fields others d,
     __post_init__ c fields others = Ok d ->
     forall f, In f (_array_fields d) ->
     exists s, shape d = Some s /\ host_shape f = Ok s) /\
  (forall c fields others all f1 f2 s1 s2,
     frozen c = true ->
     mapM bind_field fields = Ok all ->
     In f1 (filter (@is_active scalar) all) ->
     In f2 (filter (@is_active scalar) all) ->
     host_shape f1 = Ok s1 -> host_shape f2 = Ok s2 -> s1 <> s2 ->
     exists e,
       __post_init__ c fields others = Raise e /\
       class_of e = ValueError /\
       (((exists xnps,
            e = ConflictingNumpyTypes xnps /\
            forall f x, In f (filter (@is_active scalar) all) ->
                        f_xnp f = Some x ->
                        exists names, In (NpModule_name x, names) xnps /\
                                      In (f_name f) names) /\
         ~ (forall f g, In f (filter (@is_active scalar) all) ->
                        In g (filter (@is_active scalar) all) ->
                        f_xnp f = f_xnp g)) \/
        ((forall f g, In f (filter (@is_active scalar) all) ->
                      In g (filter (@is_active scalar) all) ->
                      f_xnp f = f_xnp g) /\
         exists shapes,
           e = ConflictingBatchShapes shapes /\
           (exists names, In (s1, names) shapes /\ In (f_name f1) names) /\
           (exists names, In (s2, names) shapes /\ In (f_name f2) names))) /\
       ((exists f g, In f (filter (@is_active scalar) all) /\
                     In g (filter (@is_active scalar) all) /\
                     f_xnp f <> f_xnp g) ->
        exists xnps, e = ConflictingNumpyTypes xnps) /\
       ((forall f g, In f (filter (@is_active scalar) all) ->
                     In g (filter (@is_active scalar) all) ->
                     f_xnp f = f_xnp g) ->
        exists shapes, e = ConflictingBatchShapes shapes)).
Proof.
  split.
  - intros c fields others d H f Hf.
    destruct (post_init_inv _ _ _ _ H) as (_ & _ & _ & _ & _ & [[Hnone _]|Hsome]).
    + rewrite Hnone in Hf. destruct Hf.
    + destruct Hsome as (_ & s & Hs & Hall). exists s.
      split; [exact Hs|]. now apply Hall.
  - intros c fields others all f1 f2 s1 s2 Hfrozen Hbind Hf1 Hf2 Hs1 Hs2 Hne.
    unfold __post_init__. rewrite Hfrozen, Hbind. simpl.
    destruct all as [|f0 all0] eqn:Eall; [destruct Hf1|].
    rewrite <- Eall in *. clear Eall.
    set (active := filter (@is_active scalar) all) in *.
    destruct (mapM_total _ _
                (fun f => x <- get_f_xnp f ;; Ok (x, f_name f)) active)
      as [xk Hxk].
    { intros f Hf. destruct (active_bound _ _ _ Hbind Hf) as (x & _ & Hx & _).
      unfold get_f_xnp. rewrite Hx. simpl. eauto. }
    rewrite Hxk. simpl.
    assert (forall f x, In f active -> f_xnp f = Some x ->
                        In (x, f_name f) xk) as Hkeys.
    { intros f x Hf Hx. apply mapM_Ok_Forall2 in Hxk.
      destruct (Forall2_In_l _ _ _ _ _ _ Hxk Hf) as [p [Hp Hk]].
      unfold get_f_xnp in Hk. rewrite Hx in Hk. simpl in Hk.
      now injection Hk as <-. }
    destruct (Nat.ltb_spec 1 (length (groupby NpModule_eqb xk fst snd)))
      as [Hx1|Hx1].
    + assert (~ (forall f g, In f active -> In g active -> f_xnp f = f_xnp g))
        as Hdiff.
      { intros Hsame.
        destruct (active_bound _ _ _ Hbind Hf1) as (x & _ & Hx & _).
        assert (xk = map (fun f => (x, f_name f)) active) as Exk.
        { assert (mapM (fun f => x0 <- get_f_xnp f ;; Ok (x0, f_name f)) active
                  = Ok (map (fun f => (x, f_name f)) active)) as E.
          { rewrite <- mapM_pure. apply mapM_ext_in. intros f Hf.
            unfold get_f_xnp. rewrite (Hsame f f1 Hf Hf1), Hx. reflexivity. }
          congruence. }
        rewrite (groupby_same_key _ _ _ _ NpModule_eqb_eq fst snd xk x) in Hx1.
        * simpl in Hx1. lia.
        * rewrite Exk. destruct active; [destruct Hf1|discriminate].
        * intros p Hp. rewrite Exk in Hp.
          apply in_map_iff in Hp as [f [<- _]]. reflexivity. }
      eexists. split; [reflexivity|]. split; [reflexivity|]. split; [|split].
      * left. split; [|exact Hdiff]. eexists. split; [reflexivity|].
        intros f x Hf Hx.
        destruct (groupby_lists _ _ _ _ NpModule_eqb_eq fst snd xk _
                    (Hkeys f x Hf Hx)) as (names & Hin & Hn).
        exists names. split; [|exact Hn].
        apply in_map_iff. exists (x, names). auto.
      * intros _. eauto.
      * intros Hsame. contradiction.
    + assert (forall f g, In f active -> In g active -> f_xnp f = f_xnp g)
        as Hsame.
      { intros f g Hf Hg.
        destruct (active_bound _ _ _ Hbind Hf) as (x & _ & Hx & _).
        destruct (active_bound _ _ _ Hbind Hg) as (y & _ & Hy & _).
        rewrite Hx, Hy. f_equal.
        exact (groupby_one_key _ _ _ _ NpModule_eqb_eq fst snd xk _ _ Hx1
                 (Hkeys f x Hf Hx) (Hkeys g y Hg Hy)). }
      destruct (mapM_total _ _
                  (fun f => s <- host_shape f ;; Ok (s, f_name f)) active)
        as [sk Hsk].
      { intros f Hf. destruct (active_bound _ _ _ Hbind Hf) as (_ & hs & _ & Hhs).
        rewrite Hhs. simpl. eauto. }
      rewrite Hsk. simpl.
      apply mapM_Ok_Forall2 in Hsk.
      destruct (Forall2_In_l _ _ _ _ _ _ Hsk Hf1) as [p1 [Hp1 Hk1]].
      destruct (Forall2_In_l _ _ _ _ _ _ Hsk Hf2) as [p2 [Hp2 Hk2]].
      rewrite Hs1 in Hk1. rewrite Hs2 in Hk2. simpl in Hk1, Hk2.
      injection Hk1 as <-. injection Hk2 as <-.
      assert (2 <= length (groupby Shape_eqb sk fst snd)) as Hlen.
      { apply (groupby_two_keys _ _ _ _ Shape_eqb_eq fst snd sk _ _ Hp1 Hp2).
        exact Hne. }
      apply Nat.ltb_lt in Hlen. rewrite Hlen.
      eexists. split; [reflexivity|]. split; [reflexivity|]. split; [|split].
      * right. split; [exact Hsame|]. eexists. split; [reflexivity|]. split.
        -- exact (groupby_lists _ _ _ _ Shape_eqb_eq fst snd sk _ Hp1).
        -- exact (groupby_lists _ _ _ _ Shape_eqb_eq fst snd sk _ Hp2).
      * intros (f & g & Hf & Hg & Hfg). exfalso. exact (Hfg (Hsame f g Hf Hg)).
      * intros _. eauto.
Qed.

Lemma bind_all_missing (fields : list _ArrayField) :
  forallb (@is_value_missing scalar) fields = true ->
  mapM bind_field fields = Ok fields.
Proof.
  intros Hmissing. apply mapM_Ok_Forall2. rewrite forallb_forall in Hmissing.
  induction fields as [|f fields IH]; constructor.
  - apply bind_missing. apply Hmissing. now left.
  - apply IH. intros x Hx. apply Hmissing. now right.
Qed.

Lemma no_active_all_missing (fields : list _ArrayField) :
  forallb (@is_value_missing scalar) fields = true ->
  filter (@is_active scalar) fields = [].
Proof.
  intros Hmissing. rewrite forallb_forall in Hmissing.
  induction fields as [|f fields IH]; [reflexivity|]. simpl.
  unfold is_active at 1. rewrite (Hmissing f) by now left. simpl.
  apply IH. intros x Hx. apply Hmissing. now right.
Qed.

(** C2 (as the code has it): a frozen class of which every array field is
    missing is refused only when it declares no array field at all;
    otherwise the record is built, without batch shape and with the
    backend [np]. *)
Theorem all_missing_record_is_constructed (c : dataclass_type)
  (fields : list _ArrayField) (others : list (string * pyobj)) :
  frozen c = true ->
  forallb (@is_value_missing scalar) fields = true ->
  __post_init__ c fields others =
    match fields with
    | [] => Raise (NoArrayField (qualname c))
    | _ :: _ => Ok {| cls := c; _all_array_fields := fields;
                      other_values := others; _shape := None; _xnp := np |}
    end.
Proof.
  intros Hfrozen Hmissing.
  destruct fields as [|f0 fields0] eqn:E.
  - unfold __post_init__. rewrite Hfrozen. reflexivity.
  - rewrite <- E in *. apply post_init_no_active.
    + exact Hfrozen.
    + now apply bind_all_missing.
    + rewrite E. discriminate.
    + now apply no_active_all_missing.
Qed.

(** ** The [object()] sentinel *)

Lemma object_as_none_active (f : _ArrayField) :
  is_active (object_as_none f) = is_active f /\
  (is_active f = true -> object_as_none f = f).
Proof.
  unfold object_as_none, is_active, is_value_missing.
  destruct (f_value f) eqn:Hv; simpl; rewrite ?Hv; auto.
  split; [reflexivity|discriminate].
Qed.

Lemma bind_object_as_none (f : _ArrayField) :
  bind_field (object_as_none f) =
    (f' <- bind_field f ;; Ok (object_as_none f')).
Proof.
  destruct (is_value_missing f) eqn:Hm.
  - rewrite (bind_missing f Hm). simpl. apply bind_missing.
    destruct (object_as_none_active f) as [Ha _].
    unfold is_active in Ha. rewrite Hm in Ha. now apply negb_false_iff in Ha.
  - destruct (object_as_none_active f) as [_ Hid].
    rewrite Hid by (unfold is_active; now rewrite Hm).
    destruct (bind_field f) as [f'|e] eqn:Hb; [|reflexivity]. simpl.
    destruct (bind_active _ _ Hb Hm) as (_ & _ & Hact & _).
    destruct (object_as_none_active f') as [_ Hid'].
    rewrite Hid' by (unfold is_active; now rewrite Hact). reflexivity.
Qed.

Lemma mapM_bind_object_as_none (fields : list _ArrayField) :
  mapM bind_field (map (@object_as_none scalar) fields) =
    (all <- mapM bind_field fields ;; Ok (map (@object_as_none scalar) all)).
Proof.
  induction fields as [|f fields IH]; simpl; [reflexivity|].
  rewrite bind_object_as_none.
  destruct (bind_field f) as [f'|e]; simpl; [|reflexivity].
  rewrite IH. destruct (mapM bind_field fields); reflexivity.
Qed.

Lemma filter_active_object_as_none (all : list _ArrayField) :
  filter (@is_active scalar) (map (@object_as_none scalar) all) =
  filter (@is_active scalar) all.
Proof.
  induction all as [|f all IH]; simpl; [reflexivity|].
  destruct (object_as_none_active f) as [Ha Hid]. rewrite Ha.
  destruct (is_active f); [|exact IH]. rewrite Hid by reflexivity.
  now rewrite IH.
Qed.

(** C10: a field that holds the bare [object()] is missing, as one that
    holds [None]: it is bound without conversion nor check of its shape,
    whatever its metadata; it is none of the active fields; and the
    construction ends as it does with [None] in its place: with the same
    exception, or with the same batch shape and backend. *)
Theorem object_sentinel_is_missing :
  (forall m n x,
     let f : _ArrayField :=
       {| f_meta := m; f_name := n; f_value := VObject scalar; f_xnp := x |} in
     is_value_missing f = true /\ bind_field f = Ok f) /\
  (forall (d : DataclassArray) f,
     In f (_array_fields d) -> f_value f <> VObject scalar) /\
  (forall c fields others,
     __post_init__ c (map (@object_as_none scalar) fields) others =
       (d <- __post_init__ c fields others ;;
        Ok (map_fields (@object_as_none scalar) d))).
Proof.
  split; [|split].
  - intros m n x f. split; [reflexivity|]. now apply bind_missing.
  - intros d f Hf Hv. apply filter_In in Hf as [_ Hact].
    unfold is_active, is_value_missing in Hact. now rewrite Hv in Hact.
  - intros c fields others. unfold __post_init__.
    destruct (frozen c); simpl; [|reflexivity].
    rewrite mapM_bind_object_as_none.
    destruct (mapM bind_field fields) as [all|e]; simpl; [|reflexivity].
    destruct all as [|f0 all0] eqn:Eall; [reflexivity|].
    rewrite <- Eall.
    assert (map (@object_as_none scalar) all <> []) as Hne
        by (rewrite Eall; discriminate).
    destruct (map (@object_as_none scalar) all) as [|g0 gs] eqn:Emap;
      [congruence|].
    rewrite <- Emap. rewrite filter_active_object_as_none.
    destruct (mapM _ (filter (@is_active scalar) all)) as [xk|e];
      simpl; [|reflexivity].
    destruct (1 <? length (groupby NpModule_eqb xk fst snd));
      simpl; [reflexivity|].
    destruct (mapM _ (filter (@is_active scalar) all)) as [sk|e];
      simpl; [|reflexivity].
    destruct (1 <? length (groupby Shape_eqb sk fst snd));
      simpl; [reflexivity|].
    destruct (unpack1 _) as [x|e]; simpl; [|reflexivity].
    destruct (unpack1 _) as [s|e]; simpl; reflexivity.
Qed.


(** ** Constructed records *)

Lemma lookup_map_NoDup (X V : Type) (kf : X -> string) (vf : X -> V)
  (l : list X) (x : X) :
  NoDup (map kf l) -> In x l ->
  lookup (kf x) (map (fun y => (kf y, vf y)) l) = Some (vf x).
Proof.
  induction l as [|y l IH]; intros Hnd Hin; [destruct Hin|].
  simpl in *. inversion Hnd as [|? ? Hnotin Hnd']; subst.
  destruct Hin as [->|Hin].
  - now rewrite String.eqb_refl.
  - destruct (String.eqb_spec (kf y) (kf x)) as [E|_].
    + exfalso. apply Hnotin. rewrite E. now apply in_map.
    + now apply IH.
Qed.

Lemma lookup_first (V : Type) (g : string -> option V) (l : list (string * V))
  (n : string) (o : V) :
  (forall p, In p l -> g (fst p) = Some (snd p)) ->
  In (n, o) l -> lookup n l = Some o.
Proof.
  induction l as [|[n' o'] l IH]; intros Hg Hin; [destruct Hin|].
  simpl. destruct (String.eqb_spec n' n) as [->|Hne].
  - pose proof (Hg (n, o) Hin) as H1.
    pose proof (Hg (n, o') (or_introl eq_refl)) as H2.
    simpl in *. congruence.
  - destruct Hin as [E|Hin]; [congruence|].
    apply IH; [|assumption]. intros p Hp. apply Hg. now right.
Qed.

Lemma check_unexpected_incl (V : Type) (declared : list string)
  (kwargs : list (string * V)) :
  incl (map fst kwargs) declared -> check_unexpected declared kwargs = Ok tt.
Proof.
  intros Hincl. unfold check_unexpected.
  assert (filter (fun n => negb (existsb (String.eqb n) declared))
            (map fst kwargs) = []) as ->; [|reflexivity].
  induction (map fst kwargs) as [|n ns IH]; [reflexivity|]. simpl.
  assert (existsb (String.eqb n) declared = true) as ->.
  { apply existsb_exists. exists n. split; [apply Hincl; now left|].
    apply String.eqb_refl. }
  simpl. apply IH. intros m Hm. apply Hincl. now right.
Qed.

Lemma Forall2_eq_map (X Y : Type) (g : Y -> X) (l : list X) (l' : list Y) :
  Forall2 (fun x y => x = g y) l l' -> l = map g l'.
Proof.
  induction 1; simpl; congruence.
Qed.

Lemma Forall2_compose (X Y Z : Type) (R : X -> Y -> Prop) (S : Y -> Z -> Prop)
  (l : list X) (l' : list Y) (l'' : list Z) :
  Forall2 R l l' -> Forall2 S l' l'' ->
  Forall2 (fun x z => exists y, R x y /\ S y z) l l''.
Proof.
  intros H. revert l''. induction H; intros l'' H'; inversion H'; subst;
    constructor; eauto.
Qed.

Lemma new_inv (c : dataclass_type) (kw : list (string * DcOrArray))
  (okw : list (string * pyobj)) (d : DataclassArray) :
  new c kw okw = Ok d ->
  exists fields others,
    init_fields c kw = Ok fields /\ init_others c okw = Ok others /\
    __post_init__ c fields others = Ok d.
Proof.
  unfold new. intros H.
  destruct (check_unexpected _ kw); [|discriminate]. simpl in H.
  destruct (check_unexpected _ okw); [|discriminate]. simpl in H.
  destruct (init_fields c kw) as [fields|]; [|discriminate]. simpl in H.
  destruct (init_others c okw) as [others|]; [|discriminate]. simpl in H.
  eauto.
Qed.

Lemma mapM_inverse (X Y : Type) (f : X -> result Y) (g : Y -> X) (l : list Y) :
  (forall y, In y l -> f (g y) = Ok y) -> mapM f (map g l) = Ok l.
Proof.
  induction l as [|y l IH]; intros H; simpl; [reflexivity|].
  rewrite (H y) by now left. simpl.
  rewrite IH by (intros z Hz; apply H; now right). reflexivity.
Qed.

Lemma init_others_entries (ns : list string) (okw others : list (string * pyobj)) :
  mapM (fun n => o <- bind_kwarg okw n ;; Ok (n, o)) ns = Ok others ->
  map fst others = ns /\
  forall p, In p others -> lookup (fst p) okw = Some (snd p).
Proof.
  revert others. induction ns as [|n ns IH]; intros others H; simpl in H.
  - injection H as <-. split; [reflexivity|]. intros p [].
  - unfold bind_kwarg in H at 1.
    destruct (lookup n okw) as [o|] eqn:El; [|discriminate]. simpl in H.
    destruct (mapM _ ns) as [ps|] eqn:Hps; [|discriminate]. simpl in H.
    injection H as <-. destruct (IH ps eq_refl) as [Hns Hps'].
    split; [simpl; now rewrite Hns|].
    intros p [<-|Hp]; [exact El|now apply Hps'].
Qed.

Lemma init_others_change (ns : list string) (okw l others : list (string * pyobj)) :
  mapM (fun n => o <- bind_kwarg okw n ;; Ok (n, o)) ns = Ok others ->
  (forall p, In p others -> lookup (fst p) l = Some (snd p)) ->
  mapM (fun n => o <- bind_kwarg l n ;; Ok (n, o)) ns = Ok others.
Proof.
  revert others. induction ns as [|n ns IH]; intros others H Hl; simpl in *.
  - exact H.
  - unfold bind_kwarg in H at 1.
    destruct (lookup n okw) as [o|] eqn:El; [|discriminate]. simpl in H.
    destruct (mapM _ ns) as [qs|] eqn:Hqs in H; [|discriminate]. simpl in H.
    injection H as <-.
    unfold bind_kwarg at 1.
    pose proof (Hl (n, o) (or_introl eq_refl)) as Hn. simpl in Hn.
    rewrite Hn. simpl.
    rewrite (IH qs Hqs) by (intros p Hp; apply Hl; now right).
    reflexivity.
Qed.

Lemma init_others_idem (c : dataclass_type) (okw others : list (string * pyobj)) :
  init_others c okw = Ok others -> init_others c others = Ok others.
Proof.
  unfold init_others. intros H.
  destruct (init_others_entries _ _ _ H) as [_ Hg].
  apply (init_others_change _ okw); [exact H|].
  intros [n o] Hp. simpl.
  now apply (lookup_first _ (fun n => lookup n okw) others n o Hg).
Qed.

Lemma new_constructed (c : dataclass_type) (kw : list (string * DcOrArray))
  (okw : list (string * pyobj)) (d : DataclassArray) :
  new c kw okw = Ok d -> cls d = c /\ constructed d.
Proof.
  intros H. destruct (new_inv _ _ _ _ H) as (fields & others & Hf & Ho & Hp).
  destruct (post_init_inv _ _ _ _ Hp) as (Hfrozen & Hbind & _ & Hc & Hov & _).
  split; [exact Hc|]. unfold constructed. rewrite Hc, Hov.
  unfold init_fields in Hf. apply mapM_Ok_Forall2 in Hf.
  pose proof Hbind as Hbind2. apply mapM_Ok_Forall2 in Hbind2.
  pose proof (Forall2_compose _ _ _ _ _ _ _ _ Hf Hbind2) as Hcomp.
  assert (forall f, In f (_all_array_fields d) -> bind_field (unbound f) = Ok f)
    as Hidem.
  { intros f' Hin. apply Forall2_flip in Hcomp.
    destruct (Forall2_In_l _ _ _ _ _ _ Hcomp Hin) as (nm & _ & f & Hnm & Hb).
    apply (bind_idem f f' Hb).
    unfold bind_kwarg in Hnm. destruct (lookup (fst nm) kw); [|discriminate].
    simpl in Hnm. injection Hnm as <-. reflexivity. }
  split; [exact Hfrozen|]. split; [|split; [exact Hidem|split; [|split]]].
  - apply Forall2_eq_map.
    eapply Forall2_impl; [|exact Hcomp]. simpl.
    intros nm f' (f & Hnm & Hb).
    destruct (bind_keeps _ _ Hb) as (Hn & Hm & _).
    unfold bind_kwarg in Hnm. destruct (lookup (fst nm) kw); [|discriminate].
    simpl in Hnm. injection Hnm as <-. simpl in *. rewrite Hn, Hm.
    now destruct nm.
  - rewrite (post_init_depends_on_bound c fields _ _ others Hbind);
      [exact Hp|].
    now apply mapM_inverse.
  - unfold init_others in Ho. apply mapM_Ok_Forall2 in Ho.
    apply check_unexpected_incl. intros n Hn.
    apply in_map_iff in Hn as [p [<- Hp']].
    apply Forall2_flip in Ho.
    destruct (Forall2_In_l _ _ _ _ _ _ Ho Hp') as (n & Hn & Hk).
    simpl in Hk. destruct (bind_kwarg okw n); [|discriminate].
    simpl in Hk. injection Hk as <-. exact Hn.
  - now apply (init_others_idem c okw).
Qed.


Lemma init_fields_of_constructed (d : DataclassArray)
  (kw : list (string * DcOrArray)) (g : _ArrayField -> DcOrArray) :
  constructed d ->
  (forall f, In f (_all_array_fields d) -> lookup (f_name f) kw = Some (g f)) ->
  init_fields (cls d) kw =
    Ok (map (fun f => unbound (with_value (g f) f)) (_all_array_fields d)).
Proof.
  intros (_ & Hafs & _) Hkw. unfold init_fields. rewrite Hafs, mapM_map.
  rewrite <- mapM_pure. apply mapM_ext_in. intros f Hf. simpl.
  unfold bind_kwarg. rewrite (Hkw f Hf). reflexivity.
Qed.

(** The constructor gives a constructed record back from keyword
    arguments that hold its own values. *)
Lemma reconstruct (d : DataclassArray) (kw : list (string * DcOrArray)) :
  constructed d ->
  incl (map fst kw) (map fst (array_fields (cls d))) ->
  (forall f, In f (_all_array_fields d) ->
             lookup (f_name f) kw = Some (f_value f)) ->
  new (cls d) kw (other_values d) = Ok d.
Proof.
  intros Hd Hincl Hkw. unfold new.
  rewrite (check_unexpected_incl _ _ _ Hincl). simpl.
  rewrite (init_fields_of_constructed d kw (@f_value _) Hd Hkw).
  destruct Hd as (_ & _ & _ & Hp & Hcu & Ho). rewrite Hcu, Ho. simpl.
  rewrite <- Hp. f_equal.
Qed.

Lemma combine_map_map (X Y Z : Type) (g : X -> Y) (h : X -> Z) (l : list X) :
  combine (map g l) (map h l) = map (fun x => (g x, h x)) l.
Proof.
  induction l as [|x l IH]; simpl; [reflexivity|]. now rewrite IH.
Qed.

Lemma map_fst_pairs (X Y Z : Type) (g : X -> Y) (h : X -> Z) (l : list X) :
  map fst (map (fun x => (g x, h x)) l) = map g l.
Proof.
  rewrite map_map. reflexivity.
Qed.

Lemma constructed_names (d : DataclassArray) :
  constructed d ->
  map fst (array_fields (cls d)) = map (@f_name _) (_all_array_fields d).
Proof.
  intros (_ & -> & _). apply map_fst_pairs.
Qed.

(** Keyword arguments after others that are all expected. *)
Lemma check_unexpected_app (V : Type) (declared : list string)
  (kw1 kw2 : list (string * V)) :
  check_unexpected declared kw1 = Ok tt ->
  check_unexpected declared (kw1 ++ kw2) = check_unexpected declared kw2.
Proof.
  unfold check_unexpected. rewrite map_app, filter_app.
  destruct (filter _ (map fst kw1)); [reflexivity|discriminate].
Qed.



(** ** Iterating, then stacking *)

Lemma firstn_plus (A : Type) (a b : nat) (l : list A) :
  firstn (a + b) l = firstn a l ++ firstn b (skipn a l).
Proof.
  revert l. induction a as [|a IH]; intros l; simpl; [reflexivity|].
  destruct l as [|x l]; simpl.
  - now rewrite firstn_nil.
  - now rewrite IH.
Qed.

Lemma chunks_spec (A : Type) (k n : nat) (l : list A) :
  chunks k n l = map (fun i => chunk k i l) (seq 0 n).
Proof.
  revert l. induction n as [|n IH]; intros l; [reflexivity|].
  simpl chunks. rewrite IH. simpl. f_equal.
  rewrite <- seq_shift, map_map. apply map_ext. intros i.
  unfold chunk. rewrite skipn_skipn. f_equal. f_equal. simpl. lia.
Qed.

Lemma concat_chunks (A : Type) (k n : nat) (l : list A) :
  length l = n * k -> concat (chunks k n l) = l.
Proof.
  intros Hlen.
  assert (forall m (l' : list A), concat (chunks k m l') = firstn (m * k) l')
    as H.
  { clear. induction m as [|m IH]; intros l'; [reflexivity|].
    simpl. rewrite IH. now rewrite firstn_plus. }
  rewrite H, <- Hlen. apply firstn_all.
Qed.

Lemma zip_star_map_map (X Y : Type) (G : nat -> X -> Y) (xs : list X)
  (idxs : list nat) :
  xs <> [] ->
  zip_star (map (fun x => map (fun i => G i x) idxs) xs) =
    map (fun i => map (G i) xs) idxs.
Proof.
  induction xs as [|x xs IH]; [congruence|]. intros _.
  destruct xs as [|x' xs'].
  - simpl. rewrite map_map. reflexivity.
  - change (zip_star (map (fun x0 => map (fun i => G i x0) idxs) (x :: x' :: xs')))
      with (map (fun p => fst p :: snd p)
              (combine (map (fun i => G i x) idxs)
                 (zip_star (map (fun x0 => map (fun i => G i x0) idxs)
                              (x' :: xs'))))).
    rewrite IH by discriminate.
    rewrite combine_map_map, map_map. reflexivity.
Qed.

Lemma lookup_app (V : Type) (n : string) (a b : list (string * V)) :
  lookup n (a ++ b) =
    match lookup n a with
    | Some v => Some v
    | None => lookup n b
    end.
Proof.
  induction a as [|[n' v] a IH]; simpl; [reflexivity|].
  destruct (String.eqb n' n); [reflexivity|exact IH].
Qed.

Lemma lookup_None (V : Type) (n : string) (l : list (string * V)) :
  lookup n l = None <-> existsb (String.eqb n) (map fst l) = false.
Proof.
  induction l as [|[n' v] l IH]; simpl; [tauto|].
  rewrite (String.eqb_sym n n').
  destruct (String.eqb n' n); simpl; [split; discriminate|exact IH].
Qed.

Lemma NoDup_map_filter (X Y : Type) (g : X -> Y) (p : X -> bool) (l : list X) :
  NoDup (map g l) -> NoDup (map g (filter p l)).
Proof.
  induction l as [|x l IH]; simpl; intros H; [constructor|].
  inversion H as [|? ? Hnotin Hnd]; subst.
  destruct (p x); simpl; [|now apply IH].
  constructor; [|now apply IH].
  intros Hin. apply Hnotin. apply in_map_iff in Hin as [y [Hy Hin]].
  apply filter_In in Hin as [Hin _]. apply in_map_iff. eauto.
Qed.

(** The keyword arguments [replace] gives the constructor: the changes,
    then the fields the changes do not name. *)
Lemma replace_kwargs_lookup (all0 : list _ArrayField)
  (changes : list (string * DcOrArray)) (f0 : _ArrayField) :
  NoDup (map (@f_name _) all0) -> In f0 all0 ->
  lookup (f_name f0)
    (changes ++
     map (fun f => (f_name f, f_value f))
       (filter (fun f => negb (existsb (String.eqb (f_name f)) (map fst changes)))
          all0)) =
    match lookup (f_name f0) changes with
    | Some v => Some v
    | None => Some (f_value f0)
    end.
Proof.
  intros Hnd Hin. rewrite lookup_app.
  destruct (lookup (f_name f0) changes) eqn:El; [reflexivity|].
  apply lookup_None in El.
  apply (lookup_map_NoDup _ _ (@f_name _) (@f_value _)).
  - now apply NoDup_map_filter.
  - apply filter_In. split; [assumption|]. now rewrite El.
Qed.

Lemma replace_kwargs_incl (all0 : list _ArrayField)
  (changes : list (string * DcOrArray)) (declared : list string) :
  incl (map fst changes) declared ->
  incl (map (@f_name _) all0) declared ->
  incl (map fst
          (changes ++
           map (fun f => (f_name f, f_value f))
             (filter (fun f => negb (existsb (String.eqb (f_name f))
                                       (map fst changes))) all0)))
    declared.
Proof.
  intros Hc Ha n Hn. rewrite map_app, in_app_iff in Hn.
  destruct Hn as [Hn|Hn]; [now apply Hc|].
  rewrite map_map in Hn. simpl in Hn.
  apply in_map_iff in Hn as [f [<- Hf]]. apply filter_In in Hf as [Hf _].
  apply Ha. now apply in_map.
Qed.

(** Induction on a value and on the values of the fields of a nested
    record. *)
Lemma DcOrArray_induction (P : DcOrArray -> Prop) :
  P (VNone scalar) -> P (VObject scalar) -> (forall a, P (VArray a)) ->
  (forall d, Forall (fun f => P (f_value f)) (_all_array_fields d) -> P (VDc d)) ->
  forall v, P v.
Proof.
  intros HN HO HA HD.
  refine (fix IH (v : DcOrArray) : P v :=
            match v with
            | VNone _ => HN
            | VObject _ => HO
            | VArray a => HA a
            | VDc d => HD d _
            end).
  destruct d as [c all o s x]. simpl.
  induction all as [|f all IHall]; constructor.
  - destruct f as [m n v0 fx]. simpl. apply IH.
  - exact IHall.
Qed.

Lemma piece_missing (i : nat) (v : DcOrArray) :
  is_value_missing_of (piece i v) = is_value_missing_of v.
Proof.
  induction v as [| |a|d IH] using DcOrArray_induction; try reflexivity.
  simpl. induction (_all_array_fields d) as [|f all IHall]; [reflexivity|].
  inversion IH as [|? ? Hf Hall]; subst. simpl.
  rewrite (IHall Hall). f_equal.
  unfold is_active, is_value_missing.
  destruct (is_value_missing_of (f_value f)) eqn:Hm; simpl.
  - exact Hm.
  - exact Hf.
Qed.

Lemma piece_field_active (i : nat) (f : _ArrayField) :
  is_active (piece_field i f) = is_active f.
Proof.
  unfold piece_field. destruct (is_active f) eqn:Ha; [|exact Ha].
  unfold is_active, is_value_missing in *. simpl. now rewrite piece_missing.
Qed.

Lemma piece_field_name (i : nat) (f : _ArrayField) :
  f_name (piece_field i f) = f_name f.
Proof.
  unfold piece_field. now destruct (is_active f).
Qed.

Lemma piece_VDc (i : nat) (d : DataclassArray) :
  piece i (VDc d) = VDc (piece_dc i d).
Proof. reflexivity. Qed.


Lemma firstn_length_app (A : Type) (s t : list A) :
  firstn (length (s ++ t) - length t) (s ++ t) = s.
Proof.
  rewrite length_app.
  replace (length s + length t - length t) with (length s) by lia.
  rewrite firstn_app, firstn_all, Nat.sub_diag. simpl. apply app_nil_r.
Qed.

(** A value whose shape ends with the inner shape has the rest as host
    shape. *)
Lemma host_shape_app (f : _ArrayField) (s : Shape) :
  value_shape (f_value f) = Ok (Some (s ++ inner_shape (f_meta f))) ->
  host_shape f = Ok s.
Proof.
  intros H. unfold host_shape. rewrite H. simpl.
  destruct (inner_shape (f_meta f)) as [|n inner] eqn:Ei.
  - now rewrite app_nil_r.
  - now rewrite firstn_length_app.
Qed.

Lemma piece_shape (i n : nat) (t : Shape) (v : DcOrArray) :
  value_shape v = Ok (Some (n :: t)) ->
  value_shape (piece i v) = Ok (Some t).
Proof.
  destruct v as [| |a|d]; simpl; try discriminate.
  - intros H. injection H as ->. reflexivity.
  - unfold shape. intros H. injection H as ->. reflexivity.
Qed.

(** What binding has left in an active field. *)
Lemma bound_active_field (f : _ArrayField) :
  bind_field (unbound f) = Ok f -> is_active f = true ->
  exists x hs,
    f_xnp f = Some x /\ host_shape f = Ok hs /\
    value_shape (f_value f) = Ok (Some (hs ++ inner_shape (f_meta f))) /\
    match dtype (f_meta f) with
    | DtArray dt =>
        exists a, f_value f = VArray a /\ arr_xnp a = x /\ arr_dtype a = dt
    | DtDataclass c =>
        exists e, f_value f = VDc e /\ _xnp e = x /\ isinstance (VDc e) c = true
    end.
Proof.
  intros Hb Ha. unfold is_active in Ha. apply negb_true_iff in Ha.
  destruct (bind_active (unbound f) f Hb Ha)
    as (_ & _ & _ & x & hs & Hx & Hhs & Hvs & Hd).
  simpl in *. exists x, hs. repeat split; try assumption.
  destruct (dtype (f_meta f)) as [dt|c].
  - destruct Hd as (a & Hv & -> & Hv'). rewrite Hv in Hv'.
    injection Hv' as Hv'. exists a. split; [assumption|].
    rewrite Hv' at 1 3. split; reflexivity.
  - destruct Hd as (e & Hv & -> & _ & Hinst). exists e. auto.
Qed.

(** The [i]-th item of the value of an active field binds as it is, with
    the rest of the host shape. *)
Lemma piece_binds (f : _ArrayField) (i m : nat) (s : Shape) :
  bind_field (unbound f) = Ok f -> is_active f = true ->
  host_shape f = Ok (S m :: s) ->
  bind_field (unbound (with_value (piece i (f_value f)) f)) =
    Ok (with_value (piece i (f_value f)) f) /\
  host_shape (with_value (piece i (f_value f)) f) = Ok s.
Proof.
  intros Hb Ha Hhs.
  destruct (bound_active_field f Hb Ha) as (x & hs & Hx & Hhs' & Hvs & Hd).
  rewrite Hhs in Hhs'. injection Hhs' as <-.
  assert (value_shape (piece i (f_value f)) =
            Ok (Some (s ++ inner_shape (f_meta f)))) as Hps
      by (apply (piece_shape i (S m)); exact Hvs).
  assert (host_shape (with_value (piece i (f_value f)) f) = Ok s) as Hph
      by (apply host_shape_app; exact Hps).
  split; [|exact Hph].
  unfold _ArrayField__post_init__.
  assert (is_value_missing (unbound (with_value (piece i (f_value f)) f))
          = false) as ->.
  { unfold is_value_missing. simpl. rewrite piece_missing.
    unfold is_active, is_value_missing in Ha. now apply negb_true_iff in Ha. }
  destruct f as [meta name v fx]. simpl in *.
  destruct (dtype meta) as [dt|c].
  - destruct Hd as (a & -> & Hax & Hadt). subst fx dt x.
    unfold _init_array, with_value, unbound, set_value_xnp. simpl.
    unfold asarray. simpl. rewrite String.eqb_refl.
    unfold with_value in Hph. simpl in Hph. rewrite Hph. simpl.
    simpl in Hps. injection Hps as ->.
    assert (Shape_eqb (s ++ inner_shape meta) (s ++ inner_shape meta) = true)
      as -> by now apply Shape_eqb_eq.
    reflexivity.
  - destruct Hd as (e & -> & Hex & Hinst). subst fx x.
    unfold _init_dataclass, with_value, unbound, set_value_xnp. simpl.
    simpl in Hinst. rewrite Hinst. cbn [bind].
    unfold with_value in Hph. simpl in Hph. rewrite Hph.
    simpl in Hps. injection Hps as Hps.
    cbn [bind f_value value_shape shape _shape f_meta]. rewrite Hps.
    assert (Shape_eqb (s ++ inner_shape meta) (s ++ inner_shape meta) = true)
      as -> by now apply Shape_eqb_eq.
    reflexivity.
Qed.


(** The active fields of a constructed record with a batch shape. *)
Lemma constructed_active (d : DataclassArray) (hs : Shape) :
  constructed d -> _shape d = Some hs ->
  _array_fields d <> [] /\
  forall f, In f (_array_fields d) ->
    bind_field (unbound f) = Ok f /\ is_active f = true /\
    f_xnp f = Some (_xnp d) /\ host_shape f = Ok hs.
Proof.
  intros (_ & _ & Hidem & Hp & _) Hs.
  destruct (post_init_inv _ _ _ _ Hp) as (_ & _ & _ & _ & _ & [[_ [Hn _]]|Hsome]).
  - congruence.
  - destruct Hsome as (Hne & s & Hs' & Hall). split; [exact Hne|].
    intros f Hf. rewrite Hs in Hs'. injection Hs' as <-.
    destruct (Hall f Hf) as [Hx Hhs].
    pose proof Hf as Hf'. apply filter_In in Hf' as [Hin Ha].
    auto.
Qed.

Lemma NoDup_map_inj (X Y : Type) (g : X -> Y) (l : list X) (x y : X) :
  NoDup (map g l) -> In x l -> In y l -> g x = g y -> x = y.
Proof.
  induction l as [|z l IH]; intros Hnd Hx Hy E; [destruct Hx|].
  simpl in Hnd. inversion Hnd as [|? ? Hnotin Hnd']; subst.
  destruct Hx as [->|Hx], Hy as [->|Hy]; auto.
  - exfalso. apply Hnotin. rewrite E. now apply in_map.
  - exfalso. apply Hnotin. rewrite <- E. now apply in_map.
Qed.

(** Looking a field up in the changes that name the active fields. *)
Lemma lookup_active_changes (all0 : list _ArrayField)
  (g : _ArrayField -> DcOrArray) (f : _ArrayField) :
  NoDup (map (@f_name _) all0) -> In f all0 ->
  lookup (f_name f)
    (map (fun f0 => (f_name f0, g f0)) (filter (@is_active scalar) all0)) =
    if is_active f then Some (g f) else None.
Proof.
  intros Hnd Hin. destruct (is_active f) eqn:Ha.
  - apply (lookup_map_NoDup _ _ (@f_name _) g).
    + now apply NoDup_map_filter.
    + apply filter_In. auto.
  - apply lookup_None. rewrite map_fst_pairs.
    destruct (existsb _ _) eqn:He; [|reflexivity].
    apply existsb_exists in He as [n [Hn He]].
    apply String.eqb_eq in He. subst n.
    apply in_map_iff in Hn as [f' [E Hf']].
    apply filter_In in Hf' as [Hin' Ha'].
    assert (f' = f) by (apply (NoDup_map_inj _ _ (@f_name _) all0); auto).
    congruence.
Qed.

Lemma mapM_map_pointwise (X Y Z : Type) (f : Y -> result Z) (g : X -> Y)
  (h : X -> Z) (l : list X) :
  (forall x, In x l -> f (g x) = Ok (h x)) -> mapM f (map g l) = Ok (map h l).
Proof.
  intros H. rewrite mapM_map, <- mapM_pure. now apply mapM_ext_in.
Qed.

Lemma filter_active_pieces (i : nat) (all0 : list _ArrayField) :
  filter (@is_active scalar) (map (piece_field i) all0) =
  map (piece_field i) (filter (@is_active scalar) all0).
Proof.
  induction all0 as [|f all0 IH]; simpl; [reflexivity|].
  rewrite piece_field_active. destruct (is_active f); simpl; now rewrite IH.
Qed.

Lemma with_own_value (f : _ArrayField) : with_value (f_value f) f = f.
Proof. now destruct f. Qed.

(** [replace] with the [i]-th items of the active fields gives the
    [i]-th item of the record. *)
Lemma replace_pieces (d : DataclassArray) (i m : nat) (s : Shape) :
  constructed d -> wf_class (cls d) -> _shape d = Some (S m :: s) ->
  replace d (map (fun f => (f_name f, piece i (f_value f))) (_array_fields d))
    = Ok (piece_dc i d).
Proof.
  intros Hd Hwf Hs.
  pose proof (constructed_names d Hd) as Hnames.
  unfold wf_class in Hwf. rewrite Hnames in Hwf.
  destruct (constructed_active d _ Hd Hs) as [Hne Hact].
  set (g := fun f : _ArrayField =>
              if is_active f then piece i (f_value f) else f_value f).
  unfold replace, new.
  rewrite check_unexpected_incl.
  2:{ rewrite Hnames. apply replace_kwargs_incl; [|apply incl_refl].
      rewrite map_fst_pairs. intros n Hn.
      apply in_map_iff in Hn as [f [<- Hf]]. apply filter_In in Hf as [Hf _].
      now apply in_map. }
  cbn [bind].
  rewrite (init_fields_of_constructed d _ g Hd).
  2:{ intros f Hf. rewrite replace_kwargs_lookup by assumption.
      unfold _array_fields.
      rewrite (lookup_active_changes _ (fun f0 => piece i (f_value f0)) f Hwf Hf).
      unfold g. now destruct (is_active f). }
  destruct Hd as (Hfrozen & _ & Hidem & _ & Hcu & Ho). rewrite Hcu, Ho.
  cbn [bind].
  rewrite (post_init_active (cls d) _ (map (piece_field i) (_all_array_fields d))
             (other_values d) (_xnp d) s Hfrozen).
  - unfold piece_dc. rewrite Hs. reflexivity.
  - apply mapM_map_pointwise. intros f Hf. unfold g, piece_field.
    destruct (is_active f) eqn:Ha.
    + assert (In f (_array_fields d)) as Hfa by (apply filter_In; auto).
      destruct (Hact f Hfa) as (Hb & _ & _ & Hhs).
      now destruct (piece_binds f i m s Hb Ha Hhs).
    + rewrite with_own_value. now apply Hidem.
  - rewrite filter_active_pieces. fold (_array_fields d).
    destruct (_array_fields d); [congruence|discriminate].
  - intros f' Hf'. rewrite filter_active_pieces in Hf'.
    apply in_map_iff in Hf' as [f [<- Hf]].
    destruct (Hact f Hf) as (Hb & Ha & Hx & Hhs).
    unfold piece_field. rewrite Ha. split; [exact Hx|].
    now destruct (piece_binds f i m s Hb Ha Hhs).
Qed.


Lemma pykey_eqb_eq (a b : pykey) : pykey_eqb a b = true <-> a = b.
Proof.
  destruct a as [n|x], b as [m|y]; simpl; split; try discriminate.
  - intros H. apply String.eqb_eq in H. now subst.
  - intros H. injection H as ->. apply String.eqb_refl.
  - intros H. apply Bool.eqb_prop in H. now subst.
  - intros H. injection H as ->. apply Bool.eqb_reflx.
Qed.

(** The dict of the types of the inputs never holds the key [False]: the
    test [False in types] of [stack] is always false. *)
Lemma False_not_in_types (arrays : list DcOrArray) :
  dict_contains pykey_eqb (KBool false)
    (groupby pykey_eqb arrays (fun x => KType (type_name x)) (@type_name _))
  = false.
Proof.
  unfold dict_contains. destruct (existsb _ _) eqn:He; [|reflexivity].
  apply existsb_exists in He as [[k vs] [Hin Hk]]. simpl in Hk.
  apply pykey_eqb_eq in Hk. subst k.
  assert (In (KBool false)
            (map fst (groupby pykey_eqb arrays
                        (fun x => KType (type_name x)) (@type_name _)))) as H
      by (apply in_map_iff; exists (KBool false, vs); auto).
  apply (add_all_keys _ _ _ pykey_eqb pykey_eqb_eq) in H.
  destruct H as [[]|[x [_ Hx]]]. discriminate.
Qed.

Lemma fold_same_dtype (dt : np_dtype) (arrs : list (ndarray scalar)) :
  (forall b, In b arrs -> arr_dtype b = dt) ->
  fold_left (fun d b => if String.eqb d (arr_dtype b) then d
                        else result_type d (arr_dtype b)) arrs dt = dt.
Proof.
  induction arrs as [|b arrs IH]; intros H; simpl; [reflexivity|].
  rewrite (H b) by now left. rewrite String.eqb_refl.
  apply IH. intros c Hc. apply H. now right.
Qed.

(** Stacking the items of an array gives the array back. *)
Lemma xnp_stack_pieces (a : ndarray scalar) (m : nat) (t : Shape) :
  arr_shape a = S m :: t ->
  length (arr_data a) = prod_dims (arr_shape a) ->
  xnp_stack (arr_xnp a) (map (fun i => piece i (VArray a)) (seq 0 (S m)))
    = Ok (VArray a).
Proof.
  intros Hshape Hlen. unfold xnp_stack.
  set (pc := fun i => {| arr_xnp := arr_xnp a; arr_dtype := arr_dtype a;
                         arr_shape := t;
                         arr_data := chunk (prod_dims t) i (arr_data a) |}).
  assert (map (fun i => piece i (VArray a)) (seq 0 (S m)) =
          map (@VArray _) (map pc (seq 0 (S m)))) as ->.
  { rewrite map_map. apply map_ext. intros i. simpl. now rewrite Hshape. }
  rewrite mapM_map. cbn [as_ndarray]. rewrite mapM_pure, map_id. cbn [bind].
  remember (map pc (seq 0 (S m))) as arrs eqn:Earrs.
  assert (forall b, In b arrs -> arr_shape b = t /\ arr_dtype b = arr_dtype a)
    as Hall.
  { intros b Hb. rewrite Earrs in Hb. apply in_map_iff in Hb as [i [<- _]].
    split; reflexivity. }
  assert (length arrs = S m) as Hn
      by (rewrite Earrs, length_map; apply length_seq).
  destruct arrs as [|a0 rest] eqn:E; [discriminate|].
  assert (forallb (fun b => Shape_eqb (arr_shape b) (arr_shape a0)) rest = true)
    as ->.
  { apply forallb_forall. intros b Hb. apply Shape_eqb_eq.
    destruct (Hall b (or_intror Hb)) as [-> _].
    destruct (Hall a0 (or_introl eq_refl)) as [-> _]. reflexivity. }
  destruct (Hall a0 (or_introl eq_refl)) as [Hs0 Hd0].
  rewrite Hd0, fold_same_dtype
    by (intros b Hb; now destruct (Hall b (or_intror Hb))).
  rewrite Hn, Hs0. do 2 f_equal.
  assert (concat (map (fun b => arr_data (asarray astype (arr_xnp a) b (arr_dtype a)))
                    (a0 :: rest)) = arr_data a) as ->.
  { rewrite Earrs, map_map. unfold asarray, pc. simpl arr_data.
    rewrite String.eqb_refl.
    change (map (fun x => chunk (prod_dims t) x (arr_data a)) (seq 0 (S m)))
      with (map (fun i => chunk (prod_dims t) i (arr_data a)) (seq 0 (S m))).
    rewrite <- chunks_spec. apply concat_chunks.
    rewrite Hlen, Hshape. reflexivity. }
  rewrite <- Hshape. now destruct a.
Qed.

Lemma find_piece_field (i : nat) (all0 : list _ArrayField) (f : _ArrayField) :
  NoDup (map (@f_name _) all0) -> In f all0 ->
  find (fun f' => String.eqb (f_name f') (f_name f)) (map (piece_field i) all0)
    = Some (piece_field i f).
Proof.
  induction all0 as [|f0 all0 IH]; intros Hnd Hin; [destruct Hin|].
  simpl in *. inversion Hnd as [|? ? Hnotin Hnd']; subst.
  rewrite piece_field_name.
  destruct Hin as [->|Hin].
  - now rewrite String.eqb_refl.
  - destruct (String.eqb_spec (f_name f0) (f_name f)) as [E|_].
    + exfalso. apply Hnotin. rewrite E. now apply in_map.
    + now apply IH.
Qed.

(** The attribute of an item of a record is the item of the attribute. *)
Lemma getattr_piece (d : DataclassArray) (i : nat) (f : _ArrayField) :
  NoDup (map (@f_name _) (_all_array_fields d)) ->
  In f (_all_array_fields d) -> is_active f = true ->
  getattr (f_name f) (VDc (piece_dc i d)) = Ok (piece i (f_value f)).
Proof.
  intros Hnd Hin Ha. unfold getattr, piece_dc. simpl.
  rewrite (find_piece_field i _ f Hnd Hin).
  unfold piece_field. now rewrite Ha.
Qed.

Lemma iter_value_VDc (d : DataclassArray) :
  iter_value (VDc d) = (items <- __iter__ d ;; Ok (map (@VDc _) items)).
Proof.
  unfold __iter__.
  change (iter_value (VDc d)) with
    (if negb (truthy_shape (shape d)) then Raise IterationOver0d else
     field_values <- mapM_filter (@is_active _)
                       (fun f => iter_value (f_value f)) (_all_array_fields d) ;;
     items <- mapM (fun vals => replace d
                      (combine (map (@f_name _) (_array_fields d)) vals))
                (zip_star field_values) ;;
     Ok (map (@VDc _) items)).
  destruct (truthy_shape (shape d)); cbn [negb bind]; [|reflexivity].
  rewrite mapM_filter_spec. fold (_array_fields d).
  match goal with
  | |- bind ?A _ = bind (bind ?B _) _ => change B with A; destruct A
  end; reflexivity.
Qed.


Lemma stack_from_VDc (d : DataclassArray) (rest : list DcOrArray) (axis : Z) :
  stack_from (VDc d) rest axis =
    (if dict_contains pykey_eqb (KBool false)
          (groupby pykey_eqb (VDc d :: rest)
             (fun x => KType (type_name x)) (@type_name _))
     then Raise (ConflictingTypes
                   (map snd (groupby pykey_eqb (VDc d :: rest)
                               (fun x => KType (type_name x)) (@type_name _))))
     else
     if negb (axis =? 0)%Z then Raise PleaseOpenAnIssue else
     new_values <-
       mapM_filter (@is_active _)
         (fun f =>
            others <- mapM (getattr (f_name f)) rest ;;
            v <- (if is_dataclass (f_meta f)
                  then stack_from (f_value f) others 0%Z
                  else xnp_stack (xnp d) (f_value f :: others)) ;;
            Ok (f_name f, v))
         (_all_array_fields d) ;;
     merged_arr <- replace d new_values ;;
     Ok (VDc merged_arr)).
Proof. reflexivity. Qed.

(** [stack] on [first_arr = VDc d], with the call of [_map_field] as in
    the source. *)
Lemma stack_from_map_field (d : DataclassArray) (rest : list DcOrArray)
  (axis : Z) :
  stack_from (VDc d) rest axis =
    (if dict_contains pykey_eqb (KBool false)
          (groupby pykey_eqb (VDc d :: rest)
             (fun x => KType (type_name x)) (@type_name _))
     then Raise (ConflictingTypes
                   (map snd (groupby pykey_eqb (VDc d :: rest)
                               (fun x => KType (type_name x)) (@type_name _))))
     else
     if negb (axis =? 0)%Z then Raise PleaseOpenAnIssue else
     merged_arr <-
       _map_field d
         (fun f => others <- mapM (getattr (f_name f)) rest ;;
                   xnp_stack (xnp d) (f_value f :: others))
         (Some (fun f => others <- mapM (getattr (f_name f)) rest ;;
                         stack_from (f_value f) others 0%Z)) ;;
     Ok (VDc merged_arr)).
Proof.
  rewrite stack_from_VDc.
  destruct (dict_contains _ _ _); [reflexivity|].
  destruct (negb _); [reflexivity|].
  unfold _map_field. rewrite mapM_filter_spec. fold (_array_fields d).
  match goal with
  | |- bind ?A _ = bind (bind ?B _) _ => assert (A = B) as ->
  end.
  { apply mapM_ext_in. intros f _.
    destruct (is_dataclass (f_meta f));
      destruct (mapM (getattr (f_name f)) rest); reflexivity. }
  match goal with
  | |- _ = bind (bind ?B _) _ => destruct B; reflexivity
  end.
Qed.

Lemma wf_value_field (d : DataclassArray) (f : _ArrayField) :
  wf_value (VDc d) -> In f (_all_array_fields d) -> wf_value (f_value f).
Proof.
  intros (_ & _ & H) Hin.
  induction (_all_array_fields d) as [|f0 all0 IH]; [destruct Hin|].
  simpl in H. destruct H as [H0 H]. destruct Hin as [->|Hin]; auto.
Qed.

(** Stacking the items of a constructed record on its first item gives
    the record back. *)
Lemma replace_first_piece (d : DataclassArray) :
  constructed d -> wf_class (cls d) ->
  replace (piece_dc 0 d)
    (map (fun f => (f_name f, f_value f)) (_array_fields d)) = Ok d.
Proof.
  intros Hd Hwf.
  pose proof (constructed_names d Hd) as Hnames.
  unfold wf_class in Hwf. rewrite Hnames in Hwf.
  assert (map (@f_name _) (map (piece_field 0) (_all_array_fields d)) =
          map (@f_name _) (_all_array_fields d)) as Hpn.
  { rewrite map_map. apply map_ext. intros f. apply piece_field_name. }
  unfold replace.
  change (cls (piece_dc 0 d)) with (cls d).
  change (other_values (piece_dc 0 d)) with (other_values d).
  change (_all_array_fields (piece_dc 0 d))
    with (map (piece_field 0) (_all_array_fields d)).
  apply reconstruct; [exact Hd| |].
  - rewrite Hnames. apply replace_kwargs_incl.
    + rewrite map_fst_pairs. intros n Hn.
      apply in_map_iff in Hn as [f [<- Hf]]. apply filter_In in Hf as [Hf _].
      now apply in_map.
    + rewrite Hpn. apply incl_refl.
  - intros f Hf. rewrite <- (piece_field_name 0 f).
    rewrite replace_kwargs_lookup.
    + rewrite piece_field_name. unfold _array_fields.
      rewrite (lookup_active_changes _ (@f_value _) f Hwf Hf).
      unfold piece_field. now destruct (is_active f).
    + now rewrite Hpn.
    + now apply in_map.
Qed.

(** For a value as the program holds it, active and with a first
    dimension that is not 0: iterating gives its items, and stacking the
    items gives the value back. *)
Lemma iterate_stack_value (v : DcOrArray) :
  wf_value v -> is_value_missing_of v = false ->
  forall m s, value_shape v = Ok (Some (S m :: s)) ->
  iter_value v = Ok (map (fun i => piece i v) (seq 0 (S m))) /\
  match v with
  | VArray a =>
      xnp_stack (arr_xnp a) (map (fun i => piece i v) (seq 0 (S m))) = Ok v
  | VDc d =>
      stack_from (piece 0 v) (map (fun i => piece i v) (seq 1 m)) 0%Z = Ok v
  | _ => True
  end.
Proof.
  induction v as [| |a|d IH] using DcOrArray_induction;
    intros Hwf Hact m s Hshape; try discriminate.
  - (* an array *)
    simpl in Hwf, Hshape. injection Hshape as Hshape. split.
    + unfold iter_value, iter_ndarray. rewrite Hshape. cbn [bind].
      rewrite chunks_spec, !map_map. f_equal. apply map_ext. intros i.
      simpl. now rewrite Hshape.
    + now apply (xnp_stack_pieces a m s).
  - (* a nested record *)
    pose proof Hwf as (Hd & Hwfc & _).
    simpl in Hshape. injection Hshape as Hshape. unfold shape in Hshape.
    pose proof (constructed_names d Hd) as Hnames.
    pose proof Hwfc as Hnd. unfold wf_class in Hnd. rewrite Hnames in Hnd.
    destruct (constructed_active d _ Hd Hshape) as [Hne Hfields].
    assert (forall f, In f (_array_fields d) ->
              In f (_all_array_fields d) /\ is_active f = true /\
              iter_value (f_value f) =
                Ok (map (fun i => piece i (f_value f)) (seq 0 (S m))) /\
              match dtype (f_meta f) with
              | DtArray _ =>
                  xnp_stack (_xnp d)
                    (map (fun i => piece i (f_value f)) (seq 0 (S m)))
                  = Ok (f_value f)
              | DtDataclass _ =>
                  stack_from (piece 0 (f_value f))
                    (map (fun i => piece i (f_value f)) (seq 1 m)) 0%Z
                  = Ok (f_value f)
              end) as Hper.
    { intros f Hf. destruct (Hfields f Hf) as (Hb & Ha & Hx & Hhs).
      pose proof Hf as Hin. apply filter_In in Hin as [Hin _].
      destruct (bound_active_field f Hb Ha) as (x & hs & Hx' & Hhs' & Hvs & Hdt).
      rewrite Hhs in Hhs'. injection Hhs' as <-.
      rewrite Hx in Hx'. injection Hx' as <-.
      rewrite Forall_forall in IH.
      assert (is_value_missing_of (f_value f) = false) as Hm.
      { unfold is_active, is_value_missing in Ha. now apply negb_true_iff in Ha. }
      destruct (IH f Hin (wf_value_field d f Hwf Hin) Hm m
                  (s ++ inner_shape (f_meta f)) Hvs) as [Hiter Hstack].
      repeat split; try assumption.
      destruct (dtype (f_meta f)) as [dt|c].
      - destruct Hdt as (a & Hv & Hax & _). rewrite Hv in *. now rewrite <- Hax.
      - destruct Hdt as (e & Hv & _). rewrite Hv in *. exact Hstack. }
    split.
    + (* iteration *)
      change (iter_value (VDc d)) with
        (if negb (truthy_shape (shape d)) then Raise IterationOver0d else
         field_values <- mapM_filter (@is_active _)
                           (fun f => iter_value (f_value f))
                           (_all_array_fields d) ;;
         items <- mapM (fun vals => replace d
                          (combine (map (@f_name _) (_array_fields d)) vals))
                    (zip_star field_values) ;;
         Ok (map (@VDc _) items)).
      unfold shape. rewrite Hshape. cbn [truthy_shape negb].
      rewrite mapM_filter_spec. fold (_array_fields d).
      rewrite (mapM_ext_in _ _ (fun f : _ArrayField => iter_value (f_value f))
                 (fun f => Ok (map (fun i => piece i (f_value f)) (seq 0 (S m))))
                 (_array_fields d)).
      2:{ intros f Hf. now destruct (Hper f Hf) as (_ & _ & Hiter & _). }
      rewrite mapM_pure. cbn [bind].
      rewrite (zip_star_map_map _ _
                 (fun i (f : _ArrayField) => piece i (f_value f))
                 (_array_fields d) (seq 0 (S m)) Hne).
      rewrite mapM_map.
      rewrite (mapM_ext_in _ _ _ (fun i => Ok (piece_dc i d)) (seq 0 (S m))).
      2:{ intros i _. rewrite combine_map_map.
          now apply (replace_pieces d i m s). }
      rewrite mapM_pure. cbn [bind]. now rewrite map_map.
    + (* stacking *)
      rewrite piece_VDc.
      rewrite (map_ext _ (fun i => VDc (piece_dc i d))) by reflexivity.
      rewrite stack_from_VDc, False_not_in_types. cbn [Z.eqb negb].
      change (_all_array_fields (piece_dc 0 d))
        with (map (piece_field 0) (_all_array_fields d)).
      rewrite mapM_filter_spec, filter_active_pieces.
      fold (_array_fields d).
      match goal with
      | |- context [mapM ?F (map (piece_field 0) ?L)] =>
          rewrite (mapM_map_pointwise _ _ _ F (piece_field 0)
                     (fun f : _ArrayField_ DcOrArray => (f_name f, f_value f))
                     L)
      end.
      * cbn [bind].
        match goal with
        | |- bind ?X _ = _ =>
            replace X with (@Ok DataclassArray d)
              by (symmetry; exact (replace_first_piece d Hd Hwfc))
        end.
        reflexivity.
      * intros f Hf. destruct (Hper f Hf) as (Hin & Ha & _ & Hstack).
        rewrite piece_field_name.
        match goal with
        | |- context [mapM ?F (map ?G (seq 1 m))] =>
            rewrite (mapM_map_pointwise _ _ _ F G
                       (fun i => piece i (f_value f)) (seq 1 m))
              by (intros i _; now apply getattr_piece)
        end.
        cbn [bind]. unfold piece_field. rewrite Ha.
        unfold is_dataclass. cbn [with_value f_meta f_value].
        destruct (dtype (f_meta f)) as [dt|c].
        -- change (xnp (piece_dc 0 d)) with (_xnp d).
           change (piece 0 (f_value f)
                   :: map (fun i => piece i (f_value f)) (seq 1 m))
             with (map (fun i => piece i (f_value f)) (seq 0 (S m))).
           rewrite Hstack. reflexivity.
        -- rewrite Hstack. reflexivity.
Qed.


Lemma wf_fields_forall (l : list _ArrayField) :
  fold_right (fun f P => wf_value (f_value f) /\ P) True l <->
  forall f, In f l -> wf_value (f_value f).
Proof.
  induction l as [|f0 l IH]; simpl.
  - split; [intros _ f []|auto].
  - rewrite IH. split.
    + intros [H0 H] f [<-|Hf]; auto.
    + intros H. split; [apply H; now left|]. intros f Hf. apply H. now right.
Qed.

Lemma bind_wf (f f' : _ArrayField) :
  bind_field f = Ok f' -> wf_value (f_value f) -> wf_value (f_value f').
Proof.
  intros Hb Hwf. destruct (is_value_missing f) eqn:Hm.
  - rewrite bind_missing in Hb by assumption. now injection Hb as <-.
  - destruct (bind_active f f' Hb Hm) as (_ & _ & _ & x & hs & _ & _ & _ & Hd).
    destruct (dtype (f_meta f)) as [dt|c].
    + destruct Hd as (a & Hv & _ & ->). rewrite Hv in Hwf. simpl in *.
      destruct (String.eqb (arr_dtype a) dt); [|rewrite length_map]; exact Hwf.
    + destruct Hd as (e & Hv & _ & -> & _). now rewrite Hv in Hwf.
Qed.

(** The constructor, given values as the program holds them, returns a
    record as the program holds it. *)
Lemma new_wf (c : dataclass_type) (kw : list (string * DcOrArray))
  (okw : list (string * pyobj)) (d : DataclassArray) :
  new c kw okw = Ok d -> wf_class c ->
  (forall p, In p kw -> wf_value (snd p)) ->
  wf_value (VDc d).
Proof.
  intros Hnew Hwfc Hkw.
  destruct (new_constructed _ _ _ _ Hnew) as [Hc Hd].
  split; [exact Hd|]. split; [now rewrite Hc|].
  apply wf_fields_forall. intros f' Hf'.
  destruct (new_inv _ _ _ _ Hnew) as (fields & others & Hf & _ & Hp).
  destruct (post_init_inv _ _ _ _ Hp) as (_ & Hbind & _).
  apply mapM_Ok_Forall2 in Hbind. apply Forall2_flip in Hbind.
  destruct (Forall2_In_l _ _ _ _ _ _ Hbind Hf') as (f & Hfin & Hb).
  apply (bind_wf f f' Hb).
  unfold init_fields in Hf. apply mapM_Ok_Forall2 in Hf.
  apply Forall2_flip in Hf.
  destruct (Forall2_In_l _ _ _ _ _ _ Hf Hfin) as (nm & _ & Hnm).
  simpl in Hnm. unfold bind_kwarg in Hnm.
  destruct (lookup (fst nm) kw) as [v|] eqn:El; [|discriminate].
  simpl in Hnm. injection Hnm as <-. simpl.
  clear -El Hkw. induction kw as [|[n v0] kw IH]; [discriminate|].
  simpl in El. destruct (String.eqb n (fst nm)).
  - injection El as <-. apply (Hkw (n, v0)). now left.
  - apply IH; [|exact El]. intros p Hp. apply Hkw. now right.
Qed.

Lemma map_VDc_inj (l1 l2 : list DataclassArray) :
  map (@VDc _) l1 = map (@VDc _) l2 -> l1 = l2.
Proof.
  revert l2. induction l1 as [|x l1 IH]; intros [|y l2] H; try discriminate.
  - reflexivity.
  - simpl in H. injection H as -> H. f_equal. now apply IH.
Qed.

(** Iterating over a record as the program holds it, with a first
    dimension that is not 0, then stacking. *)
Lemma iterate_then_stack_wf (d : DataclassArray) (m : nat) (s : Shape) :
  wf_value (VDc d) ->
  shape d = Some (S m :: s) ->
  exists items,
    __iter__ d = Ok items /\ length items = S m /\
    stack (map (@VDc _) items) 0%Z = Ok (VDc d).
Proof.
  intros Hwf Hshape. pose proof Hwf as (Hd & _ & _).
  destruct (constructed_active d _ Hd Hshape) as [Hne _].
  assert (is_value_missing_of (VDc d) = false) as Hact.
  { simpl. destruct (forallb _ _) eqn:Hall; [|reflexivity].
    exfalso. apply Hne. now apply no_active_all_missing. }
  destruct (iterate_stack_value (VDc d) Hwf Hact m s) as [Hiter Hstack].
  { simpl. now rewrite Hshape. }
  rewrite iter_value_VDc in Hiter.
  destruct (__iter__ d) as [items|e]; cbn [bind] in Hiter; [|discriminate].
  injection Hiter as Hiter.
  assert (items = map (fun i => piece_dc i d) (seq 0 (S m))) as ->.
  { apply map_VDc_inj. rewrite map_map. exact Hiter. }
  eexists. split; [reflexivity|].
  split; [now rewrite length_map, length_seq|].
  rewrite map_map. exact Hstack.
Qed.


End Properties.

(** * Further properties *)

(** ** The normal form of an index *)

Section IndexNormalForm.

Lemma count_not_none_app (a b : _Indices) :
  _count_not_none (a ++ b) = _count_not_none a + _count_not_none b.
Proof.
  unfold _count_not_none. now rewrite filter_app, length_app.
Qed.

Lemma count_full_slices (n : nat) :
  _count_not_none (repeat full_slice n) = n /\
  _count_ellipsis (repeat full_slice n) = 0.
Proof.
  unfold _count_not_none, _count_ellipsis.
  induction n as [|n [IH1 IH2]]; simpl; [split; reflexivity|].
  split; [now rewrite IH1 | exact IH2].
Qed.

Lemma count_not_none_marker (before after : _Indices) :
  _count_not_none (before ++ IEllipsis :: after) =
  _count_not_none before + _count_not_none after.
Proof. rewrite count_not_none_app. reflexivity. Qed.

Lemma count_normalised (before after : _Indices) (n : nat) :
  _count_ellipsis before = 0 -> _count_ellipsis after = 0 ->
  _count_ellipsis (before ++ repeat full_slice n ++ after) = 0 /\
  _count_not_none (before ++ repeat full_slice n ++ after) =
    _count_not_none before + n + _count_not_none after.
Proof.
  intros Hb Ha. destruct (count_full_slices n) as [Hc He].
  rewrite !count_ellipsis_app, !count_not_none_app, He, Hb, Ha, Hc.
  split; lia.
Qed.

(** What [indices.index(Ellipsis)] returns is the position of the first
    marker, and no item before it is an array it cannot compare. *)
Lemma tuple_index_Ellipsis_inv (indices : _Indices) (i : nat) :
  tuple_index_Ellipsis indices = Ok i ->
  exists before after,
    indices = before ++ IEllipsis :: after /\ length before = i /\
    _count_ellipsis before = 0 /\
    forallb (fun k => negb (is_big_array k)) before = true.
Proof.
  revert i. induction indices as [|k rest IH]; intros i H; [discriminate|].
  simpl in H. destruct (eq_Ellipsis k) as [b|e] eqn:Ek; [|discriminate].
  cbn [bind] in H. destruct b.
  - injection H as <-. exists [], rest.
    destruct k; try discriminate.
    + repeat split.
    + unfold eq_Ellipsis in Ek.
      destruct (is_big_array (IArray dims)); discriminate.
  - destruct (tuple_index_Ellipsis rest) as [j|e] eqn:Er; [|discriminate].
    cbn [bind] in H. injection H as <-.
    destruct (IH j eq_refl) as (before & after & -> & Hlen & Hnone & Hsmall).
    exists (k :: before), after. simpl. rewrite Hlen, Hsmall.
    repeat split.
    + unfold _count_ellipsis in *. simpl.
      destruct k; simpl; try exact Hnone. discriminate.
    + destruct k; try reflexivity.
      unfold eq_Ellipsis in Ek.
      destruct (is_big_array (IArray dims)); [discriminate|reflexivity].
Qed.

(** The two ways [_to_absolute_indices] returns. *)
Lemma to_absolute_indices_inv (indices r : _Indices) (s : Shape) :
  _to_absolute_indices indices (Some s) = Ok r ->
  _count_not_none indices <= length s /\
  ((_count_ellipsis indices = 0 /\ r = indices) \/
   (exists before after,
      indices = before ++ IEllipsis :: after /\
      _count_ellipsis before = 0 /\ _count_ellipsis after = 0 /\
      r = before
          ++ repeat full_slice (length s - _count_not_none indices)
          ++ after)).
Proof.
  unfold _to_absolute_indices. intros H.
  destruct (Nat.ltb_spec 1 (_count_ellipsis indices)) as [|Hle]; [discriminate|].
  cbn [len_shape bind] in H.
  destruct (Nat.ltb_spec (length s) (_count_not_none indices)) as [|Hvalid];
    [discriminate|].
  split; [exact Hvalid|].
  destruct (Nat.eqb_spec (_count_ellipsis indices) 0) as [H0|H1].
  - left. injection H as <-. auto.
  - right.
    destruct (tuple_index_Ellipsis indices) as [i|e] eqn:Ei; [|discriminate].
    cbn [bind] in H. injection H as <-.
    destruct (tuple_index_Ellipsis_inv _ _ Ei)
      as (before & after & E & Hlen & Hnone & _).
    exists before, after. subst indices i.
    assert (_count_ellipsis after = 0) as Hafter.
    { rewrite count_ellipsis_app in Hle. unfold _count_ellipsis at 2 in Hle.
      simpl in Hle. fold (_count_ellipsis after) in Hle. lia. }
    repeat split; try assumption.
    rewrite firstn_app, firstn_all, Nat.sub_diag. simpl. rewrite app_nil_r.
    rewrite skipn_app.
    replace (length before + 1 - length before) with 1 by lia.
    rewrite skipn_all2 by lia. reflexivity.
Qed.

(** X1: the normal form of an index.  Whenever [_to_absolute_indices]
    returns, on a batch shape [s], the tuple it returns holds no ellipsis;
    it is the tuple given when that held none; otherwise it is the tuple
    given with its marker replaced by full slices, and its items that
    consume a dimension are exactly as many as [s] has dimensions. *)
Theorem normalised_index_covers_the_batch_shape (indices r : _Indices)
  (s : Shape) :
  _to_absolute_indices indices (Some s) = Ok r ->
  _count_ellipsis r = 0 /\
  (_count_ellipsis indices = 0 -> r = indices) /\
  (_count_ellipsis indices <> 0 ->
   _count_not_none r = length s /\
   exists before after,
     indices = before ++ IEllipsis :: after /\
     r = before
         ++ repeat full_slice (length s - _count_not_none indices)
         ++ after).
Proof.
  intros H.
  destruct (to_absolute_indices_inv _ _ _ H)
    as [Hvalid [[H0 ->]|(before & after & -> & Hb & Ha & ->)]].
  - split; [exact H0|]. split; [reflexivity|]. intros Hn. contradiction.
  - destruct (count_normalised before after
                (length s - _count_not_none (before ++ IEllipsis :: after))
                Hb Ha) as [He Hc].
    split; [exact He|]. split.
    + rewrite count_ellipsis_app. unfold _count_ellipsis at 2. simpl.
      intros Hz. fold (_count_ellipsis after) in Hz. lia.
    + intros _. split.
      * rewrite Hc. rewrite count_not_none_marker in Hvalid |- *. lia.
      * exists before, after. auto.
Qed.

(** X2: normalising is idempotent: the tuple [_to_absolute_indices]
    returns is returned unchanged when it is normalised again on the same
    batch shape. *)
Theorem to_absolute_indices_idempotent (indices r : _Indices) (s : Shape) :
  _to_absolute_indices indices (Some s) = Ok r ->
  _to_absolute_indices r (Some s) = Ok r.
Proof.
  intros H.
  destruct (to_absolute_indices_inv _ _ _ H)
    as [Hvalid [[H0 ->]|(before & after & -> & Hb & Ha & ->)]];
    [exact H|].
  destruct (count_normalised before after
              (length s - _count_not_none (before ++ IEllipsis :: after))
              Hb Ha) as [He Hc].
  apply to_absolute_indices_no_marker; [exact He|].
  rewrite Hc. rewrite count_not_none_marker in Hvalid |- *. lia.
Qed.

End IndexNormalForm.

(** ** Binding and construction, further *)

Section Construction.

Variable scalar : Type.
Variable astype : np_dtype -> np_dtype -> scalar -> scalar.
Variable result_type : np_dtype -> np_dtype -> np_dtype.

Local Abbreviation DataclassArray := (DataclassArray scalar).
Local Abbreviation DcOrArray := (DcOrArray scalar).
Local Abbreviation _ArrayField := (_ArrayField scalar).
Local Abbreviation bind_field := (_ArrayField__post_init__ astype).
Local Abbreviation __post_init__ := (__post_init__ astype).
Local Abbreviation new := (new astype).
Local Abbreviation replace := (replace astype).
Local Abbreviation iter_value := (iter_value astype).
Local Abbreviation __iter__ := (__iter__ astype).
Local Abbreviation xnp_stack := (xnp_stack astype result_type).
Local Abbreviation stack_from := (stack_from astype result_type).
Local Abbreviation stack := (stack astype result_type).
Local Abbreviation _map_field := (_map_field astype).
Local Abbreviation constructed := (constructed astype).
Local Abbreviation wf_value := (wf_value astype).

Lemma firstn_suffix (A : Type) (s inner : list A) :
  firstn (length s - length inner) s ++ inner = s <->
  exists hs, s = hs ++ inner.
Proof.
  split.
  - intros H. eexists. symmetry. exact H.
  - intros [hs ->]. now rewrite firstn_length_app.
Qed.

(** The host shape of a field that holds an array. *)
Lemma host_shape_of_array (m : _ArrayFieldMetadata) (n : string)
  (a : ndarray scalar) (x : option NpModule) :
  host_shape {| f_meta := m; f_name := n; f_value := VArray a; f_xnp := x |} =
    Ok (firstn (length (arr_shape a) - length (inner_shape m)) (arr_shape a)).
Proof.
  unfold host_shape. simpl. destruct (inner_shape m); [|reflexivity].
  simpl. now rewrite Nat.sub_0_r, firstn_all.
Qed.

(** X3: a field declared with a dtype, given an array, binds exactly when
    the shape of the array ends with the declared inner shape: it then
    holds the array converted to the declared dtype, in the backend of the
    array, and its host shape is what stands before the inner shape;
    otherwise binding raises the [ValueError] that reports the inner
    shape, the field and the shape of the array. *)
Theorem array_field_binds_iff_trailing_dimensions (inner : Shape)
  (dt : np_dtype) (n : string) (a : ndarray scalar) (x : option NpModule) :
  let f : _ArrayField :=
    {| f_meta := {| inner_shape := inner; dtype := DtArray dt |};
       f_name := n; f_value := VArray a; f_xnp := x |} in
  let f' : _ArrayField :=
    {| f_meta := {| inner_shape := inner; dtype := DtArray dt |};
       f_name := n; f_value := VArray (asarray astype (arr_xnp a) a dt);
       f_xnp := Some (arr_xnp a) |} in
  (forall hs, arr_shape a = hs ++ inner ->
     bind_field f = Ok f' /\ host_shape f' = Ok hs) /\
  ((forall hs, arr_shape a <> hs ++ inner) ->
     bind_field f = Raise (ExpectedLastDimensions inner n (arr_shape a))) /\
  class_of (ExpectedLastDimensions inner n (arr_shape a)) = ValueError.
Proof.
  intros f f'.
  assert (bind_field f =
            if Shape_eqb
                 (firstn (length (arr_shape a) - length inner) (arr_shape a)
                  ++ inner) (arr_shape a)
            then Ok f'
            else Raise (ExpectedLastDimensions inner n (arr_shape a))) as E.
  { unfold _ArrayField__post_init__, f. cbn [is_value_missing f_value
      is_value_missing_of f_meta dtype _init_array bind f_name].
    unfold set_value_xnp. cbn [f_meta f_name f_value value_shape bind].
    rewrite host_shape_of_array. reflexivity. }
  split; [|split; [|reflexivity]].
  - intros hs Hs.
    assert (firstn (length (arr_shape a) - length inner) (arr_shape a) = hs)
      as Hhs by (rewrite Hs; apply firstn_length_app).
    split.
    + rewrite E, Hhs, <- Hs.
      assert (Shape_eqb (arr_shape a) (arr_shape a) = true) as ->
          by now apply Shape_eqb_eq.
      reflexivity.
    + unfold f'. rewrite host_shape_of_array. simpl. now rewrite Hhs.
  - intros Hnot. rewrite E.
    destruct (Shape_eqb _ _) eqn:Heq; [|reflexivity].
    apply Shape_eqb_eq in Heq. exfalso.
    apply (Hnot (firstn (length (arr_shape a) - length inner) (arr_shape a))).
    now symmetry.
Qed.

(** X4: the type of the value of a field is checked on active values
    only.  A record given to a field declared with a dtype raises the
    [TypeError] of the field, unless the record has no active field: it
    then counts as missing and the field binds unchanged.  An array given
    to a field declared with a class, and an active record that is no
    instance of that class, raise the same [TypeError]. *)
Theorem field_type_is_checked_on_active_values (m : _ArrayFieldMetadata)
  (n : string) (x : option NpModule) :
  (forall dt d, dtype m = DtArray dt ->
     bind_field {| f_meta := m; f_name := n; f_value := VDc d; f_xnp := x |} =
       if is_value_missing_of (VDc d)
       then Ok {| f_meta := m; f_name := n; f_value := VDc d; f_xnp := x |}
       else Raise (FieldShouldBe n)) /\
  (forall c a, dtype m = DtDataclass c ->
     bind_field {| f_meta := m; f_name := n; f_value := VArray a; f_xnp := x |} =
       Raise (FieldShouldBe n)) /\
  (forall c d, dtype m = DtDataclass c ->
     is_value_missing_of (VDc d) = false -> isinstance (VDc d) c = false ->
     bind_field {| f_meta := m; f_name := n; f_value := VDc d; f_xnp := x |} =
       Raise (FieldShouldBe n)) /\
  class_of (FieldShouldBe n) = TypeError.
Proof.
  split; [|split; [|split; [|reflexivity]]].
  - intros dt d Hdt. unfold _ArrayField__post_init__, is_value_missing.
    cbn [f_value f_meta]. rewrite Hdt.
    destruct (is_value_missing_of (VDc d)); reflexivity.
  - intros c a Hdt. unfold _ArrayField__post_init__, is_value_missing.
    cbn [f_value f_meta is_value_missing_of]. rewrite Hdt. reflexivity.
  - intros c d Hdt Hact Hinst. unfold _ArrayField__post_init__, is_value_missing.
    cbn [f_value f_meta]. rewrite Hact, Hdt.
    unfold _init_dataclass. cbn [f_value]. rewrite Hinst. reflexivity.
Qed.

(** X5: the active fields of a record are of one backend.  The backend of
    a constructed record is the one of each of its active fields; and a
    construction (of a frozen class, whose fields bind) in which two
    active fields are of two backends fails with the [ValueError] that
    lists the fields under the names of their backends. *)
Theorem backends_of_active_fields_agree :
  (forall c fields others d,
     __post_init__ c fields others = Ok d ->
     forall f, In f (_array_fields d) -> f_xnp f = Some (xnp d)) /\
  (forall c fields others all f1 f2 x1 x2,
     frozen c = true ->
     mapM bind_field fields = Ok all ->
     In f1 (filter (@is_active scalar) all) ->
     In f2 (filter (@is_active scalar) all) ->
     f_xnp f1 = Some x1 -> f_xnp f2 = Some x2 -> x1 <> x2 ->
     exists xnps,
       __post_init__ c fields others = Raise (ConflictingNumpyTypes xnps) /\
       class_of (ConflictingNumpyTypes xnps) = ValueError /\
       (exists names,
          In (NpModule_name x1, names) xnps /\ In (f_name f1) names) /\
       (exists names,
          In (NpModule_name x2, names) xnps /\ In (f_name f2) names)).
Proof.
  split.
  - intros c fields others d H f Hf.
    destruct (post_init_inv _ _ _ _ _ _ H)
      as (_ & _ & _ & _ & _ & [[Hnone _]|Hsome]).
    + rewrite Hnone in Hf. destruct Hf.
    + destruct Hsome as (_ & s & Hs & Hall). now apply Hall.
  - intros c fields others all f1 f2 x1 x2 Hfrozen Hbind Hf1 Hf2 Hx1 Hx2 Hne.
    unfold __post_init__. rewrite Hfrozen, Hbind. simpl.
    destruct all as [|f0 all0] eqn:Eall; [destruct Hf1|].
    rewrite <- Eall in *. clear Eall.
    set (active := filter (@is_active scalar) all) in *.
    destruct (mapM_total _ _
                (fun f => x <- get_f_xnp f ;; Ok (x, f_name f)) active)
      as [xk Hxk].
    { intros f Hf.
      destruct (active_bound _ _ _ _ _ Hbind Hf) as (y & _ & Hy & _).
      unfold get_f_xnp. rewrite Hy. simpl. eauto. }
    rewrite Hxk. simpl.
    apply mapM_Ok_Forall2 in Hxk.
    destruct (Forall2_In_l _ _ _ _ _ _ Hxk Hf1) as [p1 [Hp1 Hk1]].
    destruct (Forall2_In_l _ _ _ _ _ _ Hxk Hf2) as [p2 [Hp2 Hk2]].
    unfold get_f_xnp in Hk1, Hk2. rewrite Hx1 in Hk1. rewrite Hx2 in Hk2.
    simpl in Hk1, Hk2. injection Hk1 as <-. injection Hk2 as <-.
    assert (2 <= length (groupby NpModule_eqb xk fst snd)) as Hlen.
    { apply (groupby_two_keys _ _ _ _ NpModule_eqb_eq fst snd xk _ _ Hp1 Hp2).
      exact Hne. }
    apply Nat.ltb_lt in Hlen. rewrite Hlen.
    eexists. split; [reflexivity|]. split; [reflexivity|].
    destruct (groupby_lists _ _ _ _ NpModule_eqb_eq fst snd xk _ Hp1)
      as (names1 & Hin1 & Hn1).
    destruct (groupby_lists _ _ _ _ NpModule_eqb_eq fst snd xk _ Hp2)
      as (names2 & Hin2 & Hn2).
    split.
    + exists names1. split; [|exact Hn1].
      apply in_map_iff. exists (x1, names1). auto.
    + exists names2. split; [|exact Hn2].
      apply in_map_iff. exists (x2, names2). auto.
Qed.

(** X6: what the constructor stores.  A record the constructor returned
    has the class it was asked for and one field for each declared array
    field, in declaration order.  A field whose keyword argument is
    missing keeps that value and has no backend.  Every other field has
    the backend of the record; its value is the array given, converted to
    the declared dtype in the backend of that array, of shape batch shape
    followed by inner shape; or the record given, an instance of the
    declared class whose own batch shape is batch shape followed by inner
    shape. *)
Theorem constructor_normalises_active_fields (c : dataclass_type)
  (kw : list (string * DcOrArray)) (okw : list (string * pyobj))
  (d : DataclassArray) :
  new c kw okw = Ok d ->
  cls d = c /\
  map (fun f => (f_name f, f_meta f)) (_all_array_fields d) = array_fields c /\
  forall f, In f (_all_array_fields d) ->
    exists v, lookup (f_name f) kw = Some v /\
      if is_value_missing_of v
      then f_value f = v /\ f_xnp f = None
      else
        exists s, shape d = Some s /\ f_xnp f = Some (xnp d) /\
          match dtype (f_meta f) with
          | DtArray dt =>
              exists a, v = VArray a /\ arr_xnp a = xnp d /\
                        arr_shape a = s ++ inner_shape (f_meta f) /\
                        f_value f = VArray (asarray astype (arr_xnp a) a dt)
          | DtDataclass c' =>
              exists e, v = VDc e /\ xnp e = xnp d /\
                        isinstance v c' = true /\
                        shape e = Some (s ++ inner_shape (f_meta f)) /\
                        f_value f = v
          end.
Proof.
  intros Hnew.
  destruct (new_constructed _ _ _ _ _ _ Hnew) as [Hc Hd].
  split; [exact Hc|]. split.
  { destruct Hd as (_ & Hfields & _). now rewrite <- Hc, Hfields. }
  intros f Hf.
  destruct (new_inv _ _ _ _ _ _ Hnew) as (fields & others & Hfs & _ & Hp).
  destruct (post_init_inv _ _ _ _ _ _ Hp)
    as (_ & Hbind & _ & _ & _ & Hcases).
  apply mapM_Ok_Forall2 in Hbind. apply Forall2_flip in Hbind.
  destruct (Forall2_In_l _ _ _ _ _ _ Hbind Hf) as (f0 & Hf0 & Hb).
  unfold init_fields in Hfs. apply mapM_Ok_Forall2 in Hfs.
  apply Forall2_flip in Hfs.
  destruct (Forall2_In_l _ _ _ _ _ _ Hfs Hf0) as (nm & _ & Hnm).
  simpl in Hnm, Hb. unfold bind_kwarg in Hnm.
  destruct (lookup (fst nm) kw) as [v|] eqn:El; [|discriminate].
  simpl in Hnm. injection Hnm as <-.
  exists v. destruct (bind_keeps _ _ _ _ Hb) as (Hn & Hm & _).
  simpl in Hn, Hm. split; [now rewrite Hn|].
  destruct (is_value_missing_of v) eqn:Hmiss.
  - rewrite bind_missing in Hb by exact Hmiss. injection Hb as <-. auto.
  - destruct (bind_active _ _ _ _ Hb Hmiss)
      as (_ & _ & Hact & x & hs & Hx & Hhs & Hvs & Hdt).
    simpl in Hvs, Hdt.
    assert (In f (_array_fields d)) as Hfa.
    { apply filter_In. split; [exact Hf|]. unfold is_active. now rewrite Hact. }
    destruct Hcases as [[Hnone _]|(_ & s & Hs & Hall)];
      [rewrite Hnone in Hfa; destruct Hfa|].
    destruct (Hall f Hfa) as [Hx' Hhs'].
    rewrite Hx in Hx'. injection Hx' as ->.
    rewrite Hhs in Hhs'. injection Hhs' as ->.
    exists s. split; [exact Hs|]. split; [exact Hx|].
    rewrite Hm. simpl.
    destruct (dtype (snd nm)) as [dt|c'].
    + destruct Hdt as (a & -> & Hax & Hv). exists a.
      rewrite Hv in Hvs. simpl in Hvs. injection Hvs as Hvs.
      rewrite <- Hax. auto.
    + destruct Hdt as (e & -> & Hex & Hv & Hinst). exists e.
      rewrite Hv in Hvs. simpl in Hvs. injection Hvs as Hvs.
      repeat split; auto.
Qed.

(** X7: [replace] without any change re-runs the constructor on the
    fields of the record and gives the record back, for every record the
    constructor returned (of a class that declares each field name
    once). *)
Theorem replace_without_change_is_identity (c : dataclass_type)
  (kw : list (string * DcOrArray)) (okw : list (string * pyobj))
  (d : DataclassArray) :
  wf_class c ->
  new c kw okw = Ok d ->
  replace d [] = Ok d.
Proof.
  intros Hwf Hnew.
  destruct (new_constructed _ _ _ _ _ _ Hnew) as [Hc Hd].
  pose proof (constructed_names _ _ d Hd) as Hnames.
  unfold wf_class in Hwf. rewrite <- Hc, Hnames in Hwf.
  unfold replace. apply reconstruct; [exact Hd| |].
  - rewrite Hnames. apply replace_kwargs_incl; [|apply incl_refl].
    intros n [].
  - intros f Hf.
    now rewrite (replace_kwargs_lookup _ astype result_type _ _ f Hwf Hf).
Qed.


(** X9: a record without any active field.  When every field given to
    the constructor is missing (and there is at least one field),
    [__post_init__] returns a record of shape [None]; that record is
    truthy, and taking its length, iterating over it and indexing it
    (with at most one ellipsis) each raise a [TypeError]. *)
Theorem record_without_active_field_is_unsized (c : dataclass_type)
  (fields : list _ArrayField) (others : list (string * pyobj)) :
  frozen c = true ->
  fields <> [] ->
  forallb (@is_value_missing scalar) fields = true ->
  exists d,
    __post_init__ c fields others = Ok d /\
    shape d = None /\ _array_fields d = [] /\
    __bool__ d = Ok true /\
    __len__ d = Raise (LenOfUnsized (qualname c) None) /\
    __iter__ d = Raise IterationOver0d /\
    (forall indices, _count_ellipsis (index_exp indices) <= 1 ->
                     getitem_indices d indices = Raise NoneHasNoLen) /\
    class_of (LenOfUnsized (qualname c) None) = TypeError /\
    class_of IterationOver0d = TypeError /\
    class_of NoneHasNoLen = TypeError.
Proof.
  intros Hfrozen Hne Hmiss.
  eexists. split.
  { apply (post_init_no_active _ _ c fields fields others Hfrozen).
    - now apply bind_all_missing.
    - exact Hne.
    - now apply no_active_all_missing. }
  split; [reflexivity|]. split.
  { unfold _array_fields. simpl. now apply no_active_all_missing. }
  split; [reflexivity|]. split; [reflexivity|]. split; [reflexivity|].
  split; [|repeat split].
  intros indices Hle. unfold getitem_indices, _to_absolute_indices. simpl.
  destruct (Nat.ltb_spec 1 (_count_ellipsis (index_exp indices))); [lia|].
  reflexivity.
Qed.

(** ** Iteration, further *)

(** Iterating over an active value as the program holds it gives its
    items along the first axis, none when that dimension is 0. *)
Lemma iter_value_pieces (v : DcOrArray) :
  wf_value v -> is_value_missing_of v = false ->
  forall n s, value_shape v = Ok (Some (n :: s)) ->
  iter_value v = Ok (map (fun i => piece i v) (seq 0 n)).
Proof.
  induction v as [| |a|d IH] using DcOrArray_induction;
    intros Hwf Hact n s Hshape; try discriminate.
  - simpl in Hwf, Hshape. injection Hshape as Hshape.
    unfold iter_value, iter_ndarray. rewrite Hshape. cbn [bind].
    rewrite chunks_spec, !map_map. f_equal. apply map_ext. intros i.
    simpl. now rewrite Hshape.
  - pose proof Hwf as (Hd & Hwfc & _).
    simpl in Hshape. injection Hshape as Hshape. unfold shape in Hshape.
    destruct (constructed_active _ _ d _ Hd Hshape) as [Hne Hfields].
    rewrite iter_value_VDc. unfold __iter__, shape. rewrite Hshape.
    cbn [truthy_shape negb].
    match goal with
    | |- context [mapM ?F (_array_fields d)] =>
        rewrite (mapM_ext_in _ _ F
                   (fun f : _ArrayField_ DcOrArray =>
                      Ok (map (fun i => piece i (f_value f)) (seq 0 n)))
                   (_array_fields d))
    end.
    2:{ intros f Hf. destruct (Hfields f Hf) as (Hb & Ha & Hx & Hhs).
        pose proof Hf as Hin. apply filter_In in Hin as [Hin _].
        destruct (bound_active_field _ _ f Hb Ha)
          as (x & hs & _ & Hhs' & Hvs & _).
        rewrite Hhs in Hhs'. injection Hhs' as <-.
        rewrite Forall_forall in IH.
        apply (IH f Hin (wf_value_field _ _ d f Hwf Hin)) with
          (s := s ++ inner_shape (f_meta f)); [|exact Hvs].
        unfold is_active, is_value_missing in Ha.
        now apply negb_true_iff in Ha. }
    rewrite mapM_pure. cbn [bind].
    rewrite (zip_star_map_map _ _
               (fun i (f : _ArrayField_ DcOrArray) => piece i (f_value f))
               (_array_fields d) (seq 0 n) Hne).
    rewrite mapM_map.
    rewrite (mapM_ext_in _ _ _ (fun i => Ok (piece_dc i d)) (seq 0 n)).
    2:{ intros i Hi. rewrite combine_map_map.
        destruct n as [|m]; [destruct Hi|].
        now apply (replace_pieces _ astype result_type d i m s). }
    rewrite mapM_pure. cbn [bind]. now rewrite map_map.
Qed.


(** ** Stacking, further *)

Lemma raises_only_bind (A B : Type) (P : exn -> Prop) (r : result A)
  (k : A -> result B) :
  raises_only P r -> (forall a, r = Ok a -> raises_only P (k a)) ->
  raises_only P (bind r k).
Proof.
  intros Hr Hk e. destruct r as [a|e0]; simpl.
  - exact (Hk a eq_refl e).
  - intros H. injection H as <-. now apply Hr.
Qed.

Lemma raises_only_mapM (A B : Type) (P : exn -> Prop) (f : A -> result B)
  (l : list A) :
  (forall x, In x l -> raises_only P (f x)) -> raises_only P (mapM f l).
Proof.
  induction l as [|x l IH]; intros H; simpl.
  - intros e He. discriminate.
  - apply raises_only_bind; [apply H; now left|]. intros y _.
    apply raises_only_bind.
    + apply IH. intros z Hz. apply H. now right.
    + intros ys _ e He. discriminate.
Qed.

Ltac raises_step :=
  match goal with
  | |- raises_only _ (Ok _) => let e := fresh in let H := fresh in
                               intros e H; discriminate H
  | |- raises_only not_conflicting_types (Raise _) =>
      let e := fresh in let H := fresh in
      intros e H; injection H as <-; exact I
  | |- raises_only _ (bind _ _) => apply raises_only_bind; [|intros ? ?]
  | |- raises_only _ (mapM _ _) => apply raises_only_mapM; intros ? ?
  | |- raises_only _ (if ?b then _ else _) => destruct b
  | |- raises_only _ (match ?x with _ => _ end) => destruct x
  end.

Lemma bind_field_not_conflicting_types (f : _ArrayField) :
  raises_only not_conflicting_types (bind_field f).
Proof.
  unfold _ArrayField__post_init__, _init_array, _init_dataclass, host_shape,
    value_shape.
  repeat raises_step.
Qed.

Lemma post_init_not_conflicting_types (c : dataclass_type)
  (fields : list _ArrayField) (others : list (string * pyobj)) :
  raises_only not_conflicting_types (__post_init__ c fields others).
Proof.
  unfold __post_init__.
  destruct (negb (frozen c)); [raises_step|].
  apply raises_only_bind.
  { apply raises_only_mapM. intros f _. apply bind_field_not_conflicting_types. }
  intros all _.
  unfold get_f_xnp, host_shape, value_shape, unpack1.
  repeat raises_step.
Qed.

Lemma new_not_conflicting_types (c : dataclass_type)
  (kw : list (string * DcOrArray)) (okw : list (string * pyobj)) :
  raises_only not_conflicting_types (new c kw okw).
Proof.
  unfold new, check_unexpected, init_fields, init_others, bind_kwarg.
  repeat (apply raises_only_bind; [repeat raises_step|intros ? ?]).
  apply post_init_not_conflicting_types.
Qed.

Lemma xnp_stack_not_conflicting_types (x : NpModule) (values : list DcOrArray) :
  raises_only not_conflicting_types (xnp_stack x values).
Proof.
  unfold xnp_stack, as_ndarray. repeat raises_step.
Qed.

Lemma getattr_not_conflicting_types (n : string) (v : DcOrArray) :
  raises_only not_conflicting_types (getattr n v).
Proof.
  unfold getattr. repeat raises_step.
Qed.

Lemma stack_from_not_conflicting_types (first_arr : DcOrArray) :
  forall rest axis,
    raises_only not_conflicting_types (stack_from first_arr rest axis).
Proof.
  induction first_arr as [| |a|d IH] using DcOrArray_induction;
    intros rest axis.
  1-3: unfold stack_from; rewrite False_not_in_types; raises_step.
  rewrite stack_from_VDc, False_not_in_types.
  destruct (negb (axis =? 0)%Z); [raises_step|].
  rewrite mapM_filter_spec. rewrite Forall_forall in IH.
  apply raises_only_bind.
  - apply raises_only_mapM. intros f Hf. apply filter_In in Hf as [Hf _].
    apply raises_only_bind.
    { apply raises_only_mapM. intros v _. apply getattr_not_conflicting_types. }
    intros others _. apply raises_only_bind; [|intros; raises_step].
    destruct (is_dataclass (f_meta f)).
    + now apply IH.
    + apply xnp_stack_not_conflicting_types.
  - intros nv _. apply raises_only_bind; [|intros; raises_step].
    apply new_not_conflicting_types.
Qed.

(** X11: [stack] never raises the [TypeError] it prepares for inputs of
    several types, whatever the inputs and the axis; and on a list that
    starts with a record it raises [NotImplementedError] for every axis
    but 0, whatever the other inputs are. *)
Theorem stack_never_raises_conflicting_types :
  (forall arrays axis e types,
     stack arrays axis = Raise e -> e <> ConflictingTypes types) /\
  (forall d rest axis,
     axis <> 0%Z -> stack (VDc d :: rest) axis = Raise PleaseOpenAnIssue) /\
  class_of PleaseOpenAnIssue = NotImplementedError.
Proof.
  split; [|split; [|reflexivity]].
  - intros arrays axis e types H ->.
    destruct arrays as [|first_arr rest]; [discriminate|].
    exact (stack_from_not_conflicting_types first_arr rest axis _ H).
  - intros d rest axis Haxis. unfold stack.
    rewrite stack_from_VDc, False_not_in_types.
    destruct (Z.eqb_spec axis 0); [contradiction|reflexivity].
Qed.

Lemma mapM_named_values (X V : Type) (name : X -> string)
  (F : X -> result (string * V)) (l : list X) (nv : list (string * V)) :
  (forall x y, F x = Ok y -> fst y = name x) ->
  mapM F l = Ok nv ->
  map fst nv = map name l.
Proof.
  intros HF. revert nv. induction l as [|x l IH]; intros nv H; simpl in H.
  - now injection H as <-.
  - destruct (F x) as [y|] eqn:Ey; [|discriminate]. cbn [bind] in H.
    destruct (mapM F l) as [nv'|]; [|discriminate]. cbn [bind] in H.
    injection H as <-. simpl. f_equal; [now apply HF|now apply IH].
Qed.

(** X12: [stack] takes the fields from the first record.  For a list
    that starts with a record the constructor returned (of a class that
    declares each field name once), whatever [stack] returns is a record
    of the class of the first one, with its other values and its field
    names, and every field that is missing on the first record is on the
    result as it is on the first record, whatever the other records hold
    there. *)
Theorem stack_keeps_the_missing_fields_of_the_first (c : dataclass_type)
  (kw : list (string * DcOrArray)) (okw : list (string * pyobj))
  (d : DataclassArray) (rest : list DcOrArray) (r : DcOrArray) :
  wf_class c ->
  new c kw okw = Ok d ->
  stack (VDc d :: rest) 0%Z = Ok r ->
  exists d',
    r = VDc d' /\ cls d' = c /\ other_values d' = other_values d /\
    map (@f_name _) (_all_array_fields d') =
      map (@f_name _) (_all_array_fields d) /\
    forall f, In f (_all_array_fields d) -> is_active f = false ->
              In f (_all_array_fields d').
Proof.
  intros Hwf Hnew Hstack.
  destruct (new_constructed _ _ _ _ _ _ Hnew) as [Hc Hd].
  pose proof (constructed_names _ _ d Hd) as Hnames.
  pose proof Hwf as Hnd. unfold wf_class in Hnd. rewrite <- Hc, Hnames in Hnd.
  unfold stack in Hstack. rewrite stack_from_VDc, False_not_in_types in Hstack.
  cbn [Z.eqb negb] in Hstack. rewrite mapM_filter_spec in Hstack.
  destruct (mapM _ (filter _ _)) as [nv|] eqn:Hnv; [|discriminate].
  cbn [bind] in Hstack.
  destruct (replace d nv) as [d'|] eqn:Hrep; [|discriminate].
  cbn [bind] in Hstack. injection Hstack as <-.
  exists d'. split; [reflexivity|].
  unfold replace in Hrep.
  destruct (new_constructed _ _ _ _ _ _ Hrep) as [Hc' Hd'].
  destruct (new_inv _ _ _ _ _ _ Hrep) as (fields & others & Hfs & Ho & Hp).
  destruct (post_init_inv _ _ _ _ _ _ Hp) as (_ & Hbind & _ & _ & Hov & _).
  split; [congruence|]. split.
  { destruct Hd as (_ & _ & _ & _ & _ & Hio). congruence. }
  split.
  { rewrite <- (constructed_names _ _ d' Hd'), <- Hnames. now rewrite Hc'. }
  assert (forall (x : _ArrayField) (y : string * DcOrArray),
            (others <- mapM (getattr (f_name x)) rest ;;
             v <- (if is_dataclass (f_meta x)
                   then stack_from (f_value x) others 0%Z
                   else xnp_stack (xnp d) (f_value x :: others)) ;;
             Ok (f_name x, v)) = Ok y ->
            fst y = f_name x) as Hnames_nv.
  { intros x y Hy.
    destruct (mapM (getattr (f_name x)) rest) as [others'|]; [|discriminate].
    cbn [bind] in Hy.
    destruct (is_dataclass (f_meta x)).
    - destruct (stack_from _ _ _) as [v|]; [|discriminate].
      cbn [bind] in Hy. now injection Hy as <-.
    - destruct (xnp_stack _ _) as [v|]; [|discriminate].
      cbn [bind] in Hy. now injection Hy as <-. }
  intros f Hf Hmiss.
  assert (lookup (f_name f) nv = None) as Hnone.
  { apply (proj2 (lookup_None _ astype result_type _ (f_name f) nv)).
    rewrite (mapM_named_values _ _ (@f_name _) _ _ nv Hnames_nv Hnv).
    destruct (existsb _ _) eqn:He; [|reflexivity].
    apply existsb_exists in He as [n [Hn He]].
    apply String.eqb_eq in He. subst n.
    apply in_map_iff in Hn as [f' [E Hf']].
    apply filter_In in Hf' as [Hin' Ha'].
    assert (f' = f)
      by (apply (NoDup_map_inj _ _ (@f_name _) (_all_array_fields d)); auto).
    congruence. }
  assert (In (f_name f, f_meta f) (array_fields (cls d))) as Hdecl.
  { destruct Hd as (_ & -> & _). apply in_map_iff. exists f. auto. }
  unfold init_fields in Hfs. apply mapM_Ok_Forall2 in Hfs.
  destruct (Forall2_In_l _ _ _ _ _ _ Hfs Hdecl) as (f0 & Hf0 & Hinit).
  simpl in Hinit. unfold bind_kwarg in Hinit.
  rewrite (replace_kwargs_lookup _ astype result_type _ _ f Hnd Hf), Hnone
    in Hinit.
  simpl in Hinit. injection Hinit as <-.
  apply mapM_Ok_Forall2 in Hbind.
  destruct (Forall2_In_l _ _ _ _ _ _ Hbind Hf0) as (f' & Hf' & Hb).
  simpl in Hb.
  destruct Hd as (_ & _ & Hidem & _).
  change {| f_meta := f_meta f; f_name := f_name f; f_value := f_value f;
            f_xnp := None |} with (unbound f) in Hb.
  rewrite (Hidem f Hf) in Hb. now injection Hb as <-.
Qed.

End Construction.

(** ** Lists of elements *)

Lemma prod_dims_split (a : nat) (l : Shape) :
  prod_dims l = prod_dims (firstn a l) * prod_dims (skipn a l).
Proof.
  rewrite <- (firstn_skipn a l) at 1. unfold prod_dims.
  induction (firstn a l) as [|n f IH]; simpl; [lia|]. rewrite IH. lia.
Qed.

Lemma prod_dims_cons (n : nat) (l : Shape) :
  prod_dims (n :: l) = n * prod_dims l.
Proof. reflexivity. Qed.

Lemma length_chunk (A : Type) (k i n : nat) (l : list A) :
  length l = n * k -> i < n -> length (chunk k i l) = k.
Proof.
  intros Hl Hi. unfold chunk. rewrite length_firstn, length_skipn, Hl. nia.
Qed.

Lemma length_concat_blocks (A : Type) (f : nat -> list A) (k n : nat) :
  (forall o, o < n -> length (f o) = k) ->
  length (concat (map f (seq 0 n))) = n * k.
Proof.
  intros H. rewrite length_concat.
  rewrite map_map.
  rewrite (map_ext_in _ (fun _ => k)).
  2:{ intros o Ho. apply in_seq in Ho. apply H. lia. }
  assert (forall l : list nat,
            list_sum (map (fun _ => k) l) = length l * k) as Hsum.
  { induction l as [|x l IH]; simpl; [reflexivity|]. now rewrite IH. }
  now rewrite Hsum, length_seq.
Qed.

Lemma length_concat_repeat (A : Type) (l : list A) (n : nat) :
  length (concat (repeat l n)) = n * length l.
Proof.
  induction n as [|n IH]; simpl; [reflexivity|].
  rewrite length_app, IH. lia.
Qed.

(** ** [reshape], [flatten], [broadcast_to], [map_field] and the conversions *)

Section OutcomeComprehensions.

Variables A B : Type.

Lemma collect_spec (p : A -> bool) (f : A -> outcome B) (l : list A) :
  collect p f l = gather f (filter p l).
Proof.
  induction l as [|x l IH]; simpl; [reflexivity|].
  destruct (p x); simpl; now rewrite IH.
Qed.

Lemma gather_pure (g : A -> B) (l : list A) :
  gather (fun x => Returns (g x)) l = Returns (map g l).
Proof.
  induction l as [|x l IH]; simpl; [reflexivity|]. now rewrite IH.
Qed.

Lemma gather_ext_in (f g : A -> outcome B) (l : list A) :
  (forall x, In x l -> f x = g x) -> gather f l = gather g l.
Proof.
  induction l as [|x l IH]; intros H; simpl; [reflexivity|].
  rewrite (H x) by now left. rewrite IH; [reflexivity|].
  intros y Hy. apply H. now right.
Qed.

Lemma gather_pointwise (f : A -> outcome B) (g : A -> B) (l : list A) :
  (forall x, In x l -> f x = Returns (g x)) -> gather f l = Returns (map g l).
Proof.
  intros H. rewrite <- gather_pure. now apply gather_ext_in.
Qed.

(** A comprehension whose function raises none of the further
    exceptions is the comprehension of the operations above. *)
Lemma gather_earlier (f : A -> result B) (l : list A) :
  gather (fun x => earlier (f x)) l = earlier (mapM f l).
Proof.
  induction l as [|x l IH]; simpl; [reflexivity|].
  destruct (f x) as [y|e]; simpl; [|reflexivity].
  rewrite IH. destruct (mapM f l); reflexivity.
Qed.

End OutcomeComprehensions.

Section FurtherOperations.

Variable scalar : Type.
Variable astype : np_dtype -> np_dtype -> scalar -> scalar.
Variable result_type : np_dtype -> np_dtype -> np_dtype.
Variable xnp_asarray : NpModule -> DcOrArray scalar -> outcome (DcOrArray scalar).
Variable to_backend : NpModule -> ndarray scalar -> ndarray scalar.

Local Abbreviation DataclassArray := (DataclassArray scalar).
Local Abbreviation DcOrArray := (DcOrArray scalar).
Local Abbreviation _ArrayField := (_ArrayField scalar).
Local Abbreviation bind_field := (_ArrayField__post_init__ astype).
Local Abbreviation __post_init__ := (__post_init__ astype).
Local Abbreviation new := (new astype).
Local Abbreviation replace := (replace astype).
Local Abbreviation _map_field := (_map_field astype).
Local Abbreviation constructed := (constructed astype).
Local Abbreviation wf_value := (wf_value astype).
Local Abbreviation _map_field_more := (_map_field_more astype).
Local Abbreviation reshape_value := (reshape_value astype).
Local Abbreviation reshape := (reshape astype).
Local Abbreviation flatten := (flatten astype).
Local Abbreviation broadcast_to_value := (broadcast_to_value astype).
Local Abbreviation broadcast_to := (broadcast_to astype).
Local Abbreviation map_field_value := (map_field_value astype).
Local Abbreviation map_field := (map_field astype).
Local Abbreviation as_xnp := (as_xnp astype xnp_asarray).
Local Abbreviation converted := (converted astype to_backend).
Local Abbreviation converted_field := (converted_field astype to_backend).
Local Abbreviation converted_dc := (converted_dc astype to_backend).

(** [_map_field_more] on functions that raise none of the further
    exceptions is [_map_field]. *)
Lemma map_field_more_earlier (d : DataclassArray)
  (fn nest : _ArrayField -> result DcOrArray) :
  _map_field_more d (fun f => earlier (fn f)) (Some (fun f => earlier (nest f)))
  = earlier (_map_field d fn (Some nest)).
Proof.
  unfold _map_field_more, _map_field.
  rewrite (gather_ext_in _ _ _
             (fun f => earlier (v <- (if is_dataclass (f_meta f)
                                      then nest f else fn f) ;;
                                Ok (f_name f, v)))).
  2:{ intros f _. destruct (is_dataclass (f_meta f)).
      - destruct (nest f); reflexivity.
      - destruct (fn f); reflexivity. }
  rewrite gather_earlier.
  destruct (mapM _ _); reflexivity.
Qed.

(** The nested call of [reshape] is [DataclassArray.reshape]. *)
Lemma reshape_value_VDc (newshape : list dim) (d : DataclassArray) :
  reshape_value newshape (VDc d) =
    (r <~ reshape d (ShapeDims newshape) ;; Returns (VDc r)).
Proof.
  unfold reshape, _map_field_more.
  cbn [reshape_value]. rewrite collect_spec.
  fold (_array_fields d).
  match goal with
  | |- and_then (gather ?G _) _ = and_then (and_then (gather ?F ?L) _) _ =>
      rewrite (gather_ext_in _ _ F G L)
        by (intros f _; destruct (is_dataclass (f_meta f)); reflexivity)
  end.
  destruct (gather _ _) as [nv|e]; [|reflexivity].
  cbn [and_then]. destruct (replace d nv); reflexivity.
Qed.

(** The nested call of [map_field] is [DataclassArray.map_field]. *)
Lemma map_field_value_VDc (fn : DcOrArray -> outcome DcOrArray)
  (d : DataclassArray) :
  map_field_value fn (VDc d) = (r <~ map_field d fn ;; Returns (VDc r)).
Proof.
  unfold map_field, _map_field_more.
  cbn [map_field_value]. rewrite collect_spec.
  fold (_array_fields d).
  destruct (gather _ _) as [nv|e]; [|reflexivity].
  cbn [and_then]. destruct (replace d nv); reflexivity.
Qed.

(** *** Binding a fresh value, and [replace] with fresh values *)

Lemma asarray_same (a : ndarray scalar) (dt : np_dtype) :
  arr_dtype a = dt -> asarray astype (arr_xnp a) a dt = a.
Proof.
  intros <-. destruct a. unfold asarray. simpl. now rewrite String.eqb_refl.
Qed.

Lemma bind_array_value (m : _ArrayFieldMetadata) (n : string)
  (b : ndarray scalar) (dt : np_dtype) (s : Shape) (x0 : option NpModule) :
  dtype m = DtArray dt -> arr_shape b = s ++ inner_shape m ->
  let f' : _ArrayField :=
    {| f_meta := m; f_name := n;
       f_value := VArray (asarray astype (arr_xnp b) b dt);
       f_xnp := Some (arr_xnp b) |} in
  bind_field {| f_meta := m; f_name := n; f_value := VArray b; f_xnp := x0 |}
    = Ok f' /\
  host_shape f' = Ok s /\ is_active f' = true.
Proof.
  intros Hdt Hs f'.
  assert (host_shape f' = Ok s) as Hhs by (apply host_shape_app; simpl; now rewrite Hs).
  split; [|split; [exact Hhs|reflexivity]].
  unfold _ArrayField__post_init__, is_value_missing.
  cbn [f_value f_meta is_value_missing_of]. rewrite Hdt.
  unfold _init_array. cbn [f_value bind]. unfold set_value_xnp.
  cbn [f_meta f_name]. fold f'. rewrite Hhs. cbn [bind].
  unfold f'. cbn [f_value value_shape bind f_meta f_name asarray arr_shape].
  rewrite Hs.
  assert (Shape_eqb (s ++ inner_shape m) (s ++ inner_shape m) = true) as ->
      by now apply Shape_eqb_eq.
  reflexivity.
Qed.

Lemma bind_record_value (m : _ArrayFieldMetadata) (n : string)
  (e : DataclassArray) (c : string) (s : Shape) (x0 : option NpModule) :
  dtype m = DtDataclass c -> isinstance (VDc e) c = true ->
  is_value_missing_of (VDc e) = false ->
  shape e = Some (s ++ inner_shape m) ->
  let f' : _ArrayField :=
    {| f_meta := m; f_name := n; f_value := VDc e; f_xnp := Some (xnp e) |} in
  bind_field {| f_meta := m; f_name := n; f_value := VDc e; f_xnp := x0 |}
    = Ok f' /\
  host_shape f' = Ok s /\ is_active f' = true.
Proof.
  intros Hdt Hinst Hact Hs f'.
  assert (host_shape f' = Ok s) as Hhs
      by (apply host_shape_app; simpl; now rewrite Hs).
  split; [|split; [exact Hhs|]].
  - unfold _ArrayField__post_init__, is_value_missing.
    cbn [f_value f_meta]. rewrite Hact, Hdt.
    unfold _init_dataclass. cbn [f_value]. rewrite Hinst. cbn [bind].
    unfold set_value_xnp. cbn [f_meta f_name f_value]. fold f'.
    rewrite Hhs. cbn [bind]. unfold f'. cbn [f_value value_shape bind f_meta f_name].
    rewrite Hs.
    assert (Shape_eqb (s ++ inner_shape m) (s ++ inner_shape m) = true) as ->
        by now apply Shape_eqb_eq.
    reflexivity.
  - unfold is_active, is_value_missing, f'. cbn [f_value]. now rewrite Hact.
Qed.

Lemma filter_active_changed (k h : _ArrayField -> _ArrayField)
  (all0 : list _ArrayField) :
  (forall f, In f all0 -> is_active f = true ->
             k f = h f /\ is_active (h f) = true) ->
  (forall f, In f all0 -> is_active f = false -> k f = f) ->
  filter (@is_active scalar) (map k all0) =
  map h (filter (@is_active scalar) all0).
Proof.
  induction all0 as [|f all0 IH]; intros Ha Hm; simpl; [reflexivity|].
  assert (filter (@is_active scalar) (map k all0) =
          map h (filter (@is_active scalar) all0)) as IH'.
  { apply IH; intros g Hg; [apply Ha|apply Hm]; now right. }
  destruct (is_active f) eqn:Hf.
  - destruct (Ha f (or_introl eq_refl) Hf) as [-> ->]. simpl. now rewrite IH'.
  - rewrite (Hm f (or_introl eq_refl) Hf), Hf. exact IH'.
Qed.

(** [replace] with a fresh value [g f] for each active field [f], where
    the fresh values bind (to [h f]) with one backend and one host
    shape. *)
Lemma replace_active_values (d : DataclassArray)
  (g : _ArrayField -> DcOrArray) (h : _ArrayField -> _ArrayField)
  (x' : NpModule) (s' : Shape) :
  constructed d -> wf_class (cls d) -> _array_fields d <> [] ->
  (forall f, In f (_array_fields d) ->
     bind_field (unbound (with_value (g f) f)) = Ok (h f) /\
     is_active (h f) = true /\ f_xnp (h f) = Some x' /\
     host_shape (h f) = Ok s') ->
  replace d (map (fun f => (f_name f, g f)) (_array_fields d)) =
    Ok {| cls := cls d;
          _all_array_fields :=
            map (fun f => if is_active f then h f else f) (_all_array_fields d);
          other_values := other_values d;
          _shape := Some s'; _xnp := x' |}.
Proof.
  intros Hd Hwf Hne Hg.
  pose proof (constructed_names _ _ d Hd) as Hnames.
  unfold wf_class in Hwf. rewrite Hnames in Hwf.
  set (g' := fun f : _ArrayField => if is_active f then g f else f_value f).
  set (k := fun f : _ArrayField => if is_active f then h f else f).
  unfold replace, new.
  rewrite check_unexpected_incl.
  2:{ rewrite Hnames. apply replace_kwargs_incl; [|apply incl_refl].
      rewrite map_fst_pairs. intros n Hn.
      apply in_map_iff in Hn as [f [<- Hf]]. apply filter_In in Hf as [Hf _].
      now apply in_map. }
  cbn [bind].
  rewrite (init_fields_of_constructed _ _ d _ g' Hd).
  2:{ intros f Hf.
      rewrite (replace_kwargs_lookup _ astype result_type _ _ f Hwf Hf).
      unfold _array_fields.
      rewrite (lookup_active_changes _ astype result_type _ g f Hwf Hf).
      unfold g'. now destruct (is_active f). }
  pose proof Hd as (Hfrozen & _ & Hidem & _ & Hcu & Ho). rewrite Hcu, Ho.
  cbn [bind].
  assert (filter (@is_active scalar) (map k (_all_array_fields d)) =
          map h (_array_fields d)) as Hfilter.
  { apply filter_active_changed.
    - intros f Hf Ha. unfold k. rewrite Ha. split; [reflexivity|].
      apply Hg. apply filter_In. auto.
    - intros f Hf Ha. unfold k. now rewrite Ha. }
  apply (post_init_active _ _ (cls d) _ (map k (_all_array_fields d))
           (other_values d) x' s' Hfrozen).
  - apply mapM_map_pointwise. intros f Hf. unfold g', k.
    destruct (is_active f) eqn:Ha.
    + apply Hg. apply filter_In. auto.
    + rewrite with_own_value. now apply Hidem.
  - rewrite Hfilter. destruct (_array_fields d); [congruence|discriminate].
  - intros f' Hf'. rewrite Hfilter in Hf'.
    apply in_map_iff in Hf' as [f [<- Hf]].
    destruct (Hg f Hf) as (_ & _ & Hx & Hhs). auto.
Qed.

(** [replace] of no field, on a record without active field. *)
Lemma replace_nothing (d : DataclassArray) :
  constructed d -> wf_class (cls d) -> replace d [] = Ok d.
Proof.
  intros Hd Hwf.
  pose proof (constructed_names _ _ d Hd) as Hnames.
  unfold wf_class in Hwf. rewrite Hnames in Hwf.
  unfold replace. apply reconstruct; [exact Hd| |].
  - rewrite Hnames. apply replace_kwargs_incl; [|apply incl_refl].
    intros n [].
  - intros f Hf.
    now rewrite (replace_kwargs_lookup _ astype result_type _ _ f Hwf Hf).
Qed.

(** *** [reshape] *)

Lemma reshaped_missing (v : DcOrArray) :
  forall t, is_value_missing_of (reshaped t v) = is_value_missing_of v.
Proof.
  induction v as [| |a|d IH] using DcOrArray_induction; intros t;
    try reflexivity.
  simpl. induction (_all_array_fields d) as [|f all IHall]; [reflexivity|].
  inversion IH as [|? ? Hf Hall]; subst. simpl.
  rewrite (IHall Hall). f_equal.
  unfold is_active, is_value_missing.
  destruct (is_value_missing_of (f_value f)) eqn:Hm; simpl.
  - exact Hm.
  - apply Hf.
Qed.

Lemma reshaped_VDc (t : Shape) (d : DataclassArray) :
  reshaped t (VDc d) = VDc (reshaped_dc t d).
Proof. reflexivity. Qed.

Lemma trailing_dims_field (ok : Shape -> Prop) (inner : Shape)
  (d : DataclassArray) (f : _ArrayField) :
  trailing_dims ok inner (VDc d) -> In f (_all_array_fields d) ->
  is_active f = true ->
  trailing_dims ok (inner ++ inner_shape (f_meta f)) (f_value f).
Proof.
  simpl. induction (_all_array_fields d) as [|f0 all0 IH]; intros H Hin Ha;
    [destruct Hin|].
  simpl in H. destruct H as [H0 H]. destruct Hin as [->|Hin]; auto.
Qed.

Lemma trailing_dims_always (ok : Shape -> Prop) (v : DcOrArray) :
  (forall inner, ok inner) -> forall inner, trailing_dims ok inner v.
Proof.
  intros Hok.
  induction v as [| |a|d IH] using DcOrArray_induction; intros inner;
    simpl; auto.
  induction (_all_array_fields d) as [|f all IHall]; simpl; [exact I|].
  inversion IH as [|? ? Hf Hall]; subst. split; [intros _; apply Hf|].
  now apply IHall.
Qed.

Lemma prod_dims_app (a b : Shape) :
  prod_dims (a ++ b) = prod_dims a * prod_dims b.
Proof.
  unfold prod_dims. induction a as [|n a IH]; simpl; [lia|].
  rewrite IH. lia.
Qed.

Section ReshapeTo.

(** Reshaping the batch shape [s0] with [dims], when [t] has as many
    elements as [s0] and the backend resolves [dims] followed by the
    dimensions [inner] (of which [ok] holds) to [t] followed by
    [inner]. *)
Variables (s0 t : Shape) (dims : list dim) (ok : Shape -> Prop).
Hypothesis sizes : prod_dims t = prod_dims s0.
Hypothesis resolves :
  forall inner, ok inner ->
    resolve_shape (prod_dims (s0 ++ inner)) (dims ++ map Dim inner)
    = Returns (t ++ inner).

Lemma reshape_value_reshaped (v : DcOrArray) :
  forall inner,
    wf_value v -> is_value_missing_of v = false ->
    value_shape v = Ok (Some (s0 ++ inner)) ->
    trailing_dims ok inner v ->
    reshape_value (dims ++ map Dim inner) v = Returns (reshaped (t ++ inner) v)
    /\ wf_value (reshaped (t ++ inner) v).
Proof.
  induction v as [| |a|d IH] using DcOrArray_induction;
    intros inner Hwf Hact Hshape Hok; try discriminate.
  - simpl in Hwf, Hshape, Hok. injection Hshape as Hshape. split.
    + cbn [reshape_value]. unfold ndarray_reshape.
      rewrite Hshape, (resolves inner Hok). reflexivity.
    + simpl. rewrite Hwf, Hshape, !prod_dims_app, sizes. reflexivity.
  - pose proof Hwf as (Hd & Hwfc & _).
    simpl in Hshape. injection Hshape as Hshape. unfold shape in Hshape.
    destruct (constructed_active _ _ d _ Hd Hshape) as [Hne Hfields].
    rewrite Forall_forall in IH.
    set (g := fun f : _ArrayField_ DcOrArray =>
                reshaped ((t ++ inner) ++ inner_shape (f_meta f)) (f_value f)).
    assert (forall f, In f (_array_fields d) ->
              (v' <~ reshape_value
                       (with_inner (dims ++ map Dim inner) (f_meta f))
                       (f_value f) ;;
               Returns (f_name f, v')) = Returns (f_name f, g f) /\
              wf_value (g f) /\
              bind_field (unbound (with_value (g f) f))
                = Ok (with_value (g f) f) /\
              is_active (with_value (g f) f) = true /\
              f_xnp (with_value (g f) f) = Some (_xnp d) /\
              host_shape (with_value (g f) f) = Ok (t ++ inner)) as Hper.
    { intros f Hf. destruct (Hfields f Hf) as (Hb & Ha & Hx & Hhs).
      pose proof Hf as Hin. apply filter_In in Hin as [Hin _].
      destruct (bound_active_field _ _ f Hb Ha)
        as (x & hs & Hx' & Hhs' & Hvs & Hdt).
      rewrite Hhs in Hhs'. injection Hhs' as <-.
      rewrite Hx in Hx'. injection Hx' as <-.
      assert (is_value_missing_of (f_value f) = false) as Hm.
      { unfold is_active, is_value_missing in Ha.
        now apply negb_true_iff in Ha. }
      destruct (IH f Hin (inner ++ inner_shape (f_meta f))
                  (wf_value_field _ _ d f Hwf Hin) Hm) as [Hrec Hrwf].
      { now rewrite app_assoc. }
      { now apply (trailing_dims_field ok inner d f). }
      rewrite map_app, !app_assoc in Hrec. rewrite app_assoc in Hrwf.
      split; [unfold with_inner, g; now rewrite Hrec|].
      split; [exact Hrwf|].
      unfold unbound, with_value, g. cbn [f_meta f_name f_value f_xnp].
      rewrite Hx.
      destruct (dtype (f_meta f)) as [dt|c] eqn:Edt.
      + destruct Hdt as (a & Hv & Hax & Hadt). rewrite Hv.
        cbn [reshaped].
        destruct (bind_array_value (f_meta f) (f_name f)
                    (with_shape ((t ++ inner) ++ inner_shape (f_meta f)) a)
                    dt (t ++ inner) None Edt eq_refl) as (Hbind & Hh & Hac).
        rewrite asarray_same in Hbind, Hh, Hac by exact Hadt.
        cbn [with_shape arr_xnp] in Hbind, Hh, Hac.
        rewrite Hax in Hbind, Hh, Hac. auto.
      + destruct Hdt as (e & Hv & Hex & Hinst). rewrite Hv.
        rewrite reshaped_VDc.
        destruct (bind_record_value (f_meta f) (f_name f)
                    (reshaped_dc ((t ++ inner) ++ inner_shape (f_meta f)) e)
                    c (t ++ inner) None Edt Hinst) as (Hbind & Hh & Hac).
        * rewrite <- reshaped_VDc, reshaped_missing, <- Hv. exact Hm.
        * reflexivity.
        * change (xnp (reshaped_dc ((t ++ inner) ++ inner_shape (f_meta f)) e))
            with (_xnp e) in Hbind, Hh, Hac.
          rewrite Hex in Hbind, Hh, Hac. auto. }
    assert (replace d (map (fun f => (f_name f, g f)) (_array_fields d)) =
            Ok (reshaped_dc (t ++ inner) d)) as Hrep.
    { rewrite (replace_active_values d g (fun f => with_value (g f) f)
                 (_xnp d) (t ++ inner) Hd Hwfc Hne); [reflexivity|].
      intros f Hf. now destruct (Hper f Hf) as (_ & _ & H). }
    split.
    + cbn [reshape_value]. rewrite collect_spec. fold (_array_fields d).
      rewrite (gather_pointwise _ _ _
                 (fun f : _ArrayField_ DcOrArray => (f_name f, g f))).
      2:{ intros f Hf. now destruct (Hper f Hf) as (H & _). }
      cbn [and_then]. rewrite Hrep. reflexivity.
    + rewrite reshaped_VDc. split; [|split].
      * unfold replace in Hrep.
        now destruct (new_constructed _ _ _ _ _ _ Hrep).
      * exact Hwfc.
      * apply wf_fields_forall. intros f' Hf'.
        cbn [reshaped_dc _all_array_fields] in Hf'.
        apply in_map_iff in Hf' as [f [<- Hin]]. unfold reshaped_field.
        destruct (is_active f) eqn:Ha.
        -- assert (In f (_array_fields d)) as Hf by (apply filter_In; auto).
           now destruct (Hper f Hf) as (_ & H & _).
        -- exact (wf_value_field _ _ d f Hwf Hin).
Qed.

End ReshapeTo.

Lemma dims_given (l : Shape) :
  filter is_infer (map Dim l) = [] /\ known_size (map Dim l) = prod_dims l /\
  map (fun k => match k with Dim n => n | Infer => 0 end) (map Dim l) = l.
Proof.
  unfold known_size, prod_dims.
  induction l as [|n l (IH1 & IH2 & IH3)]; simpl; [auto|].
  rewrite IH1, IH2, IH3. auto.
Qed.

Lemma resolve_given (s t inner : Shape) :
  prod_dims t = prod_dims s ->
  resolve_shape (prod_dims (s ++ inner)) (map Dim t ++ map Dim inner)
  = Returns (t ++ inner).
Proof.
  intros Ht. rewrite <- map_app.
  destruct (dims_given (t ++ inner)) as (Hf & Hk & Hm).
  unfold resolve_shape. rewrite Hf, Hk, Hm. simpl.
  rewrite !prod_dims_app, Ht, Nat.eqb_refl. reflexivity.
Qed.

Lemma resolve_infer (s inner : Shape) :
  prod_dims inner <> 0 ->
  resolve_shape (prod_dims (s ++ inner)) ([Infer] ++ map Dim inner)
  = Returns ([prod_dims s] ++ inner).
Proof.
  intros Hz. destruct (dims_given inner) as (Hf & Hk & Hm).
  unfold resolve_shape. simpl. rewrite Hf. simpl.
  change (fold_right _ 1 (map Dim inner)) with (known_size (map Dim inner)).
  rewrite Hk, prod_dims_app.
  destruct (Nat.eqb_spec (prod_dims inner) 0) as [|_]; [contradiction|].
  rewrite Nat.Div0.mod_mul, Nat.div_mul by exact Hz. simpl.
  f_equal. f_equal.
  rewrite <- Hm at 2. rewrite !map_map. apply map_ext_in. intros n _.
  reflexivity.
Qed.

Lemma constructed_has_shape (d : DataclassArray) :
  constructed d -> is_value_missing_of (VDc d) = false ->
  exists s, _shape d = Some s.
Proof.
  intros (_ & _ & _ & Hp & _) Hact.
  destruct (post_init_inv _ _ _ _ _ _ Hp)
    as (_ & _ & _ & _ & _ & [(Hnone & _)|(_ & s & Hs & _)]); [|eauto].
  exfalso. simpl in Hact.
  assert (forallb (fun f : _ArrayField_ DcOrArray =>
                     is_value_missing_of (f_value f))
            (_all_array_fields d) = true) as Hall; [|congruence].
  apply forallb_forall. intros f Hf.
  destruct (is_value_missing_of (f_value f)) eqn:Hm; [reflexivity|].
  exfalso. assert (In f (_array_fields d)) as Hin.
  { apply filter_In. split; [exact Hf|].
    unfold is_active, is_value_missing. now rewrite Hm. }
  rewrite Hnone in Hin. destruct Hin.
Qed.

Lemma shaped_is_active (d : DataclassArray) (s : Shape) :
  constructed d -> _shape d = Some s -> is_value_missing_of (VDc d) = false.
Proof.
  intros Hd Hs. destruct (constructed_active _ _ d _ Hd Hs) as [Hne _].
  simpl. destruct (forallb _ _) eqn:Hall; [|reflexivity].
  exfalso. apply Hne. now apply no_active_all_missing.
Qed.

Lemma unshaped_has_no_active_field (d : DataclassArray) :
  constructed d -> _shape d = None -> _array_fields d = [].
Proof.
  intros (_ & _ & _ & Hp & _) Hs.
  destruct (post_init_inv _ _ _ _ _ _ Hp)
    as (_ & _ & _ & _ & _ & [(Hnone & _)|(_ & s & Hs' & _)]);
    [exact Hnone|congruence].
Qed.

Lemma reshape_given (d : DataclassArray) (s t : Shape) :
  wf_value (VDc d) -> shape d = Some s -> prod_dims t = prod_dims s ->
  reshape d (ShapeDims (map Dim t)) = Returns (reshaped_dc t d) /\
  wf_value (VDc (reshaped_dc t d)).
Proof.
  intros Hwf Hshape Ht. pose proof Hwf as (Hd & _ & _).
  destruct (reshape_value_reshaped s t (map Dim t) (fun _ => True) Ht
              (fun inner _ => resolve_given s t inner Ht) (VDc d) [])
    as [H Hrwf]; try assumption.
  { exact (shaped_is_active d s Hd Hshape). }
  { simpl. now rewrite Hshape, app_nil_r. }
  { now apply trailing_dims_always. }
  simpl map in H. rewrite !app_nil_r in H, Hrwf.
  rewrite reshape_value_VDc, reshaped_VDc in H.
  rewrite ?app_nil_r in H.
  rewrite reshaped_VDc in Hrwf. split; [|exact Hrwf].
  destruct (reshape d (ShapeDims (map Dim t))) as [r|e];
    cbn [and_then] in H; [|discriminate H].
  now injection H as ->.
Qed.

Lemma reshaped_twice (v : DcOrArray) :
  forall t u, reshaped u (reshaped t v) = reshaped u v.
Proof.
  induction v as [| |a|d IH] using DcOrArray_induction; intros t u;
    try reflexivity.
  cbn [reshaped cls _all_array_fields other_values _xnp]. do 2 f_equal.
  rewrite map_map. apply map_ext_in. intros f Hf.
  rewrite Forall_forall in IH.
  destruct (is_active f) eqn:Ha.
  - assert (is_active
              (with_value (reshaped (t ++ inner_shape (f_meta f)) (f_value f))
                 f) = true) as ->.
    { unfold is_active, is_value_missing in Ha |- *. cbn [with_value f_value].
      now rewrite reshaped_missing. }
    unfold with_value. cbn [f_meta f_name f_value f_xnp].
    now rewrite (IH f Hf).
  - now rewrite Ha.
Qed.

Lemma reshaped_own (v : DcOrArray) :
  wf_value v -> is_value_missing_of v = false ->
  forall s, value_shape v = Ok (Some s) -> reshaped s v = v.
Proof.
  induction v as [| |a|d IH] using DcOrArray_induction;
    intros Hwf Hact s Hshape; try reflexivity.
  - simpl in Hshape. injection Hshape as <-. now destruct a.
  - pose proof Hwf as (Hd & Hwfc & _).
    simpl in Hshape. injection Hshape as Hshape. unfold shape in Hshape.
    destruct (constructed_active _ _ d _ Hd Hshape) as [Hne Hfields].
    rewrite Forall_forall in IH.
    cbn [reshaped]. rewrite (map_ext_in _ (fun f => f)).
    { rewrite map_id, <- Hshape. now destruct d. }
    intros f Hin. destruct (is_active f) eqn:Ha; [|reflexivity].
    assert (In f (_array_fields d)) as Hf by (apply filter_In; auto).
    destruct (Hfields f Hf) as (Hb & _ & _ & Hhs).
    destruct (bound_active_field _ _ f Hb Ha) as (x & hs & _ & Hhs' & Hvs & _).
    rewrite Hhs in Hhs'. injection Hhs' as <-.
    rewrite (IH f Hin (wf_value_field _ _ d f Hwf Hin)); [|
      unfold is_active, is_value_missing in Ha; now apply negb_true_iff in Ha|
      exact Hvs].
    apply with_own_value.
Qed.




(** *** [broadcast_to] *)

(** The nested call of [broadcast_to] is [DataclassArray.broadcast_to]. *)
Lemma broadcast_to_value_VDc (t : Shape) (d : DataclassArray) :
  broadcast_to_value t (VDc d) =
    (r <~ broadcast_to d t ;; Returns (VDc r)).
Proof.
  unfold broadcast_to, _map_field_more.
  cbn [broadcast_to_value]. rewrite collect_spec.
  fold (_array_fields d).
  destruct (gather _ _) as [nv|e]; [|reflexivity].
  cbn [and_then]. destruct (replace d nv); reflexivity.
Qed.

Lemma broadcasted_missing (v : DcOrArray) :
  forall t, is_value_missing_of (broadcasted t v) = is_value_missing_of v.
Proof.
  induction v as [| |a|d IH] using DcOrArray_induction; intros t;
    try reflexivity.
  simpl. induction (_all_array_fields d) as [|f all IHall]; [reflexivity|].
  inversion IH as [|? ? Hf Hall]; subst. simpl.
  rewrite (IHall Hall). f_equal.
  unfold is_active, is_value_missing.
  destruct (is_value_missing_of (f_value f)) eqn:Hm; simpl.
  - exact Hm.
  - apply Hf.
Qed.

Lemma broadcasted_VDc (t : Shape) (d : DataclassArray) :
  broadcasted t (VDc d) = VDc (broadcasted_dc t d).
Proof. reflexivity. Qed.

Lemma combine_app (X Y : Type) (a b : list X) (c e : list Y) :
  length a = length c ->
  combine (a ++ b) (c ++ e) = combine a c ++ combine b e.
Proof.
  revert c. induction a as [|x a IH]; intros [|y c] H; try discriminate.
  - reflexivity.
  - simpl. f_equal. apply IH. now injection H.
Qed.

Lemma compatible_same (inner : Shape) : compatible inner inner = true.
Proof.
  unfold compatible. induction inner as [|n inner IH]; [reflexivity|].
  simpl. now rewrite Nat.eqb_refl, IH.
Qed.

Lemma length_padded (s u : Shape) :
  length s <= length u -> length (padded s u) = length u.
Proof.
  intros H. unfold padded. rewrite length_app, repeat_length. lia.
Qed.

Lemma prod_dims_padded (s u : Shape) : prod_dims (padded s u) = prod_dims s.
Proof.
  unfold padded. rewrite prod_dims_app.
  assert (forall n, prod_dims (repeat 1 n) = 1) as ->; [|lia].
  induction n as [|n IH]; [reflexivity|].
  change (repeat 1 (S n)) with (1 :: repeat 1 n).
  rewrite prod_dims_cons, IH. reflexivity.
Qed.

(** An array that broadcasts to [t] before the dimensions [inner]
    broadcasts to [t] followed by [inner]. *)
Lemma broadcastable_inner (s t inner : Shape) :
  broadcastable s t = true ->
  broadcastable (s ++ inner) (t ++ inner) = true /\
  padded (s ++ inner) (t ++ inner) = padded s t ++ inner.
Proof.
  unfold broadcastable. intros H. apply andb_prop in H as [Hlen Hc].
  apply Nat.leb_le in Hlen.
  assert (padded (s ++ inner) (t ++ inner) = padded s t ++ inner) as Hp.
  { unfold padded. rewrite !length_app, <- app_assoc.
    now replace (length t + length inner - (length s + length inner))
      with (length t - length s) by lia. }
  split; [|exact Hp].
  rewrite Hp. apply andb_true_intro. split.
  - apply Nat.leb_le. rewrite !length_app. lia.
  - unfold compatible in *.
    rewrite combine_app by now apply length_padded.
    rewrite forallb_app, Hc. apply compatible_same.
Qed.

(** The elements of a broadcast array fill its shape. *)
Lemma length_broadcast_data (s : Shape) :
  forall (u : Shape) (data : list scalar),
    length s = length u -> compatible s u = true ->
    length data = prod_dims s ->
    length (broadcast_data s u data) = prod_dims u.
Proof.
  induction s as [|ds s IH]; intros [|du u] data Hlen Hc Hd;
    try discriminate.
  - exact Hd.
  - simpl in Hlen. injection Hlen as Hlen.
    unfold compatible in Hc. simpl in Hc.
    apply andb_prop in Hc as [Hdim Hc].
    rewrite prod_dims_cons in Hd |- *. cbn [broadcast_data].
    destruct (Nat.eqb_spec ds du) as [->|Hne].
    + apply length_concat_blocks. intros i Hi.
      apply IH; [exact Hlen|exact Hc|].
      now apply (length_chunk _ _ _ du).
    + destruct (Nat.eqb_spec ds 1) as [->|]; [|discriminate].
      rewrite length_concat_repeat. f_equal.
      apply IH; [exact Hlen|exact Hc|].
      rewrite firstn_all2 by lia. lia.
Qed.

Section BroadcastTo.

Variables s0 t : Shape.
Hypothesis broadcasts : broadcastable s0 t = true.

Lemma broadcast_value_broadcasted (v : DcOrArray) :
  forall inner,
    wf_value v -> is_value_missing_of v = false ->
    value_shape v = Ok (Some (s0 ++ inner)) ->
    match v with
    | VDc d =>
        broadcast_to_value (t ++ inner) v
        = Returns (broadcasted (t ++ inner) v)
    | _ => True
    end /\
    wf_value (broadcasted (t ++ inner) v).
Proof.
  induction v as [| |a|d IH] using DcOrArray_induction;
    intros inner Hwf Hact Hshape; try discriminate.
  - split; [exact I|]. simpl in Hwf, Hshape |- *.
    injection Hshape as Hshape. rewrite Hshape.
    destruct (broadcastable_inner s0 t inner broadcasts) as [Hb Hp].
    unfold broadcastable in Hb. apply andb_prop in Hb as [Hlen Hc].
    apply Nat.leb_le in Hlen.
    apply length_broadcast_data.
    + now apply length_padded.
    + exact Hc.
    + now rewrite prod_dims_padded, <- Hshape.
  - pose proof Hwf as (Hd & Hwfc & _).
    simpl in Hshape. injection Hshape as Hshape. unfold shape in Hshape.
    destruct (constructed_active _ _ d _ Hd Hshape) as [Hne Hfields].
    rewrite Forall_forall in IH.
    set (g := fun f : _ArrayField_ DcOrArray =>
                broadcasted ((t ++ inner) ++ inner_shape (f_meta f))
                  (f_value f)).
    assert (forall f, In f (_array_fields d) ->
              In f (_all_array_fields d) /\
              (v' <~ (if is_dataclass (f_meta f)
                      then broadcast_to_value
                             ((t ++ inner) ++ inner_shape (f_meta f))
                             (f_value f)
                      else xnp_broadcast_to (xnp d) (f_value f)
                             ((t ++ inner) ++ inner_shape (f_meta f))) ;;
               Returns (f_name f, v')) = Returns (f_name f, g f) /\
              wf_value (g f) /\
              bind_field (unbound (with_value (g f) f))
                = Ok (with_value (g f) f) /\
              is_active (with_value (g f) f) = true /\
              f_xnp (with_value (g f) f) = Some (_xnp d) /\
              host_shape (with_value (g f) f) = Ok (t ++ inner)) as Hper.
    { intros f Hf. destruct (Hfields f Hf) as (Hb & Ha & Hx & Hhs).
      pose proof Hf as Hin. apply filter_In in Hin as [Hin _].
      split; [exact Hin|].
      destruct (bound_active_field _ _ f Hb Ha)
        as (x & hs & Hx' & Hhs' & Hvs & Hdt).
      rewrite Hhs in Hhs'. injection Hhs' as <-.
      rewrite Hx in Hx'. injection Hx' as <-.
      assert (is_value_missing_of (f_value f) = false) as Hm.
      { unfold is_active, is_value_missing in Ha.
        now apply negb_true_iff in Ha. }
      destruct (IH f Hin (inner ++ inner_shape (f_meta f))
                  (wf_value_field _ _ d f Hwf Hin) Hm) as [Hrec Hrwf].
      { now rewrite app_assoc. }
      rewrite app_assoc in Hrec, Hrwf.
      unfold unbound, with_value, is_dataclass, g.
      cbn [f_meta f_name f_value f_xnp]. rewrite Hx.
      destruct (dtype (f_meta f)) as [dt|c] eqn:Edt.
      + destruct Hdt as (a & Hv & Hax & Hadt).
        rewrite Hv in Hvs, Hrwf |- *. simpl in Hvs. injection Hvs as Hvs.
        split.
        { cbn [xnp_broadcast_to]. rewrite Hvs.
          destruct (broadcastable_inner s0 t
                      (inner ++ inner_shape (f_meta f)) broadcasts)
            as [Hbc _].
          rewrite !app_assoc in Hbc. rewrite Hbc. cbn [and_then broadcasted].
          unfold xnp. now rewrite Hvs, Hax. }
        split; [exact Hrwf|].
        cbn [broadcasted].
        match goal with
        | |- context [VArray ?B] =>
            destruct (bind_array_value (f_meta f) (f_name f) B dt
                        (t ++ inner) None Edt eq_refl) as (Hbind & Hh & Hac);
            rewrite asarray_same in Hbind, Hh, Hac by exact Hadt
        end.
        cbn [arr_xnp] in Hbind, Hh, Hac. rewrite <- Hax. auto.
      + destruct Hdt as (e & Hv & Hex & Hinst).
        rewrite Hv in Hrec, Hrwf |- *.
        split; [now rewrite Hrec|]. split; [exact Hrwf|].
        rewrite broadcasted_VDc.
        destruct (bind_record_value (f_meta f) (f_name f)
                    (broadcasted_dc
                       ((t ++ inner) ++ inner_shape (f_meta f)) e)
                    c (t ++ inner) None Edt Hinst) as (Hbind & Hh & Hac).
        * rewrite <- broadcasted_VDc, broadcasted_missing, <- Hv. exact Hm.
        * reflexivity.
        * change (xnp (broadcasted_dc
                         ((t ++ inner) ++ inner_shape (f_meta f)) e))
            with (_xnp e) in Hbind, Hh, Hac.
          rewrite Hex in Hbind, Hh, Hac. auto. }
    assert (replace d (map (fun f => (f_name f, g f)) (_array_fields d)) =
            Ok (broadcasted_dc (t ++ inner) d)) as Hrep.
    { rewrite (replace_active_values d g (fun f => with_value (g f) f)
                 (_xnp d) (t ++ inner) Hd Hwfc Hne); [reflexivity|].
      intros f Hf. now destruct (Hper f Hf) as (_ & _ & _ & H). }
    split.
    + cbn [broadcast_to_value]. rewrite collect_spec. fold (_array_fields d).
      rewrite (gather_pointwise _ _ _
                 (fun f : _ArrayField_ DcOrArray => (f_name f, g f))).
      2:{ intros f Hf. now destruct (Hper f Hf) as (_ & H & _). }
      cbn [and_then]. rewrite Hrep. reflexivity.
    + rewrite broadcasted_VDc. split; [|split].
      * unfold replace in Hrep.
        now destruct (new_constructed _ _ _ _ _ _ Hrep).
      * exact Hwfc.
      * apply wf_fields_forall. intros f' Hf'.
        cbn [broadcasted_dc _all_array_fields] in Hf'.
        apply in_map_iff in Hf' as [f [<- Hin]]. unfold broadcasted_field.
        destruct (is_active f) eqn:Ha.
        -- assert (In f (_array_fields d)) as Hf by (apply filter_In; auto).
           now destruct (Hper f Hf) as (_ & _ & H & _).
        -- exact (wf_value_field _ _ d f Hwf Hin).
Qed.

End BroadcastTo.


Lemma map_field_more_unshaped (d : DataclassArray)
  (fn : _ArrayField -> outcome DcOrArray)
  (nest : option (_ArrayField -> outcome DcOrArray)) :
  constructed d -> wf_class (cls d) -> _shape d = None ->
  _map_field_more d fn nest = Returns d.
Proof.
  intros Hd Hwfc Hshape. unfold _map_field_more.
  rewrite (unshaped_has_no_active_field d Hd Hshape). cbn [gather and_then].
  now rewrite replace_nothing.
Qed.

(** X15: the operations that map the fields return a record without
    active field as it is.  For a record the constructor returned (of a
    class that declares each field name once) whose batch shape is
    [None], [reshape] with any tuple, [flatten], [broadcast_to] with any
    shape, [map_field] with any function and [as_xnp] with any backend
    return the record itself: its backend stays numpy whatever backend
    [as_xnp] is given. *)
Theorem record_without_active_field_is_returned_unchanged
  (c : dataclass_type) (kw : list (string * DcOrArray))
  (okw : list (string * pyobj)) (d : DataclassArray) :
  wf_class c ->
  new c kw okw = Ok d ->
  shape d = None ->
  (forall dims, reshape d (ShapeDims dims) = Returns d) /\
  flatten d = Returns d /\
  (forall t, broadcast_to d t = Returns d) /\
  (forall fn, map_field d fn = Returns d) /\
  (forall x, as_xnp d x = Returns d) /\
  xnp d = np.
Proof.
  intros Hwfc Hnew Hshape.
  destruct (new_constructed _ _ _ _ _ _ Hnew) as [Hc Hd].
  assert (forall fn nest, _map_field_more d fn nest = Returns d) as Hmap.
  { intros fn nest. apply map_field_more_unshaped; [exact Hd| |exact Hshape].
    now rewrite Hc. }
  split; [intros dims; apply Hmap|]. split; [apply Hmap|].
  split; [intros t; apply Hmap|].
  split; [intros fn; apply Hmap|]. split; [intros x; apply Hmap|].
  destruct Hd as (_ & _ & _ & Hp & _).
  destruct (post_init_inv _ _ _ _ _ _ Hp)
    as (_ & _ & _ & _ & _ & [(_ & _ & Hx)|(_ & s & Hs & _)]);
    [exact Hx|unfold shape in Hshape; congruence].
Qed.

(** *** The conversions *)

Lemma converted_missing (x : NpModule) (v : DcOrArray) :
  is_value_missing_of (converted x v) = is_value_missing_of v.
Proof.
  induction v as [| |a|d IH] using DcOrArray_induction; try reflexivity.
  simpl. induction (_all_array_fields d) as [|f all IHall]; [reflexivity|].
  inversion IH as [|? ? Hf Hall]; subst. simpl.
  rewrite (IHall Hall). f_equal.
  unfold is_active, is_value_missing.
  destruct (is_value_missing_of (f_value f)) eqn:Hm; simpl.
  - exact Hm.
  - exact Hf.
Qed.

Lemma converted_VDc (x : NpModule) (d : DataclassArray) :
  converted x (VDc d) = VDc (converted_dc x d).
Proof. reflexivity. Qed.

Section Conversion.

(** What is assumed of the backends: [xnp.asarray] of an array is an
    array of [xnp], of the same shape. *)
Hypothesis asarray_of_array :
  forall x a, xnp_asarray x (VArray a) = Returns (VArray (to_backend x a)).
Hypothesis to_backend_xnp : forall x a, arr_xnp (to_backend x a) = x.
Hypothesis to_backend_shape :
  forall x a, arr_shape (to_backend x a) = arr_shape a.

Lemma map_field_converted (x : NpModule) (v : DcOrArray) :
  wf_value v -> is_value_missing_of v = false ->
  match v with
  | VDc d => map_field_value (xnp_asarray x) v = Returns (converted x v)
  | _ => True
  end.
Proof.
  induction v as [| |a|d IH] using DcOrArray_induction;
    intros Hwf Hact; try exact I.
  pose proof Hwf as (Hd & Hwfc & _).
  destruct (constructed_has_shape d Hd Hact) as [s Hshape].
  destruct (constructed_active _ _ d _ Hd Hshape) as [Hne Hfields].
  rewrite Forall_forall in IH.
  set (g := fun f : _ArrayField_ DcOrArray =>
              match f_value f with
              | VArray a => VArray (to_backend x a)
              | v0 => converted x v0
              end).
  cbn [map_field_value]. rewrite collect_spec. fold (_array_fields d).
  rewrite (gather_pointwise _ _ _
             (fun f : _ArrayField_ DcOrArray => (f_name f, g f))).
  2:{ intros f Hf. destruct (Hfields f Hf) as (Hb & Ha & Hx & Hhs).
      pose proof Hf as Hin. apply filter_In in Hin as [Hin _].
      destruct (bound_active_field _ _ f Hb Ha)
        as (x0 & hs & _ & _ & _ & Hdt).
      unfold is_dataclass, g. destruct (dtype (f_meta f)) as [dt|c].
      - destruct Hdt as (a & -> & _). now rewrite asarray_of_array.
      - destruct Hdt as (e & Hv & _).
        assert (is_value_missing_of (f_value f) = false) as Hm.
        { unfold is_active, is_value_missing in Ha.
          now apply negb_true_iff in Ha. }
        pose proof (IH f Hin (wf_value_field _ _ d f Hwf Hin) Hm) as Hrec.
        rewrite Hv in Hrec |- *. now rewrite Hrec. }
  cbn [and_then].
  rewrite (replace_active_values d g
             (fun f => set_value_xnp f (converted x (f_value f)) x)
             x s Hd Hwfc Hne).
  { cbn [earlier and_then]. rewrite converted_VDc. unfold converted_dc.
    now rewrite Hshape. }
  intros f Hf. destruct (Hfields f Hf) as (Hb & Ha & Hx & Hhs).
  destruct (bound_active_field _ _ f Hb Ha)
    as (x0 & hs & Hx' & Hhs' & Hvs & Hdt).
  rewrite Hhs in Hhs'. injection Hhs' as <-.
  unfold unbound, with_value, set_value_xnp, g.
  cbn [f_meta f_name f_value f_xnp].
  destruct (dtype (f_meta f)) as [dt|c] eqn:Edt.
  - destruct Hdt as (a & Hv & Hax & Hadt). rewrite Hv in Hvs |- *.
    simpl in Hvs. injection Hvs as Hvs.
    destruct (bind_array_value (f_meta f) (f_name f) (to_backend x a)
                dt s None Edt) as (Hbind & Hh & Hac).
    { now rewrite to_backend_shape. }
    rewrite to_backend_xnp in Hbind, Hh, Hac.
    cbn [converted]. rewrite Hadt. auto.
  - destruct Hdt as (e & Hv & Hex & Hinst). rewrite Hv in Hvs |- *.
    simpl in Hvs. injection Hvs as Hvs.
    rewrite converted_VDc.
    destruct (bind_record_value (f_meta f) (f_name f) (converted_dc x e)
                c s None Edt Hinst) as (Hbind & Hh & Hac).
    + rewrite <- converted_VDc, converted_missing, <- Hv.
      unfold is_active, is_value_missing in Ha.
      now apply negb_true_iff in Ha.
    + exact Hvs.
    + auto.
Qed.


(** What is assumed besides: [xnp.asarray] of an array of [xnp] is that
    array. *)
Hypothesis to_backend_own : forall a, to_backend (arr_xnp a) a = a.

Lemma converted_own (v : DcOrArray) :
  wf_value v -> is_value_missing_of v = false ->
  match v with
  | VArray a => converted (arr_xnp a) v = v
  | VDc d => converted (_xnp d) v = v
  | _ => True
  end.
Proof.
  induction v as [| |a|d IH] using DcOrArray_induction;
    intros Hwf Hact; try exact I.
  - cbn [converted]. rewrite to_backend_own. now rewrite asarray_same.
  - pose proof Hwf as (Hd & Hwfc & _).
    destruct (constructed_has_shape d Hd Hact) as [s Hshape].
    destruct (constructed_active _ _ d _ Hd Hshape) as [Hne Hfields].
    rewrite Forall_forall in IH.
    cbn [converted].
    rewrite (map_ext_in _ (fun f => f)).
    { rewrite map_id. now destruct d. }
    intros f Hin. destruct (is_active f) eqn:Ha; [|reflexivity].
    assert (In f (_array_fields d)) as Hf by (apply filter_In; auto).
    destruct (Hfields f Hf) as (Hb & _ & Hx & _).
    destruct (bound_active_field _ _ f Hb Ha)
      as (x0 & hs & Hx' & _ & _ & Hdt).
    rewrite Hx in Hx'. injection Hx' as <-.
    assert (is_value_missing_of (f_value f) = false) as Hm.
    { unfold is_active, is_value_missing in Ha.
      now apply negb_true_iff in Ha. }
    pose proof (IH f Hin (wf_value_field _ _ d f Hwf Hin) Hm) as Hrec.
    assert (converted (_xnp d) (f_value f) = f_value f) as ->.
    { destruct (dtype (f_meta f)) as [dt|c].
      - destruct Hdt as (a & Hv & Hax & _). rewrite Hv in Hrec |- *.
        now rewrite <- Hax.
      - destruct Hdt as (e & Hv & Hex & _). rewrite Hv in Hrec |- *.
        now rewrite <- Hex. }
    destruct f. unfold set_value_xnp. simpl in *. now rewrite Hx.
Qed.


End Conversion.

End FurtherOperations.

(** ** [append_row] *)

Section AppendRow.

Variable scalar : Type.
Variable astype : np_dtype -> np_dtype -> scalar -> scalar.
Variable result_type : np_dtype -> np_dtype -> np_dtype.
Variable xnp_asarray : NpModule -> DcOrArray scalar -> outcome (DcOrArray scalar).

Local Abbreviation xnp_append := (xnp_append astype result_type).
Local Abbreviation append_row := (append_row astype result_type xnp_asarray).

Lemma py_index_lt (n : nat) (i : Z) (a : nat) :
  py_index n i = Some a -> a < n.
Proof.
  unfold py_index. intros H.
  destruct (Z.leb_spec 0 i).
  - destruct (Z.ltb_spec i (Z.of_nat n)); [|discriminate].
    injection H as <-. lia.
  - destruct (Z.leb_spec (- Z.of_nat n) i); [|discriminate].
    injection H as <-. lia.
Qed.

Lemma shape_at (a : nat) (v : nat) (l : Shape) :
  a < length l ->
  firstn a (set_item a v l) = firstn a l /\
  skipn a (set_item a v l) = v :: skipn (S a) l /\
  skipn a l = nth a l 0 :: skipn (S a) l /\
  nth a (set_item a v l) 0 = v /\
  length (set_item a v l) = length l.
Proof.
  revert a. induction l as [|x l IH]; intros a Ha; simpl in Ha; [lia|].
  destruct a as [|a]; simpl; [auto|].
  destruct (IH a ltac:(lia)) as (E1 & E2 & E3 & E4 & E5).
  rewrite E1, E5. auto.
Qed.

Lemma length_asarray (x : NpModule) (a : ndarray scalar) (dt : np_dtype) :
  length (arr_data (asarray astype x a dt)) = length (arr_data a).
Proof.
  unfold asarray. simpl.
  destruct (String.eqb (arr_dtype a) dt); [reflexivity|apply length_map].
Qed.

(** X18: [append_row] returns exactly for a value without dimension and
    an axis of [x].  When [xnp.asarray(value)] is an array [v]: if [v]
    has no dimension (and one element) and [axis] is an index of the
    shape of [x] (whose elements fill its shape), [append_row] returns an
    array of the backend of [x] whose shape is the one of [x] with one
    more at that axis, and whose elements fill that shape; if [v] has
    dimensions, or [axis] is no index of the shape of [x], it raises. *)
Theorem append_row_adds_one_along_the_axis (x : ndarray scalar)
  (value : DcOrArray scalar) (v : ndarray scalar) (axis : Z) :
  xnp_asarray (arr_xnp x) value = Returns (VArray v) ->
  length (arr_data x) = prod_dims (arr_shape x) ->
  length (arr_data v) = prod_dims (arr_shape v) ->
  (forall a,
     arr_shape v = [] -> py_index (length (arr_shape x)) axis = Some a ->
     exists r,
       append_row x value axis = Returns r /\
       arr_xnp r = arr_xnp x /\
       arr_shape r = set_item a (nth a (arr_shape x) 0 + 1) (arr_shape x) /\
       length (arr_data r) = prod_dims (arr_shape r)) /\
  (arr_shape v <> [] \/ py_index (length (arr_shape x)) axis = None ->
   exists e, append_row x value axis = Raises e /\
             (e = ListAssignmentOutOfRange \/ e = TupleIndexOutOfRange \/
              e = AssertionFailed \/ e = AppendRowOfRow \/
              e = AppendRowRank (arr_shape v))).
Proof.
  intros Hv Hx Hvd. split.
  - intros a Hs Ha. pose proof (py_index_lt _ _ _ Ha) as Hlt.
    unfold append_row. rewrite Hv. cbn [and_then]. rewrite Hs, Ha.
    eexists. split; [reflexivity|]. split; [reflexivity|].
    destruct (shape_at a 1 (arr_shape x) Hlt) as (E1 & E2 & E3 & E4 & E5).
    split.
    { unfold xnp_append, broadcast_scalar. cbn [arr_shape]. now rewrite E4. }
    unfold xnp_append, broadcast_scalar. cbn [arr_shape arr_data arr_dtype].
    rewrite E2, E4, !prod_dims_cons, Nat.mul_1_l.
    set (inner := prod_dims (skipn (S a) (arr_shape x))).
    set (outer := prod_dims (firstn a (arr_shape x))).
    set (dt := if String.eqb (arr_dtype x) (arr_dtype v) then arr_dtype x
               else result_type (arr_dtype x) (arr_dtype v)).
    assert (prod_dims (arr_shape x) = outer * (nth a (arr_shape x) 0 * inner))
      as Hsize.
    { rewrite (prod_dims_split a). fold outer. now rewrite E3, prod_dims_cons. }
    rewrite (length_concat_blocks _ _
               (nth a (arr_shape x) 0 * inner + inner) outer).
    + destruct (shape_at a (nth a (arr_shape x) 0 + 1) (arr_shape x) Hlt)
        as (F1 & F2 & _).
      rewrite (prod_dims_split a (set_item a _ (arr_shape x))), F1, F2.
      fold outer. rewrite prod_dims_cons. fold inner. lia.
    + intros o Ho. rewrite length_app.
      rewrite E3, prod_dims_cons. fold inner.
      rewrite (length_chunk _ _ o outer), (length_chunk _ _ o outer);
        try assumption; try reflexivity.
      * rewrite length_asarray. cbn [arr_data].
        rewrite length_concat_repeat, Hvd, Hs.
        rewrite (prod_dims_split a (set_item a 1 (arr_shape x))), E1, E2.
        fold outer. rewrite prod_dims_cons. fold inner.
        change (prod_dims []) with 1. lia.
      * rewrite length_asarray, Hx, Hsize. reflexivity.
  - intros Hbad. unfold append_row. rewrite Hv. cbn [and_then].
    destruct (arr_shape v) as [|n [|m rest]] eqn:Hs.
    + destruct Hbad as [Hbad|Hbad]; [now destruct Hbad|]. rewrite Hbad.
      eexists. split; [reflexivity|]. auto.
    + destruct (py_index _ _) as [a|].
      * destruct (_ =? _); eexists; (split; [reflexivity|]); auto.
      * eexists. split; [reflexivity|]. auto.
    + eexists. split; [reflexivity|]. auto 6.
Qed.

End AppendRow.

(** ** The shape of a stack *)

Section StackShape.

Variable scalar : Type.
Variable astype : np_dtype -> np_dtype -> scalar -> scalar.
Variable result_type : np_dtype -> np_dtype -> np_dtype.

Local Abbreviation DataclassArray := (DataclassArray scalar).
Local Abbreviation DcOrArray := (DcOrArray scalar).
Local Abbreviation _ArrayField := (_ArrayField scalar).
Local Abbreviation bind_field := (_ArrayField__post_init__ astype).
Local Abbreviation new := (new astype).
Local Abbreviation replace := (replace astype).
Local Abbreviation xnp_stack := (xnp_stack astype result_type).
Local Abbreviation stack_from := (stack_from astype result_type).
Local Abbreviation stack := (stack astype result_type).
Local Abbreviation constructed := (constructed astype).
Local Abbreviation wf_value := (wf_value astype).

Lemma stackable_on_field (d : DataclassArray) (w : DcOrArray)
  (f : _ArrayField) :
  stackable_on (VDc d) w -> In f (_all_array_fields d) ->
  is_active f = true ->
  exists w', getattr (f_name f) w = Ok w' /\ stackable_on (f_value f) w'.
Proof.
  simpl. induction (_all_array_fields d) as [|f0 all0 IH]; intros H Hin Ha;
    [destruct Hin|].
  simpl in H. destruct H as [H0 H]. destruct Hin as [->|Hin]; auto.
Qed.

(** The values that [stack] reads under the name of a field. *)
Lemma getattr_stackable (d : DataclassArray) (f : _ArrayField)
  (rest : list DcOrArray) :
  Forall (stackable_on (VDc d)) rest -> In f (_all_array_fields d) ->
  is_active f = true ->
  exists others,
    mapM (getattr (f_name f)) rest = Ok others /\
    Forall (stackable_on (f_value f)) others /\
    length others = length rest.
Proof.
  intros Hrest Hin Ha. induction Hrest as [|w rest Hw Hrest IH].
  - exists []. repeat split. constructor.
  - destruct (stackable_on_field d w f Hw Hin Ha) as (w' & Hg & Hw').
    destruct IH as (others & Hm & Hall & Hlen).
    exists (w' :: others). simpl. rewrite Hg, Hm. simpl.
    repeat split; [now constructor|now rewrite Hlen].
Qed.

(** The backend's stack of arrays of one shape. *)
Lemma xnp_stack_shape (x : NpModule) (a : ndarray scalar)
  (others : list DcOrArray) :
  Forall (stackable_on (VArray a)) others ->
  exists st,
    xnp_stack x (VArray a :: others) = Ok (VArray st) /\
    arr_xnp st = x /\ arr_shape st = S (length others) :: arr_shape a.
Proof.
  intros Hall.
  assert (exists bs, mapM (@as_ndarray scalar) others = Ok bs /\
                     length bs = length others /\
                     forall b, In b bs -> arr_shape b = arr_shape a)
    as (bs & Hbs & Hlen & Hshape).
  { induction Hall as [|w others Hw Hall IH].
    - exists []. repeat split. intros b [].
    - destruct IH as (bs & Hbs & Hlen & Hshape).
      destruct w as [| |b|e]; try destruct Hw.
      exists (b :: bs). simpl. rewrite Hbs. simpl.
      repeat split; [now rewrite Hlen|].
      intros b' [<-|Hb']; auto. }
  unfold xnp_stack. cbn [mapM as_ndarray bind]. rewrite Hbs. cbn [bind].
  assert (forallb (fun b => Shape_eqb (arr_shape b) (arr_shape a)) bs = true)
    as ->.
  { apply forallb_forall. intros b Hb. apply Shape_eqb_eq. now apply Hshape. }
  eexists. split; [reflexivity|]. simpl. now rewrite Hlen.
Qed.

Lemma bind_assoc (A B C : Type) (r : result A) (k : A -> result B)
  (k' : B -> result C) :
  bind (bind r k) k' = bind r (fun a => bind (k a) k').
Proof. now destruct r. Qed.

(** Stacking on an active value as the program holds it: a record of the
    class and backend of the first one, with one more dimension. *)
Lemma stack_from_shape (v : DcOrArray) :
  wf_value v -> is_value_missing_of v = false ->
  forall rest, Forall (stackable_on v) rest ->
  match v with
  | VDc d =>
      exists r,
        stack_from v rest 0%Z = Ok (VDc r) /\
        cls r = cls d /\ _xnp r = _xnp d /\
        other_values r = other_values d /\
        (forall s, _shape d = Some s ->
                   _shape r = Some (S (length rest) :: s)) /\
        is_value_missing_of (VDc r) = false
  | _ => True
  end.
Proof.
  induction v as [| |a|d IH] using DcOrArray_induction;
    intros Hwf Hact rest Hrest; try exact I.
  pose proof Hwf as (Hd & Hwfc & _).
  destruct (constructed_has_shape _ _ d Hd Hact) as [s Hshape].
  destruct (constructed_active _ _ d _ Hd Hshape) as [Hne Hfields].
  rewrite Forall_forall in IH.
  set (k := length rest).
  set (G := fun f : _ArrayField_ DcOrArray =>
              others <- mapM (getattr (f_name f)) rest ;;
              (if is_dataclass (f_meta f)
               then stack_from (f_value f) others 0%Z
               else xnp_stack (xnp d) (f_value f :: others))).
  set (g := fun f : _ArrayField_ DcOrArray =>
              match G f with Ok v0 => v0 | Raise _ => VNone scalar end).
  set (h := fun f : _ArrayField_ DcOrArray =>
              match dtype (f_meta f), g f with
              | DtArray dt, VArray b =>
                  {| f_meta := f_meta f; f_name := f_name f;
                     f_value := VArray (asarray astype (arr_xnp b) b dt);
                     f_xnp := Some (arr_xnp b) |}
              | DtDataclass _, VDc e =>
                  {| f_meta := f_meta f; f_name := f_name f;
                     f_value := VDc e; f_xnp := Some (xnp e) |}
              | _, _ => f
              end).
  assert (forall f, In f (_array_fields d) ->
            G f = Ok (g f) /\
            bind_field (unbound (with_value (g f) f)) = Ok (h f) /\
            is_active (h f) = true /\ f_xnp (h f) = Some (_xnp d) /\
            host_shape (h f) = Ok (S k :: s)) as Hper.
  { intros f Hf. destruct (Hfields f Hf) as (Hb & Ha & Hx & Hhs).
    pose proof Hf as Hin. apply filter_In in Hin as [Hin _].
    destruct (bound_active_field _ _ f Hb Ha)
      as (x0 & hs & Hx' & Hhs' & Hvs & Hdt).
    rewrite Hhs in Hhs'. injection Hhs' as <-.
    rewrite Hx in Hx'. injection Hx' as <-.
    destruct (getattr_stackable d f rest Hrest Hin Ha)
      as (others & Hget & Hothers & Hlen).
    unfold h, g, unbound, with_value. cbn [f_meta f_name f_value f_xnp].
    unfold G, is_dataclass. rewrite Hget. cbn [bind].
    destruct (dtype (f_meta f)) as [dt|c] eqn:Edt.
    - destruct Hdt as (a & Hv & Hax & Hadt). rewrite Hv in Hvs, Hothers |- *.
      simpl in Hvs. injection Hvs as Hvs.
      destruct (xnp_stack_shape (xnp d) a others Hothers)
        as (st & Hst & Hstx & Hsts).
      rewrite Hst. split; [reflexivity|].
      destruct (bind_array_value _ astype (f_meta f) (f_name f) st dt
                  (S k :: s) None Edt) as (Hbind & Hh & Hac).
      { rewrite Hsts, Hvs, Hlen. reflexivity. }
      rewrite Hstx in Hbind, Hh, Hac |- *. auto.
    - destruct Hdt as (e & Hv & Hex & Hinst). rewrite Hv in Hvs, Hothers |- *.
      simpl in Hvs. injection Hvs as Hvs.
      assert (is_value_missing_of (f_value f) = false) as Hm.
      { unfold is_active, is_value_missing in Ha.
        now apply negb_true_iff in Ha. }
      pose proof (IH f Hin (wf_value_field _ _ d f Hwf Hin) Hm) as Hrec.
      rewrite Hv in Hrec.
      destruct (Hrec others Hothers)
        as (r & Hr & Hrc & Hrx & _ & Hrs & Hra).
      rewrite Hr. split; [reflexivity|].
      destruct (bind_record_value _ astype (f_meta f) (f_name f) r c
                  (S k :: s) None Edt) as (Hbind & Hh & Hac).
      + simpl in Hinst |- *. now rewrite Hrc.
      + exact Hra.
      + unfold shape. rewrite (Hrs _ Hvs), Hlen. reflexivity.
      + unfold xnp in Hbind, Hh, Hac |- *.
        rewrite Hrx, Hex in Hbind, Hh, Hac |- *. auto. }
  rewrite stack_from_VDc, False_not_in_types. cbn [Z.eqb negb].
  rewrite mapM_filter_spec. fold (_array_fields d).
  match goal with
  | |- context [mapM ?F (_array_fields d)] =>
      rewrite (mapM_ext_in _ _ F
                 (fun f : _ArrayField_ DcOrArray => Ok (f_name f, g f))
                 (_array_fields d))
  end.
  2:{ intros f Hf. destruct (Hper f Hf) as (HG & _).
      unfold G in HG. rewrite <- bind_assoc, HG. reflexivity. }
  rewrite mapM_pure. cbn [bind].
  rewrite (replace_active_values _ astype result_type d g h (_xnp d)
             (S k :: s) Hd Hwfc Hne).
  2:{ intros f Hf. now destruct (Hper f Hf) as (_ & H). }
  cbn [bind]. eexists. split; [reflexivity|].
  cbn [cls _xnp _shape other_values].
  split; [reflexivity|]. split; [reflexivity|]. split; [reflexivity|].
  split.
  { intros s' Hs'. rewrite Hshape in Hs'. now injection Hs' as <-. }
  simpl. destruct (forallb _ _) eqn:Hall; [|reflexivity].
  exfalso.
  assert (exists f, In f (_array_fields d)) as [f Hf].
  { destruct (_array_fields d) as [|f fs]; [now destruct Hne|].
    exists f. now left. }
  pose proof Hf as Hin. apply filter_In in Hin as [Hin Ha].
  rewrite forallb_forall in Hall.
  specialize (Hall (h f)).
  destruct (Hper f Hf) as (_ & _ & Hac & _).
  unfold is_active, is_value_missing in Hac.
  rewrite Hall in Hac; [discriminate|].
  apply in_map_iff. exists f. rewrite Ha. auto.
Qed.


End StackShape.

(** * The properties on the examples *)

Lemma new_square3 : new ex_astype Square square3_kwargs [] = Ok square3.
Proof. reflexivity. Qed.

Lemma wf_class_Square : wf_class Square.
Proof.
  unfold wf_class. simpl. repeat constructor; simpl; intuition discriminate.
Qed.

(** The second half of C1 on [pos] of shape [(3, 2)] and [scale] of shape
    [(4,)]: with both arrays of numpy the error lists the fields under
    their host shapes; with [scale] of jax it is the error of the
    backends. *)
Lemma shape_is_host_shape_witness :
  (exists e,
     __post_init__ ex_astype Square square_shapes_fields [] = Raise e /\
     class_of e = ValueError /\
     exists shapes,
       e = ConflictingBatchShapes shapes /\
       (exists names, In ([3], names) shapes /\ In "pos" names) /\
       (exists names, In ([4], names) shapes /\ In "scale" names)) /\
  (exists e xnps,
     __post_init__ ex_astype Square square_mixed_fields [] = Raise e /\
     e = ConflictingNumpyTypes xnps /\
     (exists names, In ("numpy", names) xnps /\ In "pos" names) /\
     (exists names, In ("jax.numpy", names) xnps /\ In "scale" names)).
Proof.
  split.
  - destruct (proj2 (shape_is_host_shape_of_active_fields Z ex_astype)
                Square square_shapes_fields []
                [ {| f_meta := pos_meta; f_name := "pos";
                     f_value := float32_array np [3; 2] [1; 2; 3; 4; 5; 6]%Z;
                     f_xnp := Some np |};
                  {| f_meta := scale_meta; f_name := "scale";
                     f_value := float32_array np [4] [7; 8; 9; 10]%Z;
                     f_xnp := Some np |} ]
                {| f_meta := pos_meta; f_name := "pos";
                   f_value := float32_array np [3; 2] [1; 2; 3; 4; 5; 6]%Z;
                   f_xnp := Some np |}
                {| f_meta := scale_meta; f_name := "scale";
                   f_value := float32_array np [4] [7; 8; 9; 10]%Z;
                   f_xnp := Some np |}
                [3] [4] eq_refl eq_refl (or_introl eq_refl)
                (or_intror (or_introl eq_refl)) eq_refl eq_refl
                ltac:(discriminate))
      as (e & He & Hc & [[_ Hdiff]|[_ Hshapes]] & _).
    + exfalso. apply Hdiff.
      intros f g [<-|[<-|[]]] [<-|[<-|[]]]; reflexivity.
    + exists e. auto.
  - destruct (proj2 (shape_is_host_shape_of_active_fields Z ex_astype)
                Square square_mixed_fields []
                [ {| f_meta := pos_meta; f_name := "pos";
                     f_value := float32_array np [3; 2] [1; 2; 3; 4; 5; 6]%Z;
                     f_xnp := Some np |};
                  {| f_meta := scale_meta; f_name := "scale";
                     f_value := float32_array jnp [4] [7; 8; 9; 10]%Z;
                     f_xnp := Some jnp |} ]
                {| f_meta := pos_meta; f_name := "pos";
                   f_value := float32_array np [3; 2] [1; 2; 3; 4; 5; 6]%Z;
                   f_xnp := Some np |}
                {| f_meta := scale_meta; f_name := "scale";
                   f_value := float32_array jnp [4] [7; 8; 9; 10]%Z;
                   f_xnp := Some jnp |}
                [3] [4] eq_refl eq_refl (or_introl eq_refl)
                (or_intror (or_introl eq_refl)) eq_refl eq_refl
                ltac:(discriminate))
      as (e & He & Hc & [[(xnps & Hx & Hl) _]|[Hsame _]] & _).
    + exists e, xnps. split; [exact He|]. split; [exact Hx|]. split.
      * exact (Hl _ np (or_introl eq_refl) eq_refl).
      * exact (Hl _ jnp (or_intror (or_introl eq_refl)) eq_refl).
    + exfalso.
      pose proof (Hsame _ _ (or_introl eq_refl)
                    (or_intror (or_introl eq_refl))) as H.
      discriminate H.
Defined.

(** C1, as stated, fails on [pos] of shape [(3, 2)] in numpy and [scale]
    of shape [(4,)] in jax: both fields bind, their host shapes are [(3,)]
    and [(4,)], and the error is the one of the backends, which names no
    shape. *)
Lemma conflicting_backends_come_first :
  mapM (_ArrayField__post_init__ ex_astype)
    [ {| f_meta := pos_meta; f_name := "pos";
         f_value := float32_array np [3; 2] [1; 2; 3; 4; 5; 6]%Z;
         f_xnp := None |};
      {| f_meta := scale_meta; f_name := "scale";
         f_value := float32_array jnp [4] [7; 8; 9; 10]%Z; f_xnp := None |} ]
  = Ok [ {| f_meta := pos_meta; f_name := "pos";
            f_value := float32_array np [3; 2] [1; 2; 3; 4; 5; 6]%Z;
            f_xnp := Some np |};
         {| f_meta := scale_meta; f_name := "scale";
            f_value := float32_array jnp [4] [7; 8; 9; 10]%Z;
            f_xnp := Some jnp |} ] /\
  host_shape {| f_meta := pos_meta; f_name := "pos";
                f_value := float32_array np [3; 2] [1; 2; 3; 4; 5; 6]%Z;
                f_xnp := Some np |} = Ok [3] /\
  host_shape {| f_meta := scale_meta; f_name := "scale";
                f_value := float32_array jnp [4] [7; 8; 9; 10]%Z;
                f_xnp := Some jnp |} = Ok [4] /\
  new ex_astype Square square_mixed_kwargs [] =
    Raise (ConflictingNumpyTypes [("numpy", ["pos"]); ("jax.numpy", ["scale"])]).
Proof. repeat split. Qed.

(** C2, as stated, fails on [Square(pos=None, scale=None)]: every field
    is missing and the record is built. *)
Lemma all_missing_record_counterexample :
  forallb (fun kv => is_value_missing_of (snd kv))
    [("pos", VNone Z); ("scale", VNone Z)] = true /\
  new ex_astype Square [("pos", VNone Z); ("scale", VNone Z)] []
    = Ok square_none.
Proof. split; reflexivity. Qed.

Lemma all_missing_record_witness :
  frozen Square = true /\
  forallb (@is_value_missing Z) (_all_array_fields square_none) = true /\
  __post_init__ ex_astype Square (_all_array_fields square_none) []
    = Ok square_none.
Proof.
  split; [reflexivity|]. split; [reflexivity|].
  exact (all_missing_record_is_constructed Z ex_astype Square
           (_all_array_fields square_none) [] eq_refl eq_refl).
Defined.

(** C3: [stack] on an instance of [A] and an instance of [B], two
    classes: no [TypeError], the result is the instance of [A] that holds
    the stacked field. *)
Theorem stack_of_two_types_succeeds :
  new ex_astype class_A [("x", float32_array np [] [1%Z])] []
    = Ok (instance_x class_A [] [1%Z]) /\
  new ex_astype class_B [("x", float32_array np [] [2%Z])] []
    = Ok (instance_x class_B [] [2%Z]) /\
  type_name (VDc (instance_x class_A [] [1%Z]))
    <> type_name (VDc (instance_x class_B [] [2%Z])) /\
  stack ex_astype ex_result_type
    [VDc (instance_x class_A [] [1%Z]); VDc (instance_x class_B [] [2%Z])] 0%Z
    = Ok (VDc (instance_x class_A [1 + 1] [1; 2]%Z)).
Proof.
  split; [reflexivity|]. split; [reflexivity|]. split; [discriminate|].
  unfold stack. rewrite stack_from_VDc, False_not_in_types.
  reflexivity.
Qed.

(** C6, as stated, fails on [square3[..., ..., 0, 0]]: the two items
    that consume a dimension are more than the rank 1 of the batch shape,
    and the error is the one of the ellipses, which reports neither. *)
Lemma ellipsis_error_comes_first :
  shape square3 = Some [3] /\
  length [3] < _count_not_none [IEllipsis; IEllipsis; IInt 0; IInt 0] /\
  getitem_indices square3 (Items [IEllipsis; IEllipsis; IInt 0; IInt 0])
    = Raise SingleEllipsis.
Proof.
  split; [reflexivity|]. split; [unfold _count_not_none; simpl; lia|].
  reflexivity.
Qed.

Lemma getitem_index_errors_witness :
  getitem_indices square3 (Items [IInt 0; IInt 0])
    = Raise (TooManyIndices [3] 2).
Proof.
  destruct (proj2 (getitem_index_errors Z square3 (Items [IInt 0; IInt 0]))
              [3] eq_refl ltac:(unfold _count_not_none; simpl; lia))
    as (e & He & _ & Hrank).
  rewrite He. f_equal. apply Hrank. unfold _count_ellipsis. simpl. lia.
Defined.


Lemma new_cam2 : new ex_astype Cam cam2_kwargs [("tag", "'a'")] = Ok cam2.
Proof. reflexivity. Qed.

Lemma new_ray2 : new ex_astype Ray ray2_kwargs [] = Ok ray2.
Proof. reflexivity. Qed.

Lemma wf_class_Cam : wf_class Cam.
Proof.
  unfold wf_class. simpl. repeat constructor; simpl; intuition discriminate.
Qed.

Lemma wf_class_Ray : wf_class Ray.
Proof.
  unfold wf_class. simpl. repeat constructor; simpl; intuition discriminate.
Qed.

Lemma ray2_kwargs_wf :
  forall p, In p ray2_kwargs -> wf_value ex_astype (snd p).
Proof.
  intros p [<-|[<-|[]]]; [reflexivity|].
  apply (new_wf Z ex_astype Cam cam2_kwargs [("tag", "'a'")] cam2 new_cam2
           wf_class_Cam).
  intros q [<-|[<-|[]]]; reflexivity.
Qed.




(** ** The further properties on the examples *)

(** [square3[0, ...]] on the batch shape [(2, 3)]. *)
Lemma normalised_index_witness :
  _to_absolute_indices [IInt 0; IEllipsis] (Some [2; 3])
    = Ok [IInt 0; full_slice] /\
  _count_ellipsis [IInt 0; full_slice] = 0 /\
  _count_not_none [IInt 0; full_slice] = length [2; 3].
Proof.
  split; [reflexivity|].
  destruct (normalised_index_covers_the_batch_shape
              [IInt 0; IEllipsis] [IInt 0; full_slice] [2; 3] eq_refl)
    as (H0 & _ & H1).
  split; [exact H0|].
  exact (proj1 (H1 ltac:(discriminate))).
Defined.

Lemma to_absolute_indices_idempotent_witness :
  _to_absolute_indices [IInt 0; IEllipsis] (Some [2; 3])
    = Ok [IInt 0; full_slice] /\
  _to_absolute_indices [IInt 0; full_slice] (Some [2; 3])
    = Ok [IInt 0; full_slice].
Proof.
  split; [reflexivity|].
  exact (to_absolute_indices_idempotent
           [IInt 0; IEllipsis] [IInt 0; full_slice] [2; 3] eq_refl).
Defined.

Lemma constructor_normalises_witness :
  new ex_astype Square square3_kwargs [] = Ok square3 /\
  cls square3 = Square /\
  map (fun f => (f_name f, f_meta f)) (_all_array_fields square3)
    = array_fields Square.
Proof.
  split; [exact new_square3|].
  destruct (constructor_normalises_active_fields Z ex_astype Square
              square3_kwargs [] square3 new_square3) as (Hc & Hf & _).
  split; [exact Hc|exact Hf].
Defined.

Lemma replace_without_change_witness :
  wf_class Ray /\
  new ex_astype Ray ray2_kwargs [] = Ok ray2 /\
  replace ex_astype ray2 [] = Ok ray2.
Proof.
  split; [exact wf_class_Ray|]. split; [exact new_ray2|].
  exact (replace_without_change_is_identity Z ex_astype ex_result_type Ray
           ray2_kwargs [] ray2 wf_class_Ray new_ray2).
Defined.


Lemma record_without_active_field_witness :
  frozen Square = true /\
  _all_array_fields square_none <> [] /\
  forallb (@is_value_missing Z) (_all_array_fields square_none) = true /\
  exists d,
    __post_init__ ex_astype Square (_all_array_fields square_none) [] = Ok d /\
    shape d = None /\
    __bool__ d = Ok true /\
    __len__ d = Raise (LenOfUnsized "Square" None) /\
    __iter__ ex_astype d = Raise IterationOver0d.
Proof.
  split; [reflexivity|]. split; [discriminate|]. split; [reflexivity|].
  destruct (record_without_active_field_is_unsized Z ex_astype Square
              (_all_array_fields square_none) [] eq_refl
              ltac:(discriminate) eq_refl)
    as (d & Hd & Hs & _ & Hb & Hl & Hi & _).
  exists d. repeat split; assumption.
Defined.


Lemma new_square_unscaled :
  new ex_astype Square square_unscaled_kwargs [] = Ok square_unscaled.
Proof. reflexivity. Qed.

(** The second record has a [scale], the first has none: neither has the
    result. *)
Lemma stack_keeps_missing_witness :
  wf_class Square /\
  new ex_astype Square square_unscaled_kwargs [] = Ok square_unscaled /\
  is_value_missing_of (VDc square_scaled) = false /\
  stack ex_astype ex_result_type [VDc square_unscaled; VDc square_scaled] 0%Z
    = Ok (VDc (square_of (float32_array np [2; 2] [1; 2; 3; 4]%Z) (VNone Z)
                 (Some np) None (Some [2]) np)) /\
  exists d',
    VDc (square_of (float32_array np [2; 2] [1; 2; 3; 4]%Z) (VNone Z)
           (Some np) None (Some [2]) np) = VDc d' /\
    cls d' = Square /\
    In {| f_meta := scale_meta; f_name := "scale"; f_value := VNone Z;
          f_xnp := None |} (_all_array_fields d').
Proof.
  split; [exact wf_class_Square|]. split; [exact new_square_unscaled|].
  split; [reflexivity|].
  assert (stack ex_astype ex_result_type
            [VDc square_unscaled; VDc square_scaled] 0%Z
          = Ok (VDc (square_of (float32_array np [2; 2] [1; 2; 3; 4]%Z)
                       (VNone Z) (Some np) None (Some [2]) np))) as Hs.
  { unfold stack. rewrite stack_from_VDc, False_not_in_types. reflexivity. }
  split; [exact Hs|].
  destruct (stack_keeps_the_missing_fields_of_the_first Z ex_astype
              ex_result_type Square square_unscaled_kwargs [] square_unscaled
              [VDc square_scaled] _ wf_class_Square new_square_unscaled Hs)
    as (d' & Hr & Hc & _ & _ & Hm).
  exists d'. split; [exact Hr|]. split; [exact Hc|].
  apply Hm; [right; left; reflexivity|reflexivity].
Defined.


Lemma new_square_grid :
  new ex_astype Square square_grid_kwargs [] = Ok square_grid.
Proof. reflexivity. Qed.

Lemma square_grid_kwargs_wf :
  forall p, In p square_grid_kwargs -> wf_value ex_astype (snd p).
Proof. intros p [<-|[<-|[]]]; reflexivity. Qed.


Lemma record_without_active_field_unchanged_witness :
  wf_class Square /\
  new ex_astype Square [("pos", VNone Z); ("scale", VNone Z)] []
    = Ok square_none /\
  shape square_none = None /\
  flatten ex_astype square_none = Returns square_none /\
  as_xnp ex_astype ex_xnp_asarray square_none jnp = Returns square_none /\
  xnp square_none = np.
Proof.
  split; [exact wf_class_Square|]. split; [reflexivity|].
  split; [reflexivity|].
  destruct (record_without_active_field_is_returned_unchanged Z ex_astype
              ex_result_type ex_xnp_asarray Square
              [("pos", VNone Z); ("scale", VNone Z)] [] square_none
              wf_class_Square eq_refl eq_refl)
    as (_ & Hf & _ & _ & Hx & Hnp).
  split; [exact Hf|]. split; [exact (Hx jnp)|exact Hnp].
Defined.

Lemma ex_asarray_of_array :
  forall x a, ex_xnp_asarray x (VArray a) = Returns (VArray (ex_to_backend x a)).
Proof. reflexivity. Qed.

Lemma ex_to_backend_xnp : forall x a, arr_xnp (ex_to_backend x a) = x.
Proof. reflexivity. Qed.

Lemma ex_to_backend_shape :
  forall x a, arr_shape (ex_to_backend x a) = arr_shape a.
Proof. reflexivity. Qed.

Lemma ex_to_backend_own : forall a, ex_to_backend (arr_xnp a) a = a.
Proof. intros a. now destruct a. Qed.



(** [append_row([[1, 2], [3, 4]], 1, axis=-1)] *)
Lemma append_row_witness :
  ex_xnp_asarray np (float32_array np [] [1%Z])
    = Returns (float32_array np [] [1%Z]) /\
  py_index 2 (-1) = Some 1 /\
  exists r,
    append_row ex_astype ex_result_type ex_xnp_asarray
      {| arr_xnp := np; arr_dtype := "float32"; arr_shape := [2; 2];
         arr_data := [1; 2; 3; 4]%Z |}
      (float32_array np [] [1%Z]) (-1) = Returns r /\
    arr_xnp r = np /\ arr_shape r = [2; 3] /\
    length (arr_data r) = prod_dims (arr_shape r).
Proof.
  split; [reflexivity|]. split; [reflexivity|].
  exact (proj1 (append_row_adds_one_along_the_axis Z ex_astype
                  ex_result_type ex_xnp_asarray
                  {| arr_xnp := np; arr_dtype := "float32";
                     arr_shape := [2; 2]; arr_data := [1; 2; 3; 4]%Z |}
                  (float32_array np [] [1%Z])
                  {| arr_xnp := np; arr_dtype := "float32"; arr_shape := [];
                     arr_data := [1%Z] |}
                  (-1) eq_refl eq_refl eq_refl) 1 eq_refl eq_refl).
Defined.

Lemma ray2_stackable : Forall (stackable_on (VDc ray2)) [VDc ray2].
Proof.
  constructor; [|constructor]. simpl. split; [|split; [|exact I]].
  - intros _. eexists. split; reflexivity.
  - intros _. eexists. split; [reflexivity|]. simpl.
    split; [|split; [|exact I]].
    + intros _. eexists. split; reflexivity.
    + discriminate.
Qed.



